(** * live_logs_handler: a model of [handler.py]

    The module [live_logs_handler/handler.py] defines one class,
    [ThreadSafeStructuredLogger], and two module-level functions,
    [get_logger] and [start_logging].  This development embeds them as
    state-passing functions and states the properties of the natural
    language specification against that embedding.

    Conventions.
    - A Python [str] is a [string]; each character stands for one code
      point below 256.
    - A Python [dict] with string keys is a [gmap string value].  Dicts are
      objects: they live in a heap and are passed around by reference
      ([loc]), because [_log] writes into the dict it is handed.
    - A method is a computation [M A]: it takes the state of the process
      and gives an [outcome] (a returned value or a raised exception) and the
      new state.  [try_except] is Python's [try: ... except: ...].
    - Blocking calls ([Queue.join], [Queue.get] with a timeout, acquiring
      the lock) are scheduling points: the interleaving of the threads is
      the transition function [step] over [action]s. *)

From Stdlib Require Import ZArith String Ascii List Bool Lia.
From stdpp Require Import base option list gmap strings pretty.

Open Scope string_scope.
Open Scope list_scope.
Open Scope Z_scope.

(** ** Strings *)

(** The line feed character. *)
Definition LF : string := String (ascii_of_nat 10) EmptyString.

(** [str.isspace] on a single character below 256: the ASCII controls
    TAB, LF, VT, FF, CR, the separators FS, GS, RS, US, the space, NEL
    (0x85) and the no-break space (0xA0). *)
Definition isspace (a : ascii) : bool :=
  let n := N_of_ascii a in
  ((9 <=? n) && (n <=? 13) || (28 <=? n) && (n <=? 32)
   || (n =? 133) || (n =? 160))%N.

(** [str.lstrip()] *)
Fixpoint lstrip (s : string) : string :=
  match s with
  | EmptyString => EmptyString
  | String a s' => if isspace a then lstrip s' else s
  end.

(** [str.rstrip()] *)
Fixpoint rstrip (s : string) : string :=
  match s with
  | EmptyString => EmptyString
  | String a s' =>
      match rstrip s' with
      | EmptyString => if isspace a then EmptyString else String a EmptyString
      | r => String a r
      end
  end.

(** [str.strip()] *)
Definition strip (s : string) : string := lstrip (rstrip s).

(** Truth value of a [str]: the empty string is false. *)
Definition str_truthy (s : string) : bool :=
  match s with EmptyString => false | _ => true end.

(** [s[:n]] *)
Fixpoint str_take (n : nat) (s : string) : string :=
  match n, s with
  | S n', String a s' => String a (str_take n' s')
  | _, _ => EmptyString
  end.

(** ** Values and dicts *)

(** The values a log entry may hold ([Dict[str, Any]]).  [VOther] stands
    for any other object, by its [str()] and its truth value. *)
Inductive value :=
| VNone
| VBool (b : bool)
| VInt (z : Z)
| VStr (s : string)
| VOther (repr : string) (truth : bool).

#[global] Instance value_eq_dec : EqDecision value.
Proof. solve_decision. Defined.

(** Python's truth value testing. *)
Definition truthy (v : value) : bool :=
  match v with
  | VNone => false
  | VBool b => b
  | VInt z => negb (z =? 0)
  | VStr s => str_truthy s
  | VOther _ t => t
  end.

(** A dict with string keys. *)
Abbreviation Entry := (gmap string value).

(** A reference to a dict object. *)
Abbreviation loc := nat (only parsing).

(** ** Exceptions and outcomes *)

Inductive exn :=
| Full          (* queue.Full *)
| Empty         (* queue.Empty *)
| ValueError    (* task_done() called too many times *)
| OSError       (* open, write or flush failed *)
| TypeError.    (* unexpected keyword argument; value not serializable *)

#[global] Instance exn_eq_dec : EqDecision exn.
Proof. solve_decision. Defined.

Inductive outcome (A : Type) :=
| Returned (a : A)
| Raised (e : exn).
Arguments Returned {A} a.
Arguments Raised {A} e.

(** ** queue.Queue *)

Module Queue.

(** The attributes of [queue.Queue] the program depends on: the capacity
    [maxsize] (no bound when it is not positive), the deque [queue] of the
    queued entries, oldest first, and the counter [unfinished_tasks]. *)
Record t := mk {
  maxsize : Z;
  queue : list nat;
  unfinished_tasks : nat
}.

(** [Queue(maxsize)] *)
Definition new (maxsize : Z) : t := mk maxsize [] 0.

(** [q.full()]: [0 < maxsize <= qsize()]. *)
Definition full (q : t) : bool :=
  (0 <? maxsize q) && (maxsize q <=? Z.of_nat (length (queue q))).

(** [q.empty()] *)
Definition empty (q : t) : bool :=
  match queue q with [] => true | _ => false end.

(** [q.put_nowait(x)]: raises [Full] when the queue is full, else appends
    [x] and counts one more unfinished task. *)
Definition put_nowait (x : nat) (q : t) : outcome t :=
  if full q then Raised Full
  else Returned (mk (maxsize q) (queue q ++ [x]) (S (unfinished_tasks q))).

(** [q.get(timeout=...)] once the wait is over: the oldest entry, or
    [Empty] when there is none. *)
Definition get (q : t) : outcome (nat * t) :=
  match queue q with
  | [] => Raised Empty
  | x :: rest => Returned (x, mk (maxsize q) rest (unfinished_tasks q))
  end.

(** [q.task_done()]: raises [ValueError] when no task is unfinished. *)
Definition task_done (q : t) : outcome t :=
  match unfinished_tasks q with
  | O => Raised ValueError
  | S n => Returned (mk (maxsize q) (queue q) n)
  end.

(** [q.join()] returns once [unfinished_tasks] is zero. *)
Definition join_ready (q : t) : bool :=
  match unfinished_tasks q with O => true | S _ => false end.

End Queue.

(** ** Streams, handlers and threads *)

(** The two standard streams of the process. *)
Inductive std := Stdout | Stderr.

(** What [sys.stdout] or [sys.stderr] may be bound to: a stream of the
    process, or a [PrintCapture] object wrapping another stream.  The
    [logger_instance] of a [PrintCapture] is the logger of the state. *)
Inductive stream :=
| Real (fd : std)
| PrintCapture (original : stream) (stream_name : string).

(** The text a stream of the process has received: [pending] is written
    and not yet flushed, [shown] has been flushed. *)
Record Console := mkConsole {
  pending : string;
  shown : string
}.

Definition console_write (text : string) (c : Console) : Console :=
  mkConsole (pending c +:+ text) (shown c).

Definition console_flush (c : Console) : Console :=
  mkConsole "" (shown c +:+ pending c).

(** The handlers of the root logger of [logging]: the stream handler that
    [logging.basicConfig] installs, and [StructuredLogHandler] objects,
    told apart by their identity. *)
Inductive handler :=
| StreamHandler
| StructuredLogHandler (id : nat).

#[global] Instance handler_eq_dec : EqDecision handler.
Proof. solve_decision. Defined.

(** [l.remove(h)] guarded by [h in l]: the first occurrence goes. *)
Fixpoint remove_first (h : handler) (l : list handler) : list handler :=
  match l with
  | [] => []
  | x :: l' => if decide (x = h) then l' else x :: remove_first h l'
  end.

(** Where a thread running [_log_writer] stands.
    - [WOpen]: started, about to [open(self.log_file, 'a')];
    - [WLoop]: file open, about to test the [while] condition;
    - [WGet]: inside [try], about to call [self.log_queue.get(timeout=0.1)];
    - [WHave entry]: holds [entry], about to serialize and [f.write] it;
    - [WFlush]: about to [f.flush()];
    - [WDone]: about to call [self.log_queue.task_done()];
    - [WExited]: left the loop, file closed, thread finished;
    - [WCrashed]: [open] raised, thread finished with the exception. *)
Inductive wstate :=
| WOpen
| WLoop
| WGet
| WHave (entry : nat)
| WFlush
| WDone
| WExited
| WCrashed.

#[global] Instance wstate_eq_dec : EqDecision wstate.
Proof. solve_decision. Defined.

(** The calling thread: [threading.get_ident()] and
    [threading.current_thread().name]. *)
Record Thread := mkThread {
  ident : Z;
  name : string
}.

(** [pathlib.Path(s)], kept as the string it was built from. *)
Inductive PyPath := Path (s : string).

#[global] Instance PyPath_eq_dec : EqDecision PyPath.
Proof. solve_decision. Defined.

(** ** The logger object and the process *)

(** [self.current_cell] when it is a dict. *)
Record Cell := mkCell {
  cell_number : Z;
  cell_id : value;
  start_time : string
}.

(** The argument of [_pre_run_cell]: [getattr(info, 'cell_id', None)] and
    [info.raw_cell]. *)
Record CellInfo := mkCellInfo {
  info_cell_id : value;
  raw_cell : option string
}.

(** The attributes of a [ThreadSafeStructuredLogger].  [lock] is true
    while some thread holds [self.lock].  [writer_thread] is the index, in
    the threads of the process, of the thread object last assigned.
    [self.ipython] is left out: nothing reads it. *)
Record Logger := mkLogger {
  log_file : PyPath;
  include_cell_info : bool;
  capture_print : bool;
  log_queue : Queue.t;
  lock : bool;
  running : bool;
  writer_thread : option nat;
  current_cell : option Cell;
  cell_count : Z;
  original_stdout : stream;
  original_stderr : stream;
  log_handler : option handler
}.

(** The rest of the process.
    - [sys_stdout], [sys_stderr]: the current bindings of [sys.stdout]
      and [sys.stderr];
    - [root_handlers]: [logging.getLogger().handlers];
    - [tty_out], [tty_err]: what the two streams of the process received;
    - [heap], [next_id]: the dict objects and the next fresh identity;
    - [threads]: every thread started on [_log_writer], in start order;
    - [file_lines]: the text [f.write] accepted for the log file, in order;
    - [openable]: whether [open(self.log_file, 'a')] succeeds;
    - [clock], [ticks]: [clock n] is what the [n]-th call of
      [datetime.utcnow().isoformat()] returns; [ticks] calls were made. *)
Record Process := mkProcess {
  sys_stdout : stream;
  sys_stderr : stream;
  root_handlers : list handler;
  tty_out : Console;
  tty_err : Console;
  heap : gmap nat (gmap string value);
  next_id : nat;
  threads : list wstate;
  file_lines : list string;
  openable : bool;
  clock : nat -> string;
  ticks : nat
}.

Record State := mkState {
  logger : Logger;
  proc : Process
}.

(** *** Attribute assignment *)

Definition set_log_queue (q : Queue.t) (l : Logger) : Logger :=
  mkLogger (log_file l) (include_cell_info l) (capture_print l) q (lock l)
    (running l) (writer_thread l) (current_cell l) (cell_count l)
    (original_stdout l) (original_stderr l) (log_handler l).

Definition set_lock (b : bool) (l : Logger) : Logger :=
  mkLogger (log_file l) (include_cell_info l) (capture_print l) (log_queue l) b
    (running l) (writer_thread l) (current_cell l) (cell_count l)
    (original_stdout l) (original_stderr l) (log_handler l).

Definition set_running (b : bool) (l : Logger) : Logger :=
  mkLogger (log_file l) (include_cell_info l) (capture_print l) (log_queue l)
    (lock l) b (writer_thread l) (current_cell l) (cell_count l)
    (original_stdout l) (original_stderr l) (log_handler l).

Definition set_writer_thread (w : option nat) (l : Logger) : Logger :=
  mkLogger (log_file l) (include_cell_info l) (capture_print l) (log_queue l)
    (lock l) (running l) w (current_cell l) (cell_count l)
    (original_stdout l) (original_stderr l) (log_handler l).

Definition set_current_cell (c : option Cell) (l : Logger) : Logger :=
  mkLogger (log_file l) (include_cell_info l) (capture_print l) (log_queue l)
    (lock l) (running l) (writer_thread l) c (cell_count l)
    (original_stdout l) (original_stderr l) (log_handler l).

Definition set_cell_count (n : Z) (l : Logger) : Logger :=
  mkLogger (log_file l) (include_cell_info l) (capture_print l) (log_queue l)
    (lock l) (running l) (writer_thread l) (current_cell l) n
    (original_stdout l) (original_stderr l) (log_handler l).

Definition set_log_handler (h : option handler) (l : Logger) : Logger :=
  mkLogger (log_file l) (include_cell_info l) (capture_print l) (log_queue l)
    (lock l) (running l) (writer_thread l) (current_cell l) (cell_count l)
    (original_stdout l) (original_stderr l) h.

Definition set_sys_stdout (x : stream) (p : Process) : Process :=
  mkProcess x (sys_stderr p) (root_handlers p) (tty_out p) (tty_err p)
    (heap p) (next_id p) (threads p) (file_lines p) (openable p) (clock p)
    (ticks p).

Definition set_sys_stderr (x : stream) (p : Process) : Process :=
  mkProcess (sys_stdout p) x (root_handlers p) (tty_out p) (tty_err p)
    (heap p) (next_id p) (threads p) (file_lines p) (openable p) (clock p)
    (ticks p).

Definition set_root_handlers (hs : list handler) (p : Process) : Process :=
  mkProcess (sys_stdout p) (sys_stderr p) hs (tty_out p) (tty_err p)
    (heap p) (next_id p) (threads p) (file_lines p) (openable p) (clock p)
    (ticks p).

Definition set_tty_out (c : Console) (p : Process) : Process :=
  mkProcess (sys_stdout p) (sys_stderr p) (root_handlers p) c (tty_err p)
    (heap p) (next_id p) (threads p) (file_lines p) (openable p) (clock p)
    (ticks p).

Definition set_tty_err (c : Console) (p : Process) : Process :=
  mkProcess (sys_stdout p) (sys_stderr p) (root_handlers p) (tty_out p) c
    (heap p) (next_id p) (threads p) (file_lines p) (openable p) (clock p)
    (ticks p).

Definition set_heap (h : gmap nat (gmap string value)) (p : Process) : Process :=
  mkProcess (sys_stdout p) (sys_stderr p) (root_handlers p) (tty_out p)
    (tty_err p) h (next_id p) (threads p) (file_lines p) (openable p)
    (clock p) (ticks p).

Definition set_next_id (n : nat) (p : Process) : Process :=
  mkProcess (sys_stdout p) (sys_stderr p) (root_handlers p) (tty_out p)
    (tty_err p) (heap p) n (threads p) (file_lines p) (openable p) (clock p)
    (ticks p).

Definition set_threads (ts : list wstate) (p : Process) : Process :=
  mkProcess (sys_stdout p) (sys_stderr p) (root_handlers p) (tty_out p)
    (tty_err p) (heap p) (next_id p) ts (file_lines p) (openable p) (clock p)
    (ticks p).

Definition set_file_lines (ls : list string) (p : Process) : Process :=
  mkProcess (sys_stdout p) (sys_stderr p) (root_handlers p) (tty_out p)
    (tty_err p) (heap p) (next_id p) (threads p) ls (openable p) (clock p)
    (ticks p).

Definition set_ticks (n : nat) (p : Process) : Process :=
  mkProcess (sys_stdout p) (sys_stderr p) (root_handlers p) (tty_out p)
    (tty_err p) (heap p) (next_id p) (threads p) (file_lines p) (openable p)
    (clock p) n.

(** Writing to and flushing a stream of the process. *)
Definition tty_write (fd : std) (text : string) (p : Process) : Process :=
  match fd with
  | Stdout => set_tty_out (console_write text (tty_out p)) p
  | Stderr => set_tty_err (console_write text (tty_err p)) p
  end.

Definition tty_flush (fd : std) (p : Process) : Process :=
  match fd with
  | Stdout => set_tty_out (console_flush (tty_out p)) p
  | Stderr => set_tty_err (console_flush (tty_err p)) p
  end.

Definition on_logger (f : Logger -> Logger) (s : State) : State :=
  mkState (f (logger s)) (proc s).

Definition on_proc (f : Process -> Process) (s : State) : State :=
  mkState (logger s) (f (proc s)).

(** ** Computations *)

(** A method body: from a state to an outcome and the state it leaves. *)
Definition M (A : Type) : Type := State -> outcome A * State.

Definition ret {A} (a : A) : M A := fun s => (Returned a, s).

Definition raise {A} (e : exn) : M A := fun s => (Raised e, s).

Definition bind {A B} (m : M A) (k : A -> M B) : M B :=
  fun s =>
    match m s with
    | (Returned a, s') => k a s'
    | (Raised e, s') => (Raised e, s')
    end.

(** [try: m except: h] with a bare [except]: every exception is caught. *)
Definition try_except {A} (m : M A) (h : M A) : M A :=
  fun s =>
    match m s with
    | (Returned a, s') => (Returned a, s')
    | (Raised _, s') => h s'
    end.

Definition gets {A} (f : State -> A) : M A := fun s => (Returned (f s), s).

Definition modify (f : State -> State) : M unit := fun s => (Returned tt, f s).

Declare Scope py_scope.
Delimit Scope py_scope with py.
Notation "x <- m ;; k" := (bind m (fun x => k))
  (at level 100, m at next level, right associativity) : py_scope.
Notation "m ;; k" := (bind m (fun _ => k))
  (at level 100, right associativity) : py_scope.
Open Scope py_scope.

(** [datetime.utcnow().isoformat()]: the next reading of the clock. *)
Definition utcnow_isoformat : M string :=
  fun s => (Returned (clock (proc s) (ticks (proc s))),
            on_proc (fun p => set_ticks (S (ticks p)) p) s).

(** A dict display [{...}]: a new dict object holding [d]. *)
Definition new_dict (d : gmap string value) : M nat :=
  fun s => (Returned (next_id (proc s)),
            on_proc (fun p => set_next_id (S (next_id p))
                                (set_heap (<[next_id p := d]> (heap p)) p)) s).

(** [entry[key] = v] *)
Definition setitem (entry : nat) (key : string) (v : value) : M unit :=
  modify (on_proc (fun p => set_heap (alter (insert key v) entry (heap p)) p)).

(** ** The module level *)

(** The keyword arguments [**kwargs] of [get_logger] and [start_logging]:
    those the constructor knows, when given, and the names of any other. *)
Record Kwargs := mkKwargs {
  kw_buffer_size : option Z;
  kw_include_cell_info : option bool;
  kw_capture_print : option bool;
  kw_unexpected : list string
}.

(** The process as the module sees it: [os.environ], the global
    [_logger_instance] and the rest.  The singleton is the only logger of
    the process. *)
Record World := mkWorld {
  environ : gmap string string;
  _logger_instance : option Logger;
  process : Process
}.

(** The name of the environment variable. *)
Definition LIVE_LOGS_FILE_PATH : string := "LIVE_LOGS_FILE_PATH".

(** ** Instances of the library functions, for the examples *)

(** [str(Path(s))] for a path already in normal form. *)
Definition raw_path (p : PyPath) : string :=
  match p with Path s => s end.

(** [c.upper()] for an ASCII character. *)
Definition ascii_upper (a : ascii) : ascii :=
  let n := N_of_ascii a in
  if ((97 <=? n) && (n <=? 122))%N then ascii_of_N (n - 32) else a.

(** [s.upper()] for an ASCII string. *)
Fixpoint upper (s : string) : string :=
  match s with
  | EmptyString => EmptyString
  | String a s' => String (ascii_upper a) (upper s')
  end.

(** A serializer that keeps the [body] of an entry only and fails on an
    entry that has none. *)
Definition body_only (d : gmap string value) : option string :=
  match d !! "body" with
  | Some (VStr b) => Some b
  | _ => None
  end.

(** The main thread. *)
Definition main_thread : Thread := mkThread 1 "MainThread".

(** What stream [fd] of the process received. *)
Definition tty (fd : std) (p : Process) : Console :=
  match fd with
  | Stdout => tty_out p
  | Stderr => tty_err p
  end.

(** ** The class [ThreadSafeStructuredLogger] *)

Section Handler.

(** Library functions the module calls.
    - [json_dumps d] is [json.dumps(d, default=str)], [None] when it raises;
    - [path_str p] is [str(p)] for a [pathlib.Path];
    - [str_upper s] is [s.upper()]. *)
Variable json_dumps : gmap string value -> option string.
Variable path_str : PyPath -> string.
Variable str_upper : string -> string.

(** [__init__(self, log_file, buffer_size, include_cell_info,
    capture_print)]: the new object, in a process whose streams are
    [sys_stdout p] and [sys_stderr p]. *)
Definition __init__ (log_file : string) (buffer_size : Z)
    (include_cell_info capture_print : bool) (p : Process) : Logger :=
  mkLogger (Path log_file) include_cell_info capture_print
    (Queue.new buffer_size) false false None None 0
    (sys_stdout p) (sys_stderr p) None.

(** [self.log_queue.put_nowait(entry)] *)
Definition put_nowait (entry : nat) : M unit :=
  fun s =>
    match Queue.put_nowait entry (log_queue (logger s)) with
    | Returned q => (Returned tt, on_logger (set_log_queue q) s)
    | Raised e => (Raised e, s)
    end.

(** [_log(self, entry)], called by thread [t]. *)
Definition _log (t : Thread) (entry : nat) : M unit :=
  r <- gets (fun s => running (logger s)) ;;
  if negb r then ret tt
  else
    now <- utcnow_isoformat ;;
    setitem entry "timestamp" (VStr (now +:+ "Z")) ;;
    setitem entry "thread_id" (VInt (ident t)) ;;
    setitem entry "thread_name" (VStr (name t)) ;;
    ici <- gets (fun s => include_cell_info (logger s)) ;;
    cc <- gets (fun s => current_cell (logger s)) ;;
    match ici, cc with
    | true, Some cell =>
        setitem entry "cell_number" (VInt (cell_number cell)) ;;
        if truthy (cell_id cell)
        then setitem entry "cell_id" (cell_id cell)
        else ret tt
    | _, _ => ret tt
    end ;;
    try_except (put_nowait entry) (ret tt).

(** [log(self, level, message, **kwargs)], called as
    [logger.log(level, message, **kwargs)].  A keyword named like a
    parameter ([self], [level] or [message]) makes the call raise
    [TypeError] before the body runs.  In the dict display the items of
    [kwargs] come last, so they win over [severity_text] and [body]. *)
Definition log (t : Thread) (level : string) (message : value)
    (kwargs : gmap string value) : M unit :=
  match kwargs !! "self", kwargs !! "level", kwargs !! "message" with
  | None, None, None =>
      entry <- new_dict (kwargs ∪ {[ "severity_text" := VStr (str_upper level);
                                     "body" := message ]}) ;;
      _log t entry
  | _, _, _ => raise TypeError
  end.

(** [f.flush()] on whatever [f] is bound to; [PrintCapture.flush] passes
    it on to the stream it wraps. *)
Fixpoint stream_flush (f : stream) : M unit :=
  match f with
  | Real fd => modify (on_proc (tty_flush fd))
  | PrintCapture original _ => stream_flush original
  end.

(** [f.write(text)] on whatever [f] is bound to, called by thread [t].
    The second case is [PrintCapture.write]. *)
Fixpoint stream_write (t : Thread) (f : stream) (text : string) : M nat :=
  match f with
  | Real fd =>
      modify (on_proc (tty_write fd text)) ;;
      ret (String.length text)
  | PrintCapture original stream_name =>
      stream_write t original text ;;
      stream_flush original ;;
      (if str_truthy text && str_truthy (strip text) then
         now <- utcnow_isoformat ;;
         entry <- new_dict
           {[ "severity_text" :=
                VStr (if String.eqb stream_name "stderr" then "ERROR" else "INFO");
              "body" := VStr (rstrip text);
              "source" := VStr "print";
              "stream" := VStr stream_name;
              "timestamp" := VStr (now +:+ "Z") ]} ;;
         _log t entry
       else ret tt) ;;
      ret (String.length text)
  end.

(** [print(msg)]: the text, then the line end, written to [sys.stdout]. *)
Definition print (t : Thread) (msg : string) : M unit :=
  out <- gets (fun s => sys_stdout (proc s)) ;;
  stream_write t out msg ;;
  stream_write t out LF ;;
  ret tt.

(** [_setup_logging_handler(self)]: [logging.basicConfig] gives the root
    logger a stream handler when it has no handler; then a new
    [StructuredLogHandler] is stored and added to the root logger. *)
Definition _setup_logging_handler : M unit :=
  modify (on_proc (fun p =>
    match root_handlers p with
    | [] => set_root_handlers [StreamHandler] p
    | _ => p
    end)) ;;
  id <- gets (fun s => next_id (proc s)) ;;
  modify (on_proc (fun p => set_next_id (S (next_id p)) p)) ;;
  modify (on_logger (set_log_handler (Some (StructuredLogHandler id)))) ;;
  modify (on_proc (fun p =>
    if decide (StructuredLogHandler id ∈ root_handlers p) then p
    else set_root_handlers (root_handlers p ++ [StructuredLogHandler id]) p)).

(** [_setup_print_capture(self)] *)
Definition _setup_print_capture : M unit :=
  o <- gets (fun s => original_stdout (logger s)) ;;
  e <- gets (fun s => original_stderr (logger s)) ;;
  modify (on_proc (set_sys_stdout (PrintCapture o "stdout"))) ;;
  modify (on_proc (set_sys_stderr (PrintCapture e "stderr"))).

(** [threading.Thread(target=self._log_writer, daemon=True)] assigned to
    [self.writer_thread], then started. *)
Definition spawn_writer : M unit :=
  n <- gets (fun s => length (threads (proc s))) ;;
  modify (on_logger (set_writer_thread (Some n))) ;;
  modify (on_proc (fun p => set_threads (threads p ++ [WOpen]) p)).

(** [with self.lock:] takes the lock on entry and gives it back on exit.
    A thread that finds the lock taken waits; [acquire] is the entry of a
    thread that finds it free.  [step] below lets a thread enter [start]
    or [stop] only then, and whatever is stated of [start] or
    [stop_until_join] themselves is stated for a lock that is free. *)
Definition acquire : M unit := modify (on_logger (set_lock true)).
Definition release : M unit := modify (on_logger (set_lock false)).

(** [start(self)], called by thread [t]. *)
Definition start (t : Thread) : M unit :=
  acquire ;;
  r <- gets (fun s => running (logger s)) ;;
  (if r then
     print t "Logger already running"
   else
     modify (on_logger (set_running true)) ;;
     spawn_writer ;;
     _setup_logging_handler ;;
     cp <- gets (fun s => capture_print (logger s)) ;;
     (if cp then _setup_print_capture else ret tt) ;;
     now <- utcnow_isoformat ;;
     lf <- gets (fun s => log_file (logger s)) ;;
     entry <- new_dict {[ "severity_text" := VStr "INFO";
                          "body" := VStr "Notebook logger started";
                          "timestamp" := VStr (now +:+ "Z");
                          "log_file" := VStr (path_str lf) ]} ;;
     _log t entry ;;
     print t ("Structured logging started: " +:+ path_str lf)) ;;
  release.

(** [stop(self)], called by thread [t], up to [self.log_queue.join()].
    The result is [false] when [stop] returned at once (not running) and
    [true] when the thread now waits in [join], still holding the lock. *)
Definition stop_until_join (t : Thread) : M bool :=
  acquire ;;
  r <- gets (fun s => running (logger s)) ;;
  if negb r then release ;; ret false
  else
    n <- gets (fun s => cell_count (logger s)) ;;
    now <- utcnow_isoformat ;;
    entry <- new_dict {[ "severity_text" := VStr "INFO";
                         "body" := VStr "Notebook logger stopped";
                         "total_cells" := VInt n;
                         "timestamp" := VStr (now +:+ "Z") ]} ;;
    _log t entry ;;
    modify (on_logger (set_running false)) ;;
    h <- gets (fun s => log_handler (logger s)) ;;
    match h with
    | Some h =>
        modify (on_proc (fun p =>
          set_root_handlers (remove_first h (root_handlers p)) p))
    | None => ret tt
    end ;;
    cp <- gets (fun s => capture_print (logger s)) ;;
    (if cp then
       o <- gets (fun s => original_stdout (logger s)) ;;
       e <- gets (fun s => original_stderr (logger s)) ;;
       modify (on_proc (set_sys_stdout o)) ;;
       modify (on_proc (set_sys_stderr e))
     else ret tt) ;;
    ret true.

(** [stop(self)] from the return of [self.log_queue.join()] to its end. *)
Definition stop_after_join (t : Thread) : M unit :=
  print t "Structured logging stopped" ;;
  release.

(** [_pre_run_cell(self, info)], called by thread [t]. *)
Definition _pre_run_cell (t : Thread) (info : CellInfo) : M unit :=
  modify (on_logger (fun l => set_cell_count (cell_count l + 1) l)) ;;
  n <- gets (fun s => cell_count (logger s)) ;;
  st <- utcnow_isoformat ;;
  modify (on_logger (set_current_cell (Some (mkCell n (info_cell_id info) st)))) ;;
  ici <- gets (fun s => include_cell_info (logger s)) ;;
  if ici then
    now <- utcnow_isoformat ;;
    entry <- new_dict
      {[ "severity_text" := VStr "DEBUG";
         "body" := VStr ("Cell " +:+ pretty n +:+ " execution started");
         "event" := VStr "cell_start";
         "cell_preview" :=
           VStr (match raw_cell info with
                 | Some src => if str_truthy src then str_take 100 src else ""
                 | None => ""
                 end);
         "timestamp" := VStr (now +:+ "Z") ]} ;;
    _log t entry
  else ret tt.

(** *** The writer thread *)

Definition set_thread (i : nat) (w : wstate) (s : State) : State :=
  on_proc (fun p => set_threads (<[i := w]> (threads p)) p) s.

(** One step of thread [i] running [_log_writer(self)].  [io_ok] tells
    whether the file operation of this step, if it makes one ([f.write],
    [f.flush]), succeeds.  Every exception raised inside [try] is caught by
    the bare [except] and the loop goes on ([continue]); [open] is outside
    [try], so its exception ends the thread.  What [threading] then
    reports on [sys.stderr] is text written to that stream by the thread,
    an action [Write] of its own and no part of this step.  No step is
    possible for a thread that has finished. *)
Definition _log_writer (i : nat) (io_ok : bool) (s : State) : option State :=
  match threads (proc s) !! i with
  | None => None
  | Some WOpen =>
      (* with open(self.log_file, 'a') as f: *)
      if openable (proc s) then Some (set_thread i WLoop s)
      else Some (set_thread i WCrashed s)
  | Some WLoop =>
      (* while self.running or not self.log_queue.empty(): *)
      if running (logger s) || negb (Queue.empty (log_queue (logger s)))
      then Some (set_thread i WGet s)
      else Some (set_thread i WExited s)
  | Some WGet =>
      (* entry = self.log_queue.get(timeout=0.1) *)
      match Queue.get (log_queue (logger s)) with
      | Returned (entry, q) =>
          Some (set_thread i (WHave entry) (on_logger (set_log_queue q) s))
      | Raised _ => Some (set_thread i WLoop s)
      end
  | Some (WHave entry) =>
      (* line = json.dumps(entry, default=str); f.write(line + "\n") *)
      match heap (proc s) !! entry ≫= json_dumps with
      | Some line =>
          if io_ok then
            Some (set_thread i WFlush
                    (on_proc (fun p => set_file_lines
                                         (file_lines p ++ [line +:+ LF]) p) s))
          else Some (set_thread i WLoop s)
      | None => Some (set_thread i WLoop s)
      end
  | Some WFlush =>
      (* f.flush() *)
      if io_ok then Some (set_thread i WDone s)
      else Some (set_thread i WLoop s)
  | Some WDone =>
      (* self.log_queue.task_done() *)
      match Queue.task_done (log_queue (logger s)) with
      | Returned q => Some (set_thread i WLoop (on_logger (set_log_queue q) s))
      | Raised _ => Some (set_thread i WLoop s)
      end
  | Some WExited => None
  | Some WCrashed => None
  end.

(** *** Interleaving *)

(** What a thread of the process may do next.  Each action is one run of
    a method between two blocking points, taken as a whole: a call of a
    method that takes no lock ([log], [_log], a write to a stream,
    [_pre_run_cell]) is run here with no other thread in between.
    [fine_step] below takes the calls of [_log] apart. *)
Inductive action :=
| Start (t : Thread)
| StopEnter (t : Thread)
| StopLeave (t : Thread)
| Log (t : Thread) (level : string) (message : value) (kwargs : gmap string value)
| LogEntry (t : Thread) (entry : nat)
| Write (t : Thread) (fd : std) (text : string)
| PreRunCell (t : Thread) (info : CellInfo)
| Writer (i : nat) (io_ok : bool).

(** [step a s] is the state after [a], or [None] when [a] cannot happen
    in [s]: a thread enters [start] or [stop] only when the lock is free;
    the lock is held between two actions only by a thread waiting in the
    [join] of [stop], and [join] returns only when no task is unfinished;
    a finished thread does nothing. *)
Definition step (a : action) (s : State) : option State :=
  match a with
  | Start t => if lock (logger s) then None else Some (snd (start t s))
  | StopEnter t => if lock (logger s) then None else Some (snd (stop_until_join t s))
  | StopLeave t =>
      if lock (logger s) && Queue.join_ready (log_queue (logger s))
      then Some (snd (stop_after_join t s))
      else None
  | Log t level message kwargs => Some (snd (log t level message kwargs s))
  | LogEntry t entry => Some (snd (_log t entry s))
  | Write t Stdout text => Some (snd (stream_write t (sys_stdout (proc s)) text s))
  | Write t Stderr text => Some (snd (stream_write t (sys_stderr (proc s)) text s))
  | PreRunCell t info => Some (snd (_pre_run_cell t info s))
  | Writer i io_ok => _log_writer i io_ok s
  end.

(** The state after a sequence of actions, when each can happen. *)
Fixpoint run (acts : list action) (s : State) : option State :=
  match acts with
  | [] => Some s
  | a :: rest =>
      match step a s with
      | Some s' => run rest s'
      | None => None
      end
  end.

(** *** [_log] step by step *)

(** [_log] takes no lock: between its test of [self.running] and its
    [put_nowait] the other threads run.  [_log_stamp] is the part of
    [_log] from the test to the [try], and [_log_put] is the [try]
    statement. *)
Definition _log_stamp (t : Thread) (entry : nat) : M unit :=
  now <- utcnow_isoformat ;;
  setitem entry "timestamp" (VStr (now +:+ "Z")) ;;
  setitem entry "thread_id" (VInt (ident t)) ;;
  setitem entry "thread_name" (VStr (name t)) ;;
  ici <- gets (fun s => include_cell_info (logger s)) ;;
  cc <- gets (fun s => current_cell (logger s)) ;;
  match ici, cc with
  | true, Some cell =>
      setitem entry "cell_number" (VInt (cell_number cell)) ;;
      if truthy (cell_id cell)
      then setitem entry "cell_id" (cell_id cell)
      else ret tt
  | _, _ => ret tt
  end.

Definition _log_put (entry : nat) : M unit :=
  try_except (put_nowait entry) (ret tt).

(** Where a call of [_log] stands once its test of [self.running] has
    come out true: about to stamp the entry, or about to put it. *)
Inductive call :=
| Stamping (t : Thread) (entry : nat)
| Putting (entry : nat).

(** The state together with the calls of [_log] under way. *)
Record Fine := mkFine {
  base : State;
  calls : list call
}.

(** The actions of the finer interleaving: an action of [step], run as a
    whole, or one part of a call of [_log]: its test of [self.running]
    ([LogTest]), the stamps of the call at place [k] ([LogStamp]), its
    [put_nowait] ([LogPut]). *)
Inductive fine_action :=
| Coarse (a : action)
| LogTest (t : Thread) (entry : nat)
| LogStamp (k : nat)
| LogPut (k : nat).

Definition fine_step (a : fine_action) (f : Fine) : option Fine :=
  match a with
  | Coarse a =>
      match step a (base f) with
      | Some s' => Some (mkFine s' (calls f))
      | None => None
      end
  | LogTest t entry =>
      (* if not self.running: return *)
      if running (logger (base f))
      then Some (mkFine (base f) (calls f ++ [Stamping t entry]))
      else Some f
  | LogStamp k =>
      match calls f !! k with
      | Some (Stamping t entry) =>
          Some (mkFine (snd (_log_stamp t entry (base f)))
                       (<[k := Putting entry]> (calls f)))
      | _ => None
      end
  | LogPut k =>
      match calls f !! k with
      | Some (Putting entry) =>
          Some (mkFine (snd (_log_put entry (base f))) (delete k (calls f)))
      | _ => None
      end
  end.

Fixpoint fine_run (acts : list fine_action) (f : Fine) : option Fine :=
  match acts with
  | [] => Some f
  | a :: rest =>
      match fine_step a f with
      | Some f' => fine_run rest f'
      | None => None
      end
  end.

(** *** [get_logger] and [start_logging] *)

(** [ThreadSafeStructuredLogger(log_file, **kwargs)]: a keyword the
    constructor does not know raises [TypeError]; a missing one takes its
    default. *)
Definition construct (log_file : string) (kw : Kwargs) (p : Process)
    : outcome Logger :=
  match kw_unexpected kw with
  | [] =>
      Returned (__init__ log_file
                  (default 1000 (kw_buffer_size kw))
                  (default true (kw_include_cell_info kw))
                  (default false (kw_capture_print kw)) p)
  | _ :: _ => Raised TypeError
  end.

(** [get_logger(log_file, **kwargs)] *)
Definition get_logger (log_file : string) (kw : Kwargs) (w : World)
    : outcome Logger * World :=
  match _logger_instance w with
  | None =>
      match construct log_file kw (process w) with
      | Returned l => (Returned l, mkWorld (environ w) (Some l) (process w))
      | Raised e => (Raised e, w)
      end
  | Some l => (Returned l, w)
  end.

(** [print(msg)] at module level.  With a logger, [sys.stdout] may be its
    [PrintCapture]; without one no [PrintCapture] exists and what
    remains of a write is the text reaching the stream. *)
Fixpoint forward_flush (f : stream) (p : Process) : Process :=
  match f with
  | Real fd => tty_flush fd p
  | PrintCapture original _ => forward_flush original p
  end.

Fixpoint forward (f : stream) (text : string) (p : Process) : Process :=
  match f with
  | Real fd => tty_write fd text p
  | PrintCapture original _ => forward_flush original (forward original text p)
  end.

Definition module_print (t : Thread) (msg : string) (w : World) : World :=
  match _logger_instance w with
  | Some l =>
      let s := snd (print t msg (mkState l (process w))) in
      mkWorld (environ w) (Some (logger s)) (proc s)
  | None =>
      mkWorld (environ w) None
        (forward (sys_stdout (process w)) LF
           (forward (sys_stdout (process w)) msg (process w)))
  end.

(** [start_logging(log_file, **kwargs)], called by thread [t].  The
    logger it returns is the singleton.  The call [logger.start()] is that
    of a thread that finds the lock of the logger free; where another
    thread holds it, the caller waits there. *)
Definition start_logging (t : Thread) (log_file : string) (kw : Kwargs)
    (w : World) : outcome (option Logger) * World :=
  let json_file_path := default "" (environ w !! LIVE_LOGS_FILE_PATH) in
  if String.eqb json_file_path "" then
    (Returned None,
     module_print t
       "Environment variable LIVE_LOGS_FILE_PATH not set. Logging not started."
       w)
  else
    match get_logger json_file_path kw w with
    | (Raised e, w') => (Raised e, w')
    | (Returned l, w') =>
        match start t (mkState l (process w')) with
        | (Returned _, s) =>
            (Returned (Some (logger s)),
             mkWorld (environ w') (Some (logger s)) (proc s))
        | (Raised e, s) =>
            (Raised e, mkWorld (environ w') (Some (logger s)) (proc s))
        end
    end.

(** *** A process at start-up *)

(** A process that has created no dict, started no thread and written
    nothing, with the standard streams in place.  Its clock reads
    ["T0"], ["T1"], ... *)
Definition fresh_process (can_open : bool) : Process :=
  mkProcess (Real Stdout) (Real Stderr) [] (mkConsole "" "") (mkConsole "" "")
    ∅ 0%nat [] [] can_open (fun n => "T" +:+ pretty n) 0%nat.

(** A logger just constructed in such a process. *)
Definition fresh_state (log_file : string) (buffer_size : Z)
    (include_cell_info capture_print can_open : bool) : State :=
  mkState (__init__ log_file buffer_size include_cell_info capture_print
             (fresh_process can_open))
          (fresh_process can_open).

(** ** Vocabulary of the statements *)

(** A writer thread that has taken an entry off the queue and has not yet
    called [task_done] for it. *)
Definition holds_entry (w : wstate) : bool :=
  match w with
  | WHave _ | WFlush | WDone => true
  | _ => false
  end.

(** A writer thread that has finished. *)
Definition finished (w : wstate) : bool :=
  match w with
  | WExited | WCrashed => true
  | _ => false
  end.

(** The number of entries held by writer threads. *)
Definition inflight (ts : list wstate) : nat := length (filter (fun w => holds_entry w = true) ts).

(** Every entry that is queued or held by a writer counts as an
    unfinished task. *)
Definition accounted (s : State) : Prop :=
  (length (Queue.queue (log_queue (logger s))) + inflight (threads (proc s))
   <= Queue.unfinished_tasks (log_queue (logger s)))%nat.

(** [q'] is [q] after some successful [put_nowait]s. *)
Definition queue_grows (q q' : Queue.t) : Prop :=
  Queue.maxsize q' = Queue.maxsize q /\
  exists xs, Queue.queue q' = Queue.queue q ++ xs /\
             Queue.unfinished_tasks q' = (Queue.unfinished_tasks q + length xs)%nat.

(** [s'] is [s] after logging and writing to the streams only: dicts were
    created or stamped, the clock was read, text reached the streams and
    entries were queued; every other attribute is as it was. *)
Definition evolves (s s' : State) : Prop :=
  logger s' = set_log_queue (log_queue (logger s')) (logger s) /\
  proc s' = set_heap (heap (proc s'))
              (set_next_id (next_id (proc s'))
                 (set_ticks (ticks (proc s'))
                    (set_tty_out (tty_out (proc s'))
                       (set_tty_err (tty_err (proc s')) (proc s))))) /\
  queue_grows (log_queue (logger s)) (log_queue (logger s')).

(** The number of calls of [_pre_run_cell] among the actions. *)
Fixpoint cell_executions (acts : list action) : Z :=
  match acts with
  | [] => 0
  | PreRunCell _ _ :: rest => 1 + cell_executions rest
  | _ :: rest => cell_executions rest
  end.

(** The state was built by the constructor and nothing has run yet. *)
Definition constructed (s : State) : Prop :=
  (exists lf bs ici cp, logger s = __init__ lf bs ici cp (proc s)) /\
  threads (proc s) = [].

(** ** Auxiliary facts *)

Arguments _log : simpl never.
Arguments stream_write : simpl never.
Arguments stream_flush : simpl never.
Arguments print : simpl never.

Lemma queue_grows_refl q : queue_grows q q.
Proof using Type.
  split; [reflexivity|]. exists []. rewrite app_nil_r. cbn. split; [reflexivity | lia].
Qed.

Lemma queue_grows_trans q1 q2 q3 :
  queue_grows q1 q2 -> queue_grows q2 q3 -> queue_grows q1 q3.
Proof using Type.
  intros [Hm1 (xs & Hq1 & Hu1)] [Hm2 (ys & Hq2 & Hu2)].
  split; [congruence|]. exists (xs ++ ys).
  rewrite Hq2, Hq1, Hu2, Hu1, length_app, app_assoc. split; [reflexivity | lia].
Qed.

Lemma evolves_refl s : evolves s s.
Proof using Type.
  destruct s as [l p]. destruct l, p. repeat split; cbn.
  apply queue_grows_refl.
Qed.

Lemma evolves_trans s1 s2 s3 : evolves s1 s2 -> evolves s2 s3 -> evolves s1 s3.
Proof using Type.
  intros (Hl1 & Hp1 & Hq1) (Hl2 & Hp2 & Hq2).
  split; [|split].
  - rewrite Hl2, Hl1. reflexivity.
  - rewrite Hp2, Hp1. reflexivity.
  - exact (queue_grows_trans _ _ _ Hq1 Hq2).
Qed.

Lemma queue_grows_put q x :
  queue_grows q (Queue.mk (Queue.maxsize q) (Queue.queue q ++ [x])
                   (S (Queue.unfinished_tasks q))).
Proof using Type.
  split; [reflexivity|]. exists [x]. cbn. split; [reflexivity | lia].
Qed.

Ltac crush_log :=
  unfold _log, bind, gets, ret, setitem, modify, utcnow_isoformat, new_dict, try_except,
    put_nowait, Queue.put_nowait; cbn.

Lemma _log_evolves t entry s :
  exists s', _log t entry s = (Returned tt, s') /\ evolves s s'.
Proof using Type.
  destruct s as [l p]; destruct l as [? ici ? q ? r ? cc ? ? ? ?], p.
  crush_log.
  destruct r; cbn; [|eexists; split; [reflexivity | apply evolves_refl]].
  destruct ici, cc as [c|]; cbn; try destruct (truthy (cell_id c)); cbn;
    destruct (Queue.full q); cbn;
    (eexists; split; [reflexivity|]);
    (split; [reflexivity | split; [reflexivity|]]); cbn;
    first [apply queue_grows_refl | apply queue_grows_put].
Qed.

Lemma evolves_on_proc s f :
  (forall p, f p = set_heap (heap (f p))
                     (set_next_id (next_id (f p))
                        (set_ticks (ticks (f p))
                           (set_tty_out (tty_out (f p))
                              (set_tty_err (tty_err (f p)) p))))) ->
  evolves s (on_proc f s).
Proof using Type.
  intros Hf. split; [|split]; cbn.
  - destruct (logger s); reflexivity.
  - apply Hf.
  - apply queue_grows_refl.
Qed.

Lemma stream_flush_evolves f s :
  exists s', stream_flush f s = (Returned tt, s') /\ evolves s s'.
Proof using Type.
  induction f as [fd | original IH name0]; cbn.
  - eexists; split; [reflexivity|]. apply evolves_on_proc.
    intros p; destruct p, fd; reflexivity.
  - exact IH.
Qed.

Lemma stream_write_evolves t f text s :
  exists s', stream_write t f text s = (Returned (String.length text), s') /\ evolves s s'.
Proof using Type.
  revert s. induction f as [fd | original IH name0]; intros s.
  - cbn. eexists; split; [reflexivity|]. apply evolves_on_proc.
    intros p; destruct p, fd; reflexivity.
  - change (stream_write t (PrintCapture original name0) text)
      with (stream_write t original text ;;
            stream_flush original ;;
            (if str_truthy text && str_truthy (strip text) then
               now <- utcnow_isoformat ;;
               entry <- new_dict
                 {[ "severity_text" :=
                      VStr (if String.eqb name0 "stderr" then "ERROR" else "INFO");
                    "body" := VStr (rstrip text);
                    "source" := VStr "print";
                    "stream" := VStr name0;
                    "timestamp" := VStr (now +:+ "Z") ]} ;;
               _log t entry
             else ret tt) ;;
            ret (String.length text)).
    unfold bind at 1. destruct (IH s) as (s1 & -> & H1).
    unfold bind at 1. destruct (stream_flush_evolves original s1) as (s2 & -> & H2).
    unfold bind at 1.
    destruct (str_truthy text && str_truthy (strip text)).
    + unfold bind at 1. unfold utcnow_isoformat at 1.
      unfold bind at 1. unfold new_dict at 1.
      lazymatch goal with |- context [_log ?t ?e ?s] =>
        destruct (_log_evolves t e s) as (s3 & -> & H3) end.
      eexists; split; [reflexivity|].
      eapply evolves_trans; [exact H1|]. eapply evolves_trans; [exact H2|].
      eapply evolves_trans; [|exact H3].
      eapply evolves_trans; apply evolves_on_proc; intros p; destruct p; reflexivity.
    + eexists; split; [reflexivity|].
      eapply evolves_trans; [exact H1 | exact H2].
Qed.

Lemma print_evolves t msg s :
  exists s', print t msg s = (Returned tt, s') /\ evolves s s'.
Proof using Type.
  unfold print, bind, gets.
  destruct (stream_write_evolves t (sys_stdout (proc s)) msg s) as (s1 & -> & H1).
  destruct (stream_write_evolves t (sys_stdout (proc s)) LF s1) as (s2 & -> & H2).
  eexists; split; [reflexivity|]. eapply evolves_trans; eauto.
Qed.
Ltac key_differs :=
  first
    [ discriminate
    | let H := fresh in
      intros H; subst;
      repeat match goal with Hk : _ /\ _ |- _ => destruct Hk end;
      congruence ].

Ltac map_lookup :=
  repeat first
    [ rewrite lookup_insert_eq
    | rewrite lookup_singleton_eq
    | rewrite lookup_insert_ne by key_differs
    | rewrite lookup_singleton_ne by key_differs ];
  try reflexivity.

Ltac not_in_keys :=
  rewrite !not_elem_of_cons; repeat split; try discriminate; apply not_elem_of_nil.

Lemma _log_running t entry s d :
  running (logger s) = true ->
  heap (proc s) !! entry = Some d ->
  exists s' d',
    _log t entry s = (Returned tt, s') /\
    evolves s s' /\
    heap (proc s') !! entry = Some d' /\
    d' !! "timestamp" = Some (VStr (clock (proc s) (ticks (proc s)) +:+ "Z")) /\
    d' !! "thread_id" = Some (VInt (ident t)) /\
    d' !! "thread_name" = Some (VStr (name t)) /\
    (forall k, k ∉ ["timestamp"; "thread_id"; "thread_name"; "cell_number"; "cell_id"] ->
               d' !! k = d !! k) /\
    (include_cell_info (logger s) = false \/ current_cell (logger s) = None ->
     forall k, k ∉ ["timestamp"; "thread_id"; "thread_name"] -> d' !! k = d !! k) /\
    (forall l, l <> entry -> heap (proc s') !! l = heap (proc s) !! l) /\
    next_id (proc s') = next_id (proc s) /\
    ticks (proc s') = S (ticks (proc s)) /\
    tty_out (proc s') = tty_out (proc s) /\
    tty_err (proc s') = tty_err (proc s) /\
    log_queue (logger s') =
      (if Queue.full (log_queue (logger s)) then log_queue (logger s)
       else Queue.mk (Queue.maxsize (log_queue (logger s)))
                     (Queue.queue (log_queue (logger s)) ++ [entry])
                     (S (Queue.unfinished_tasks (log_queue (logger s))))).
Proof using Type.
  intros Hrun Hd.
  destruct s as [l p]; destruct l as [? ici ? q ? r ? cc ? ? ? ?], p.
  cbn in Hrun, Hd. subst r.
  crush_log.
  destruct ici, cc as [c|]; cbn; try destruct (truthy (cell_id c)); cbn;
    destruct (Queue.full q); cbn;
    (eexists; eexists; split; [reflexivity|]);
    (split; [split; [reflexivity | split; [reflexivity|]]; cbn;
             first [apply queue_grows_refl | apply queue_grows_put] |]);
    cbn [proc heap logger log_queue next_id ticks tty_out tty_err
         include_cell_info current_cell set_log_queue on_logger on_proc
         set_heap set_ticks];
    (split; [rewrite !lookup_alter_eq, Hd; reflexivity|]);
    (split; [map_lookup|]);
    (split; [map_lookup|]);
    (split; [map_lookup|]);
    (split; [intros k Hk; rewrite !not_elem_of_cons in Hk; map_lookup|]);
    (split; [intros [Hc|Hc] k Hk; try discriminate Hc;
             rewrite !not_elem_of_cons in Hk; map_lookup|]);
    (split; [intros l0 Hl0; rewrite !lookup_alter_ne by congruence; reflexivity|]);
    repeat split.
Qed.

Lemma _log_not_running t entry s :
  running (logger s) = false -> _log t entry s = (Returned tt, s).
Proof using Type.
  intros H. unfold _log, bind, gets, ret. rewrite H. reflexivity.
Qed.

Lemma evolves_logger s s' :
  evolves s s' -> logger s' = set_log_queue (log_queue (logger s')) (logger s).
Proof using Type. intros (H & _ & _); exact H. Qed.

Lemma evolves_threads s s' : evolves s s' -> threads (proc s') = threads (proc s).
Proof using Type. intros (_ & H & _); rewrite H; reflexivity. Qed.

Lemma evolves_openable s s' : evolves s s' -> openable (proc s') = openable (proc s).
Proof using Type. intros (_ & H & _); rewrite H; reflexivity. Qed.

Lemma evolves_running s s' : evolves s s' -> running (logger s') = running (logger s).
Proof using Type. intros (H & _ & _); rewrite H; reflexivity. Qed.

Lemma evolves_writer_thread s s' :
  evolves s s' -> writer_thread (logger s') = writer_thread (logger s).
Proof using Type. intros (H & _ & _); rewrite H; reflexivity. Qed.

Lemma evolves_lock s s' : evolves s s' -> lock (logger s') = lock (logger s).
Proof using Type. intros (H & _ & _); rewrite H; reflexivity. Qed.

Lemma evolves_cell_count s s' :
  evolves s s' -> cell_count (logger s') = cell_count (logger s).
Proof using Type. intros (H & _ & _); rewrite H; reflexivity. Qed.

Lemma evolves_queue s s' :
  evolves s s' -> queue_grows (log_queue (logger s)) (log_queue (logger s')).
Proof using Type. intros (_ & _ & H); exact H. Qed.

(** [start] on a running logger: the message is printed and nothing else
    happens. *)
Lemma start_running t s :
  running (logger s) = true ->
  exists s1, start t s = (Returned tt, on_logger (set_lock false) s1) /\
             evolves (on_logger (set_lock true) s) s1.
Proof using Type.
  intros Hrun. unfold start, acquire, release, bind, gets, modify. cbn.
  rewrite Hrun.
  lazymatch goal with |- context [print ?t ?m ?s] =>
    destruct (print_evolves t m s) as (s1 & -> & H1) end.
  exists s1. split; [reflexivity | exact H1].
Qed.

(** [start] on a logger that is not running. *)
Lemma start_not_running t s :
  running (logger s) = false ->
  exists s',
    start t s = (Returned tt, s') /\
    running (logger s') = true /\
    lock (logger s') = false /\
    writer_thread (logger s') = Some (length (threads (proc s))) /\
    threads (proc s') = threads (proc s) ++ [WOpen] /\
    openable (proc s') = openable (proc s) /\
    cell_count (logger s') = cell_count (logger s) /\
    queue_grows (log_queue (logger s)) (log_queue (logger s')).
Proof using Type.
  intros Hrun.
  destruct s as [l p]; destruct l as [? ? cp ? ? r ? ? ? ? ? ?], p as [? ? rh ? ? ? ? ? ? ? ? ?].
  cbn in Hrun; subst r.
  unfold start, acquire, release, spawn_writer, _setup_logging_handler,
    _setup_print_capture, bind, gets, modify, ret, utcnow_isoformat, new_dict. cbn.
  destruct cp, rh as [|h0 rh]; cbn;
    (lazymatch goal with |- context [_log ?t ?e ?s] =>
       destruct (_log_evolves t e s) as (s1 & -> & H1) end);
    (lazymatch goal with |- context [print ?t ?m ?s] =>
       destruct (print_evolves t m s) as (s2 & -> & H2) end);
    pose proof (evolves_trans _ _ _ H1 H2) as H;
    (eexists; split; [reflexivity|]); cbn;
    rewrite (evolves_running _ _ H), (evolves_writer_thread _ _ H),
      (evolves_threads _ _ H), (evolves_openable _ _ H), (evolves_cell_count _ _ H);
    cbn; repeat split; try (repeat case_decide; reflexivity);
    apply (evolves_queue _ _ H).
Qed.

(** [stop] on a logger that is not running returns at once. *)
Lemma stop_not_running t s :
  running (logger s) = false ->
  stop_until_join t s = (Returned false, on_logger (set_lock false) s).
Proof using Type.
  intros Hrun. unfold stop_until_join, acquire, release, bind, gets, modify, ret. cbn.
  rewrite Hrun. cbn. destruct s as [l p]; destruct l; reflexivity.
Qed.

(** [stop] on a running logger, up to [join]. *)
Lemma stop_running t s :
  running (logger s) = true ->
  exists s' d,
    stop_until_join t s = (Returned true, s') /\
    running (logger s') = false /\
    lock (logger s') = true /\
    threads (proc s') = threads (proc s) /\
    cell_count (logger s') = cell_count (logger s) /\
    queue_grows (log_queue (logger s)) (log_queue (logger s')) /\
    heap (proc s') !! next_id (proc s) = Some d /\
    d !! "body" = Some (VStr "Notebook logger stopped") /\
    d !! "severity_text" = Some (VStr "INFO") /\
    d !! "total_cells" = Some (VInt (cell_count (logger s))) /\
    log_queue (logger s') =
      (if Queue.full (log_queue (logger s)) then log_queue (logger s)
       else Queue.mk (Queue.maxsize (log_queue (logger s)))
                     (Queue.queue (log_queue (logger s)) ++ [next_id (proc s)])
                     (S (Queue.unfinished_tasks (log_queue (logger s))))).
Proof using Type.
  intros Hrun.
  destruct s as [l p]; destruct l as [? ? cp ? ? r ? ? ? ? ? lh], p.
  cbn in Hrun; subst r.
  unfold stop_until_join, acquire, release, bind, gets, modify, ret,
    utcnow_isoformat, new_dict. cbn.
  lazymatch goal with |- context [_log ?t ?e ?s] =>
    edestruct (_log_running t e s) as
      (s1 & d & HE & H1 & Hd & _ & _ & _ & Hk & _ & _ & _ & _ & _ & _ & Hq);
      [reflexivity | cbn; apply lookup_insert_eq |] end.
  rewrite HE; clear HE.
  cbn in Hd, Hq.
  assert (Hbody : d !! "body" = Some (VStr "Notebook logger stopped")).
  { rewrite Hk; [map_lookup | not_in_keys]. }
  assert (Hsev : d !! "severity_text" = Some (VStr "INFO")).
  { rewrite Hk; [map_lookup | not_in_keys]. }
  assert (Htot : d !! "total_cells" = Some (VInt cell_count0)).
  { rewrite Hk; [map_lookup | not_in_keys]. }
  pose proof (evolves_logger _ _ H1) as Hl1.
  pose proof (evolves_threads _ _ H1) as Ht.
  pose proof (evolves_queue _ _ H1) as Hg.
  destruct s1 as [l1 p1]. cbn in Hl1, Ht, Hg, Hd, Hq |- *.
  set (q1 := log_queue l1) in *. clearbody q1. subst l1. cbn.
  destruct lh as [h|]; cbn; destruct cp; cbn;
    (eexists; exists d; split; [reflexivity|]); cbn;
    repeat split; try assumption; apply Hg.
Qed.

(** *** The accounting invariant *)

Lemma inflight_app ts us : inflight (ts ++ us) = (inflight ts + inflight us)%nat.
Proof using Type. unfold inflight. rewrite filter_app, length_app. reflexivity. Qed.

Lemma inflight_cons x ts :
  inflight (x :: ts) = ((if holds_entry x then 1 else 0) + inflight ts)%nat.
Proof using Type.
  unfold inflight. rewrite filter_cons.
  destruct (decide (holds_entry x = true)) as [H|H].
  - rewrite H. reflexivity.
  - apply not_true_is_false in H. rewrite H. reflexivity.
Qed.

Lemma inflight_insert ts i w w' :
  ts !! i = Some w ->
  (inflight (<[i := w']> ts) + (if holds_entry w then 1 else 0)
   = inflight ts + (if holds_entry w' then 1 else 0))%nat.
Proof using Type.
  revert i. induction ts as [|x ts IH]; intros i Hi; [discriminate|].
  destruct i as [|i].
  - injection Hi as ->.
    change (<[0%nat := w']> (w :: ts)) with (w' :: ts).
    rewrite !inflight_cons. lia.
  - change (<[S i := w']> (x :: ts)) with (x :: <[i := w']> ts).
    rewrite !inflight_cons. specialize (IH i Hi). lia.
Qed.

Lemma accounted_advance s s' :
  queue_grows (log_queue (logger s)) (log_queue (logger s')) ->
  inflight (threads (proc s')) = inflight (threads (proc s)) ->
  accounted s -> accounted s'.
Proof using Type.
  intros [_ (xs & Hq & Hu)] Ht. unfold accounted.
  rewrite Hq, Hu, Ht, length_app. lia.
Qed.

Lemma accounted_evolves s s' : evolves s s' -> accounted s -> accounted s'.
Proof using Type.
  intros H. apply accounted_advance.
  - apply (evolves_queue _ _ H).
  - rewrite (evolves_threads _ _ H). reflexivity.
Qed.

Lemma accounted_writer i io s s' :
  _log_writer i io s = Some s' -> accounted s -> accounted s'.
Proof using Type.
  unfold _log_writer, accounted.
  destruct (threads (proc s) !! i) as [w|] eqn:Hw; [|discriminate].
  intros Hstep Hacc.
  assert (Hins : forall w', (inflight (<[i := w']> (threads (proc s)))
                  + (if holds_entry w then 1 else 0)
                  = inflight (threads (proc s)) + (if holds_entry w' then 1 else 0))%nat)
    by (intros w'; apply inflight_insert; exact Hw).
  assert (Hgo : forall w' q,
            (length (Queue.queue q) + (if holds_entry w' then 1 else 0)
             + inflight (threads (proc s))
             <= Queue.unfinished_tasks q + (if holds_entry w then 1 else 0))%nat ->
            (length (Queue.queue (log_queue (logger
               (set_thread i w' (on_logger (set_log_queue q) s)))))
             + inflight (threads (proc
               (set_thread i w' (on_logger (set_log_queue q) s))))
             <= Queue.unfinished_tasks (log_queue (logger
               (set_thread i w' (on_logger (set_log_queue q) s)))))%nat).
  { intros w' q Hle. specialize (Hins w').
    cbn [set_thread on_proc on_logger logger proc threads set_threads
         log_queue set_log_queue].
    lia. }
  assert (Hsame : forall w', set_thread i w' (on_logger (set_log_queue (log_queue (logger s))) s)
                             = set_thread i w' s).
  { intros w'. destruct s as [l p]; destruct l; reflexivity. }
  assert (Hgo' : forall w',
            (length (Queue.queue (log_queue (logger s))) + (if holds_entry w' then 1 else 0)
             + inflight (threads (proc s))
             <= Queue.unfinished_tasks (log_queue (logger s))
                + (if holds_entry w then 1 else 0))%nat ->
            (length (Queue.queue (log_queue (logger (set_thread i w' s))))
             + inflight (threads (proc (set_thread i w' s)))
             <= Queue.unfinished_tasks (log_queue (logger (set_thread i w' s))))%nat).
  { intros w' Hle. rewrite <- Hsame. apply Hgo. exact Hle. }
  clear Hins Hsame.
  destruct w; cbn [holds_entry] in Hgo, Hgo'.
  - destruct (openable (proc s)); injection Hstep as <-; apply Hgo'; cbn [holds_entry]; lia.
  - destruct (running (logger s) || negb (Queue.empty (log_queue (logger s))));
      injection Hstep as <-; apply Hgo'; cbn [holds_entry]; lia.
  - unfold Queue.get in Hstep.
    destruct (Queue.queue (log_queue (logger s))) as [|x rest] eqn:Hq;
      injection Hstep as <-.
    + apply Hgo'. cbn [holds_entry length]. cbn [length] in Hacc. lia.
    + apply Hgo. cbn [holds_entry Queue.queue Queue.unfinished_tasks].
      cbn [length] in Hacc. lia.
  - destruct (heap (proc s) !! entry ≫= json_dumps); [destruct io|];
      injection Hstep as <-.
    + assert (Hfile : forall f, set_thread i WFlush (on_proc (fun p => set_file_lines (f p) p) s)
                       = on_proc (fun p => set_file_lines (f (proc s)) p) (set_thread i WFlush s)).
      { intros f. destruct s as [l p]; reflexivity. }
      rewrite Hfile.
      specialize (Hgo' WFlush). cbn [holds_entry] in Hgo'.
      destruct (set_thread i WFlush s) as [l1 p1] eqn:Hs1.
      cbn [on_proc logger proc threads set_file_lines] in *.
      destruct p1; cbn [threads] in *. apply Hgo'. lia.
    + apply Hgo'. cbn [holds_entry]. lia.
    + apply Hgo'. cbn [holds_entry]. lia.
  - destruct io; injection Hstep as <-; apply Hgo'; cbn [holds_entry]; lia.
  - unfold Queue.task_done in Hstep.
    destruct (Queue.unfinished_tasks (log_queue (logger s))) eqn:Hu;
      injection Hstep as <-.
    + apply Hgo'. cbn [holds_entry]. lia.
    + apply Hgo. cbn [holds_entry Queue.queue Queue.unfinished_tasks]. lia.
  - discriminate.
  - discriminate.
Qed.

Lemma log_accepted t level message kwargs :
  kwargs !! "self" = None ->
  kwargs !! "level" = None ->
  kwargs !! "message" = None ->
  log t level message kwargs
  = (entry <- new_dict (kwargs ∪ {[ "severity_text" := VStr (str_upper level);
                                    "body" := message ]}) ;;
     _log t entry).
Proof using Type.
  intros H1 H2 H3. unfold log. rewrite H1, H2, H3. reflexivity.
Qed.

Lemma log_evolves t level message kwargs s :
  exists o s', log t level message kwargs s = (o, s') /\ evolves s s'.
Proof using Type.
  unfold log.
  destruct (kwargs !! "self"), (kwargs !! "level"), (kwargs !! "message");
    try (exists (Raised TypeError), s; split; [reflexivity | apply evolves_refl]).
  unfold bind, new_dict.
  lazymatch goal with |- context [_log ?t ?e ?s] =>
    destruct (_log_evolves t e s) as (s1 & -> & H1) end.
  eexists _, _; split; [reflexivity|].
  eapply evolves_trans; [|exact H1].
  apply evolves_on_proc. intros p; destruct p; reflexivity.
Qed.

Lemma _pre_run_cell_counts t info s :
  exists s',
    _pre_run_cell t info s = (Returned tt, s') /\
    cell_count (logger s') = cell_count (logger s) + 1 /\
    running (logger s') = running (logger s) /\
    lock (logger s') = lock (logger s) /\
    threads (proc s') = threads (proc s) /\
    queue_grows (log_queue (logger s)) (log_queue (logger s')).
Proof using Type.
  destruct s as [l p]; destruct l as [? ici ? ? ? ? ? ? ? ? ? ?], p.
  unfold _pre_run_cell, bind, gets, modify, ret, utcnow_isoformat, new_dict. cbn.
  destruct ici; cbn.
  - lazymatch goal with |- context [_log ?t ?e ?s] =>
      destruct (_log_evolves t e s) as (s1 & -> & H1) end.
    eexists; split; [reflexivity|].
    rewrite (evolves_cell_count _ _ H1), (evolves_running _ _ H1),
      (evolves_lock _ _ H1), (evolves_threads _ _ H1). cbn.
    split_and!; try reflexivity. apply (evolves_queue _ _ H1).
  - eexists; split; [reflexivity|]. cbn.
    split_and!; try reflexivity. apply queue_grows_refl.
Qed.

(** Every action keeps the accounting. *)
Lemma accounted_step a s s' : step a s = Some s' -> accounted s -> accounted s'.
Proof using Type.
  destruct a as [t|t|t|t lv m kw|t e|t fd text|t info|i io]; cbn [step].
  - destruct (lock (logger s)); [discriminate|]. intros [= <-].
    destruct (running (logger s)) eqn:Hrun.
    + destruct (start_running t s Hrun) as (s1 & -> & H1). cbn.
      apply accounted_advance; cbn.
      * apply (evolves_queue _ _ H1).
      * rewrite (evolves_threads _ _ H1). reflexivity.
    + destruct (start_not_running t s Hrun) as (s1 & -> & _ & _ & _ & Ht & _ & _ & Hq). cbn.
      apply accounted_advance; [exact Hq|].
      rewrite Ht, inflight_app. change (inflight [WOpen]) with 0%nat. lia.
  - destruct (lock (logger s)); [discriminate|]. intros [= <-].
    destruct (running (logger s)) eqn:Hrun.
    + destruct (stop_running t s Hrun) as (s1 & d & -> & _ & _ & Ht & _ & Hq & _). cbn.
      apply accounted_advance; [exact Hq | rewrite Ht; reflexivity].
    + rewrite (stop_not_running t s Hrun). cbn.
      apply accounted_advance; cbn; [apply queue_grows_refl | reflexivity].
  - destruct (lock (logger s) && Queue.join_ready (log_queue (logger s))); [|discriminate].
    intros [= <-]. unfold stop_after_join, release, bind, modify.
    destruct (print_evolves t "Structured logging stopped" s) as (s1 & -> & H1). cbn.
    apply accounted_advance; cbn.
    + apply (evolves_queue _ _ H1).
    + rewrite (evolves_threads _ _ H1). reflexivity.
  - intros [= <-]. destruct (log_evolves t lv m kw s) as (o & s1 & -> & H1).
    apply (accounted_evolves _ _ H1).
  - intros [= <-]. destruct (_log_evolves t e s) as (s1 & -> & H1).
    apply (accounted_evolves _ _ H1).
  - destruct fd; intros [= <-].
    + destruct (stream_write_evolves t (sys_stdout (proc s)) text s) as (s1 & -> & H1).
      apply (accounted_evolves _ _ H1).
    + destruct (stream_write_evolves t (sys_stderr (proc s)) text s) as (s1 & -> & H1).
      apply (accounted_evolves _ _ H1).
  - intros [= <-].
    destruct (_pre_run_cell_counts t info s) as (s1 & -> & _ & _ & _ & Ht & Hq). cbn.
    apply accounted_advance; [exact Hq | rewrite Ht; reflexivity].
  - apply accounted_writer.
Qed.

Lemma accounted_run acts s s' : run acts s = Some s' -> accounted s -> accounted s'.
Proof using Type.
  revert s. induction acts as [|a acts IH]; intros s; cbn.
  - intros [= <-]. auto.
  - destruct (step a s) as [s1|] eqn:Hs; [|discriminate].
    intros Hr Hacc. apply (IH s1 Hr). apply (accounted_step a s s1 Hs Hacc).
Qed.

Lemma accounted_constructed s : constructed s -> accounted s.
Proof using Type.
  intros [(lf & bs & ici & cp & Hl) Ht]. unfold accounted.
  rewrite Hl, Ht. cbn. lia.
Qed.

Lemma inflight_zero ts :
  inflight ts = 0%nat -> forall i w, ts !! i = Some w -> holds_entry w = false.
Proof using Type.
  intros H i w Hi. destruct (holds_entry w) eqn:Hw; [|reflexivity].
  exfalso. unfold inflight in H. apply length_zero_iff_nil in H.
  apply list_elem_of_lookup_2 in Hi.
  assert (Hin : w ∈ filter (fun w => holds_entry w = true) ts)
    by (apply list_elem_of_filter; split; assumption).
  rewrite H in Hin. inversion Hin.
Qed.


(** ** The claims *)


(** C2, as amended: when the log file cannot be opened, [start()] on a
    stopped logger whose lock is free still returns normally, with the
    logger marked running and a writer thread created.  The failure
    happens in that thread, not in [start()]: whenever the thread comes to
    its first step, [open], with the file still not to be opened, [open]
    raises there and the thread ends.  Nothing of this is raised to the
    caller of [start()]. *)
Theorem start_returns_although_open_fails t s :
  running (logger s) = false ->
  lock (logger s) = false ->
  openable (proc s) = false ->
  exists s' i,
    step (Start t) s = Some s' /\
    start t s = (Returned tt, s') /\
    running (logger s') = true /\
    writer_thread (logger s') = Some i /\
    threads (proc s') !! i = Some WOpen /\
    openable (proc s') = false /\
    forall s1 io,
      threads (proc s1) !! i = Some WOpen ->
      openable (proc s1) = false ->
      exists s2,
        _log_writer i io s1 = Some s2 /\
        threads (proc s2) !! i = Some WCrashed.
Proof using Type.
  intros Hrun Hlock Hopen.
  destruct (start_not_running t s Hrun)
    as (s' & Hs & Hr & _ & Hw & Ht & Ho & _).
  exists s', (length (threads (proc s))).
  assert (Hi : threads (proc s') !! length (threads (proc s)) = Some WOpen).
  { rewrite Ht. apply list_lookup_middle. reflexivity. }
  split; [cbn [step]; rewrite Hlock, Hs; reflexivity|].
  split; [exact Hs|]. split; [exact Hr|]. split; [exact Hw|]. split; [exact Hi|].
  split; [rewrite Ho; exact Hopen|].
  intros s1 io Hi1 Ho1.
  exists (set_thread (length (threads (proc s))) WCrashed s1). split.
  - unfold _log_writer. rewrite Hi1, Ho1. reflexivity.
  - cbn. apply list_lookup_insert_eq. exact (lookup_lt_Some _ _ _ Hi1).
Qed.

Lemma stream_flush_logger f s : logger (snd (stream_flush f s)) = logger s.
Proof using Type.
  induction f as [fd | original IH name0]; [reflexivity | exact IH].
Qed.

(** While the logger is not running, writing to a stream queues nothing. *)
Lemma stream_write_stopped t f text s :
  running (logger s) = false ->
  exists s', stream_write t f text s = (Returned (String.length text), s') /\
             logger s' = logger s.
Proof using Type.
  revert s. induction f as [fd | original IH name0]; intros s Hrun.
  - cbn. eexists; split; reflexivity.
  - change (stream_write t (PrintCapture original name0) text)
      with (stream_write t original text ;;
            stream_flush original ;;
            (if str_truthy text && str_truthy (strip text) then
               now <- utcnow_isoformat ;;
               entry <- new_dict
                 {[ "severity_text" :=
                      VStr (if String.eqb name0 "stderr" then "ERROR" else "INFO");
                    "body" := VStr (rstrip text);
                    "source" := VStr "print";
                    "stream" := VStr name0;
                    "timestamp" := VStr (now +:+ "Z") ]} ;;
               _log t entry
             else ret tt) ;;
            ret (String.length text)).
    unfold bind at 1. destruct (IH s Hrun) as (s1 & -> & Hl1).
    unfold bind at 1.
    pose proof (stream_flush_logger original s1) as Hl2.
    destruct (stream_flush_evolves original s1) as (s2 & Hf & _).
    rewrite Hf in Hl2 |- *. cbn in Hl2.
    unfold bind at 1.
    destruct (str_truthy text && str_truthy (strip text)).
    + unfold bind at 1. unfold utcnow_isoformat at 1.
      unfold bind at 1. unfold new_dict at 1.
      rewrite _log_not_running by (cbn; congruence).
      eexists; split; [reflexivity|]. cbn. congruence.
    + eexists; split; [reflexivity|]. congruence.
Qed.

Lemma print_stopped t msg s :
  running (logger s) = false ->
  exists s', print t msg s = (Returned tt, s') /\ logger s' = logger s.
Proof using Type.
  intros Hrun. unfold print, bind, gets.
  destruct (stream_write_stopped t (sys_stdout (proc s)) msg s Hrun) as (s1 & -> & H1).
  destruct (stream_write_stopped t (sys_stdout (proc s)) LF s1) as (s2 & -> & H2);
    [congruence|].
  eexists; split; [reflexivity|]. congruence.
Qed.

(** The lock is held between two actions only by a thread waiting in the
    [join] of [stop], after it has cleared [running]. *)
Lemma stopping_step a s s' :
  step a s = Some s' ->
  (lock (logger s) = true -> running (logger s) = false) ->
  (lock (logger s') = true -> running (logger s') = false).
Proof using Type.
  destruct a as [t|t|t|t lv m kw|t e|t fd text|t info|i io]; cbn [step].
  - destruct (lock (logger s)) eqn:Hl; [discriminate|]. intros [= <-] _.
    destruct (running (logger s)) eqn:Hrun.
    + destruct (start_running t s Hrun) as (s1 & -> & H1). cbn. discriminate.
    + destruct (start_not_running t s Hrun) as (s1 & -> & _ & Hlk & _). cbn. congruence.
  - destruct (lock (logger s)) eqn:Hl; [discriminate|]. intros [= <-] _.
    destruct (running (logger s)) eqn:Hrun.
    + destruct (stop_running t s Hrun) as (s1 & d & -> & Hr & _). cbn. auto.
    + rewrite (stop_not_running t s Hrun). cbn. discriminate.
  - destruct (lock (logger s) && Queue.join_ready (log_queue (logger s))); [|discriminate].
    intros [= <-] _. unfold stop_after_join, release, bind, modify.
    destruct (print_evolves t "Structured logging stopped" s) as (s1 & -> & H1). cbn.
    discriminate.
  - intros [= <-]. destruct (log_evolves t lv m kw s) as (o & s1 & -> & H1). cbn.
    rewrite (evolves_lock _ _ H1), (evolves_running _ _ H1). auto.
  - intros [= <-]. destruct (_log_evolves t e s) as (s1 & -> & H1). cbn.
    rewrite (evolves_lock _ _ H1), (evolves_running _ _ H1). auto.
  - destruct fd; intros [= <-].
    + destruct (stream_write_evolves t (sys_stdout (proc s)) text s) as (s1 & -> & H1). cbn.
      rewrite (evolves_lock _ _ H1), (evolves_running _ _ H1). auto.
    + destruct (stream_write_evolves t (sys_stderr (proc s)) text s) as (s1 & -> & H1). cbn.
      rewrite (evolves_lock _ _ H1), (evolves_running _ _ H1). auto.
  - intros [= <-].
    destruct (_pre_run_cell_counts t info s) as (s1 & -> & _ & Hr & Hl & _). cbn.
    rewrite Hr, Hl. auto.
  - unfold _log_writer.
    destruct (threads (proc s) !! i) as [w|]; [|discriminate].
    destruct w; cbn;
      repeat match goal with
             | |- context [if ?b then _ else _] => destruct b
             | |- context [match ?x with _ => _ end] => destruct x
             end; try discriminate; intros [= <-]; cbn; auto.
Qed.

Lemma stopping_run acts s s' :
  run acts s = Some s' ->
  (lock (logger s) = true -> running (logger s) = false) ->
  (lock (logger s') = true -> running (logger s') = false).
Proof using Type.
  revert s. induction acts as [|a acts IH]; intros s; cbn.
  - intros [= <-]. auto.
  - destruct (step a s) as [s1|] eqn:Hs; [|discriminate].
    intros Hr Hinv. apply (IH s1 Hr). apply (stopping_step a s s1 Hs Hinv).
Qed.

(** [_log] is its test followed by its two parts. *)
Lemma _log_in_parts t entry s :
  _log t entry s
  = (if running (logger s) then (_log_stamp t entry ;; _log_put entry) s
     else (Returned tt, s)).
Proof using Type.
  destruct s as [l p]; destruct l as [? ici ? q ? r ? cc ? ? ? ?], p.
  unfold _log, _log_stamp, _log_put, bind, gets, ret, setitem, modify,
    utcnow_isoformat, try_except, put_nowait, Queue.put_nowait. cbn.
  destruct r; cbn; [|reflexivity].
  destruct ici, cc as [c|]; cbn; try destruct (truthy (cell_id c)); cbn;
    destruct (Queue.full q); reflexivity.
Qed.

Lemma _log_stamp_evolves t entry s :
  exists s', _log_stamp t entry s = (Returned tt, s') /\
             evolves s s' /\
             log_queue (logger s') = log_queue (logger s).
Proof using Type.
  destruct s as [l p]; destruct l as [? ici ? q ? r ? cc ? ? ? ?], p.
  unfold _log_stamp, bind, gets, ret, setitem, modify, utcnow_isoformat. cbn.
  destruct ici, cc as [c|]; cbn; try destruct (truthy (cell_id c)); cbn;
    (eexists; split; [reflexivity|]);
    (split; [|reflexivity]);
    (split; [reflexivity|]); (split; [reflexivity|]); apply queue_grows_refl.
Qed.

Lemma _log_put_evolves entry s :
  exists s', _log_put entry s = (Returned tt, s') /\ evolves s s'.
Proof using Type.
  destruct s as [l p]; destruct l as [? ? ? q ? ? ? ? ? ? ? ?], p.
  unfold _log_put, try_except, put_nowait, Queue.put_nowait, ret. cbn.
  destruct (Queue.full q); cbn; (eexists; split; [reflexivity|]).
  - apply evolves_refl.
  - split; [reflexivity|]. split; [reflexivity|]. apply queue_grows_put.
Qed.

Lemma _log_put_empty entry s :
  Queue.queue (log_queue (logger s)) = [] ->
  Queue.queue (log_queue (logger (snd (_log_put entry s)))) = [entry] /\
  Queue.unfinished_tasks (log_queue (logger (snd (_log_put entry s))))
    = S (Queue.unfinished_tasks (log_queue (logger s))) /\
  running (logger (snd (_log_put entry s))) = running (logger s) /\
  lock (logger (snd (_log_put entry s))) = lock (logger s).
Proof using Type.
  destruct s as [l p]; destruct l as [? ? ? q ? ? ? ? ? ? ? ?], p.
  destruct q as [m qs u]. cbn. intros ->.
  unfold _log_put, try_except, put_nowait, Queue.put_nowait, Queue.full, ret. cbn.
  destruct (0 <? m) eqn:Hm; cbn; [|repeat split; reflexivity].
  destruct (m <=? Z.of_nat 0) eqn:Hle; cbn; [|repeat split; reflexivity].
  apply Z.ltb_lt in Hm. apply Z.leb_le in Hle. lia.
Qed.

(** Over the finer interleaving too, every entry queued or held counts as
    unfinished, and the lock is held only while the logger does not run. *)
Lemma fine_step_keeps a f f' :
  fine_step a f = Some f' ->
  accounted (base f) /\ (lock (logger (base f)) = true -> running (logger (base f)) = false) ->
  accounted (base f') /\ (lock (logger (base f')) = true -> running (logger (base f')) = false).
Proof using Type.
  intros Hstep [Hacc Hlock].
  assert (Hev : forall s', evolves (base f) s' ->
            accounted s' /\ (lock (logger s') = true -> running (logger s') = false)).
  { intros s' He. split; [exact (accounted_evolves _ _ He Hacc)|].
    rewrite (evolves_lock _ _ He), (evolves_running _ _ He). exact Hlock. }
  destruct a as [a|t entry|k|k]; cbn [fine_step] in Hstep.
  - destruct (step a (base f)) as [s'|] eqn:Hs; [|discriminate].
    injection Hstep as <-. cbn [base].
    split; [exact (accounted_step _ _ _ Hs Hacc) | exact (stopping_step _ _ _ Hs Hlock)].
  - revert Hstep. case (running (logger (base f))); intros [= <-]; cbn [base];
      split; assumption.
  - destruct (calls f !! k) as [[t entry|entry]|]; try discriminate.
    injection Hstep as <-. cbn [base].
    destruct (_log_stamp_evolves t entry (base f)) as (s' & -> & He & _).
    apply Hev. exact He.
  - destruct (calls f !! k) as [[t entry|entry]|]; try discriminate.
    injection Hstep as <-. cbn [base].
    destruct (_log_put_evolves entry (base f)) as (s' & -> & He).
    apply Hev. exact He.
Qed.

Lemma fine_run_keeps acts f f' :
  fine_run acts f = Some f' ->
  accounted (base f) /\ (lock (logger (base f)) = true -> running (logger (base f)) = false) ->
  accounted (base f') /\ (lock (logger (base f')) = true -> running (logger (base f')) = false).
Proof using Type.
  revert f. induction acts as [|a acts IH]; intros f; cbn [fine_run].
  - intros [= <-]. auto.
  - destruct (fine_step a f) as [f1|] eqn:Hs; [|discriminate].
    intros Hr H. apply (IH f1 Hr). exact (fine_step_keeps _ _ _ Hs H).
Qed.

(** C3, as amended: from a logger just constructed, whatever the threads
    of the process do, with every call of [_log] taken apart into its
    test of [self.running], its stamps and its [put_nowait], a call of
    [stop()] returns only after [join()] has found no task unfinished.
    At that moment the queue is empty and no entry is held by a writer
    thread; [stop()] then returns with the lock free and the logger not
    running, having queued nothing more itself.  The writer thread may
    still be alive, and the calls of [_log] that had passed their test
    are still under way: their records can reach the queue after
    [join()] has returned. *)
Theorem stop_returns_when_queue_done acts t s0 f f' :
  constructed s0 ->
  fine_run acts (mkFine s0 []) = Some f ->
  fine_step (Coarse (StopLeave t)) f = Some f' ->
  Queue.queue (log_queue (logger (base f))) = [] /\
  Queue.unfinished_tasks (log_queue (logger (base f))) = 0%nat /\
  (forall i w, threads (proc (base f)) !! i = Some w -> holds_entry w = false) /\
  log_queue (logger (base f')) = log_queue (logger (base f)) /\
  threads (proc (base f')) = threads (proc (base f)) /\
  calls f' = calls f /\
  running (logger (base f')) = false /\
  lock (logger (base f')) = false /\
  forall k entry,
    calls f !! k = Some (Putting entry) ->
    exists f'',
      fine_step (LogPut k) f' = Some f'' /\
      Queue.queue (log_queue (logger (base f''))) = [entry] /\
      Queue.unfinished_tasks (log_queue (logger (base f''))) = 1%nat /\
      running (logger (base f'')) = false /\
      lock (logger (base f'')) = false.
Proof using Type.
  intros Hc Hrun Hstep.
  destruct (fine_run_keeps _ _ _ Hrun) as [Hacc Hstopping].
  { split; [exact (accounted_constructed _ Hc)|].
    destruct Hc as [(lf & bs & ici & cp & Hl) _]. cbn [base]. rewrite Hl. discriminate. }
  cbn [fine_step step] in Hstep.
  destruct (lock (logger (base f))) eqn:Hlock; [|discriminate]. cbn [andb] in Hstep.
  unfold Queue.join_ready in Hstep.
  destruct (Queue.unfinished_tasks (log_queue (logger (base f)))) eqn:Hu; [|discriminate].
  injection Hstep as <-. cbn [base calls].
  unfold stop_after_join, release, bind, modify.
  pose proof (Hstopping eq_refl) as Hr.
  destruct (print_stopped t "Structured logging stopped" (base f) Hr) as (s1 & Hp & Hl1).
  destruct (print_evolves t "Structured logging stopped" (base f)) as (s1' & Hp' & He).
  rewrite Hp in Hp'. injection Hp' as <-. rewrite Hp. cbn.
  rewrite Hl1, (evolves_threads _ _ He).
  unfold accounted in Hacc. rewrite Hu in Hacc.
  assert (Hq : Queue.queue (log_queue (logger (base f))) = []).
  { destruct (Queue.queue (log_queue (logger (base f)))); [reflexivity | cbn in Hacc; lia]. }
  split_and!; try reflexivity.
  - exact Hq.
  - apply inflight_zero. lia.
  - exact Hr.
  - intros k entry Hk. cbn [fine_step calls base]. rewrite Hk.
    eexists. split; [reflexivity|]. cbn [base].
    destruct (_log_put_empty entry (on_logger (set_lock false) s1))
      as (P1 & P2 & P3 & P4).
    { cbn [on_logger logger]. rewrite Hl1.
      destruct (base f) as [l p]; destruct l. exact Hq. }
    rewrite P1, P2, P3, P4. cbn [on_logger logger]. rewrite Hl1.
    destruct (base f) as [l p]; destruct l. cbn in Hu, Hr |- *. rewrite Hu, Hr.
    repeat split.
Qed.

(** What [_log] adds to an entry while a cell is current. *)
Lemma _log_cell_context t entry s c d :
  running (logger s) = true ->
  include_cell_info (logger s) = true ->
  current_cell (logger s) = Some c ->
  heap (proc s) !! entry = Some d ->
  exists d',
    heap (proc (snd (_log t entry s))) !! entry = Some d' /\
    d' !! "cell_number" = Some (VInt (cell_number c)) /\
    d' !! "cell_id" = (if truthy (cell_id c) then Some (cell_id c) else d !! "cell_id").
Proof using Type.
  intros Hrun Hici Hcc Hd.
  destruct s as [l p]; destruct l as [? ici ? q ? r ? cc ? ? ? ?], p.
  cbn in Hrun, Hici, Hcc, Hd; subst r ici cc.
  unfold _log, bind, gets, ret, setitem, modify, utcnow_isoformat, try_except,
    put_nowait, Queue.put_nowait. cbn.
  destruct (truthy (cell_id c)); cbn; destruct (Queue.full q); cbn;
    rewrite !lookup_alter_eq, Hd; cbn; (eexists; split; [reflexivity|]);
    split; map_lookup.
Qed.

(** C4, as amended: for every mapping handed to [_log] while the logger
    is running, the record has [timestamp], [thread_id] and [thread_name],
    stamped from the clock and the calling thread whatever the caller put
    under those keys.  Every other key keeps what the caller supplied,
    with one exception, the cell keys while a cell is current and
    [include_cell_info] is set: then [cell_number] becomes the number of
    the cell, and [cell_id] becomes the id of the cell when that id is
    true; an id that is false leaves the caller's [cell_id] in place.
    Without a current cell, or without [include_cell_info], the two cell
    keys keep what the caller supplied.  [body], [severity] and
    [severity_text] are not stamped: they are in the record exactly when
    the caller supplied them. *)
Theorem log_stamps_time_and_thread t entry s d :
  running (logger s) = true ->
  heap (proc s) !! entry = Some d ->
  exists d',
    heap (proc (snd (_log t entry s))) !! entry = Some d' /\
    d' !! "timestamp" = Some (VStr (clock (proc s) (ticks (proc s)) +:+ "Z")) /\
    d' !! "thread_id" = Some (VInt (ident t)) /\
    d' !! "thread_name" = Some (VStr (name t)) /\
    (forall k, k ∉ ["timestamp"; "thread_id"; "thread_name"; "cell_number"; "cell_id"] ->
               d' !! k = d !! k) /\
    (include_cell_info (logger s) = false \/ current_cell (logger s) = None ->
     forall k, k ∉ ["timestamp"; "thread_id"; "thread_name"] -> d' !! k = d !! k) /\
    (forall c,
       include_cell_info (logger s) = true ->
       current_cell (logger s) = Some c ->
       d' !! "cell_number" = Some (VInt (cell_number c)) /\
       d' !! "cell_id" = (if truthy (cell_id c) then Some (cell_id c)
                          else d !! "cell_id")) /\
    d' !! "body" = d !! "body" /\
    d' !! "severity" = d !! "severity" /\
    d' !! "severity_text" = d !! "severity_text".
Proof using Type.
  intros Hrun Hd.
  destruct (_log_running t entry s d Hrun Hd)
    as (s' & d' & Hs & _ & Hd' & Hts & Hid & Hnm & Hk & Hnc & _).
  exists d'. rewrite Hs. cbn.
  split; [exact Hd'|]. split; [exact Hts|]. split; [exact Hid|]. split; [exact Hnm|].
  split; [exact Hk|]. split; [exact Hnc|].
  split.
  { intros c Hici Hcc.
    destruct (_log_cell_context t entry s c d Hrun Hici Hcc Hd) as (d1 & Hd1 & Hn & Hc).
    rewrite Hs in Hd1. cbn in Hd1. rewrite Hd' in Hd1. injection Hd1 as <-.
    split; assumption. }
  split_and!; apply Hk; not_in_keys.
Qed.

(** C5, as amended: normalization is done in place.  While the logger is
    running, [_log] writes the stamps into the caller's own mapping and
    queues that very object; it creates no new object and leaves every
    other dict as it was.  While the logger is not running, [_log] changes
    nothing at all. *)
Theorem log_stamps_in_place t entry s d :
  heap (proc s) !! entry = Some d ->
  (running (logger s) = false -> _log t entry s = (Returned tt, s)) /\
  (running (logger s) = true ->
   exists s' d',
     _log t entry s = (Returned tt, s') /\
     heap (proc s') !! entry = Some d' /\
     d' !! "timestamp" = Some (VStr (clock (proc s) (ticks (proc s)) +:+ "Z")) /\
     d' !! "thread_id" = Some (VInt (ident t)) /\
     d' !! "thread_name" = Some (VStr (name t)) /\
     (forall l, l <> entry -> heap (proc s') !! l = heap (proc s) !! l) /\
     next_id (proc s') = next_id (proc s) /\
     (Queue.full (log_queue (logger s)) = false ->
      Queue.queue (log_queue (logger s')) = Queue.queue (log_queue (logger s)) ++ [entry])).
Proof using Type.
  intros Hd. split.
  - apply _log_not_running.
  - intros Hrun.
    destruct (_log_running t entry s d Hrun Hd)
      as (s' & d' & Hs & _ & Hd' & Hts & Hid & Hnm & _ & _ & Hl & Hn & _ & _ & _ & Hq).
    exists s', d'. repeat split; try assumption.
    intros Hfull. rewrite Hq, Hfull. reflexivity.
Qed.

(** C6: for every state of the queue, of the logger and of the lock,
    [_log] returns normally and at once: it is one action, possible in
    every state, and it raises nothing.  When the queue is full the new
    record is dropped: the queue and its count of unfinished tasks stay as
    they were, and nothing is written to the streams of the process. *)
Theorem log_never_blocks_and_drops_when_full t entry s :
  exists s',
    _log t entry s = (Returned tt, s') /\
    step (LogEntry t entry) s = Some s' /\
    tty_out (proc s') = tty_out (proc s) /\
    tty_err (proc s') = tty_err (proc s) /\
    (Queue.full (log_queue (logger s)) = true ->
     log_queue (logger s') = log_queue (logger s)) /\
    (Queue.full (log_queue (logger s)) = false ->
     running (logger s) = true ->
     Queue.queue (log_queue (logger s')) = Queue.queue (log_queue (logger s)) ++ [entry]).
Proof using Type.
  destruct s as [l p]; destruct l as [? ici ? q ? r ? cc ? ? ? ?], p.
  cbn [step]. crush_log.
  destruct r; cbn;
    [|eexists; repeat split; try reflexivity; intros; discriminate].
  destruct ici, cc as [c|]; cbn; try destruct (truthy (cell_id c)); cbn;
    destruct (Queue.full q); cbn;
    eexists; repeat split; try reflexivity; intros; discriminate.
Qed.

Lemma nonblank_nonempty text :
  str_truthy text && str_truthy (strip text) = str_truthy (strip text).
Proof using Type. destruct text; reflexivity. Qed.

(** C7, as amended: with stream capture in place, on a running logger
    whose queue has room, every write of a text to [sys.stdout] (or
    [sys.stderr]) passes the text on unchanged to the original stream and
    flushes that stream.  When the text is blank nothing is queued.  When
    it is not, exactly one record is queued: a new dict whose [body] is the
    text without its trailing whitespace ([rstrip]), whose [severity_text]
    is "ERROR" when the stream name is "stderr" and "INFO" otherwise, whose
    [source] is "print" and whose [stream] is the stream name. *)
Theorem print_capture_forwards_and_logs t fd name0 text s :
  running (logger s) = true ->
  Queue.full (log_queue (logger s)) = false ->
  exists s',
    stream_write t (PrintCapture (Real fd) name0) text s
      = (Returned (String.length text), s') /\
    tty fd (proc s') = console_flush (console_write text (tty fd (proc s))) /\
    (str_truthy (strip text) = false ->
     log_queue (logger s') = log_queue (logger s)) /\
    (str_truthy (strip text) = true ->
     exists d,
       Queue.queue (log_queue (logger s'))
         = Queue.queue (log_queue (logger s)) ++ [next_id (proc s)] /\
       heap (proc s') !! next_id (proc s) = Some d /\
       d !! "body" = Some (VStr (rstrip text)) /\
       d !! "severity_text" =
         Some (VStr (if String.eqb name0 "stderr" then "ERROR" else "INFO")) /\
       d !! "source" = Some (VStr "print") /\
       d !! "stream" = Some (VStr name0) /\
       d !! "thread_id" = Some (VInt (ident t)) /\
       d !! "thread_name" = Some (VStr (name t))).
Proof using Type.
  intros Hrun Hfull.
  change (stream_write t (PrintCapture (Real fd) name0) text)
    with (stream_write t (Real fd) text ;;
          stream_flush (Real fd) ;;
          (if str_truthy text && str_truthy (strip text) then
             now <- utcnow_isoformat ;;
             entry <- new_dict
               {[ "severity_text" :=
                    VStr (if String.eqb name0 "stderr" then "ERROR" else "INFO");
                  "body" := VStr (rstrip text);
                  "source" := VStr "print";
                  "stream" := VStr name0;
                  "timestamp" := VStr (now +:+ "Z") ]} ;;
             _log t entry
           else ret tt) ;;
          ret (String.length text)).
  rewrite nonblank_nonempty.
  destruct s as [l p]; destruct l as [? ? ? q ? r ? ? ? ? ? ?], p.
  cbn in Hrun, Hfull; subst r.
  unfold stream_write, stream_flush, bind, modify, ret, utcnow_isoformat, new_dict.
  destruct fd; cbn;
    (destruct (str_truthy (strip text)) eqn:Hblank; cbn;
     [ lazymatch goal with |- context [_log ?t ?e ?s] =>
         edestruct (_log_running t e s) as
           (s1 & d & HE & _ & Hd & _ & Hid & Hnm & Hk & _ & _ & _ & _ & Hout & Herr & Hq);
           [reflexivity | cbn; apply lookup_insert_eq |] end;
       rewrite HE; clear HE;
       cbn in Hd, Hq, Hout, Herr; rewrite Hfull in Hq;
       eexists; split; [reflexivity|]; cbn;
       split; [first [exact Hout | exact Herr]|];
       split; [discriminate|]; intros _;
       exists d; rewrite Hq; cbn;
       split_and!;
       first [assumption | reflexivity | rewrite Hk; [map_lookup | not_in_keys]]
     | eexists; split; [reflexivity|]; cbn;
       split; [reflexivity|];
       split; [reflexivity | discriminate] ]).
Qed.

(** C8, as amended: an error raised while writing or flushing a record
    never ends the writer thread.  The bare [except] discards it: nothing
    is written to the standard error, to the standard output or to the log
    file, [task_done] is not called for the record, and the thread is back
    at the head of its loop, from where it takes the next record of the
    queue. *)
Theorem writer_survives_io_error i s w :
  threads (proc s) !! i = Some w ->
  w = WFlush \/ (exists entry, w = WHave entry) ->
  exists s',
    _log_writer i false s = Some s' /\
    threads (proc s') !! i = Some WLoop /\
    tty_err (proc s') = tty_err (proc s) /\
    tty_out (proc s') = tty_out (proc s) /\
    file_lines (proc s') = file_lines (proc s) /\
    log_queue (logger s') = log_queue (logger s) /\
    forall x rest io1 io2,
      Queue.queue (log_queue (logger s)) = x :: rest ->
      exists s2, run [Writer i io1; Writer i io2] s' = Some s2 /\
                 threads (proc s2) !! i = Some (WHave x).
Proof using Type.
  intros Hw Hcase.
  pose proof (lookup_lt_Some _ _ _ Hw) as Hlt.
  exists (set_thread i WLoop s).
  assert (Hstep : _log_writer i false s = Some (set_thread i WLoop s)).
  { unfold _log_writer. rewrite Hw.
    destruct Hcase as [-> | [entry ->]]; [reflexivity|].
    destruct (heap (proc s) !! entry ≫= json_dumps); reflexivity. }
  assert (Hloop : threads (proc (set_thread i WLoop s)) !! i = Some WLoop)
    by (cbn; apply list_lookup_insert_eq; exact Hlt).
  repeat split; try assumption; try reflexivity.
  intros x rest io1 io2 Hq. cbn [run step].
  unfold _log_writer at 1. rewrite Hloop. cbn [logger set_thread on_proc].
  unfold Queue.empty. rewrite Hq, orb_true_r.
  unfold _log_writer at 1. cbn [proc logger set_thread on_proc threads set_threads].
  rewrite list_lookup_insert_eq by (rewrite length_insert; exact Hlt).
  unfold Queue.get. rewrite Hq.
  eexists; split; [reflexivity|]. cbn.
  apply list_lookup_insert_eq. rewrite !length_insert. exact Hlt.
Qed.

Lemma step_cell_count a s s' :
  step a s = Some s' ->
  cell_count (logger s') = cell_count (logger s) + cell_executions [a].
Proof using Type.
  destruct a as [t|t|t|t lv m kw|t e|t fd text|t info|i io]; cbn [step cell_executions].
  - destruct (lock (logger s)); [discriminate|]. intros [= <-].
    destruct (running (logger s)) eqn:Hrun.
    + destruct (start_running t s Hrun) as (s1 & -> & H1). cbn [snd].
      cbn [on_logger logger]. rewrite (evolves_logger _ _ H1).
      destruct s as [l p]; destruct l. cbn. lia.
    + destruct (start_not_running t s Hrun) as (s1 & -> & _ & _ & _ & _ & _ & Hc & _).
      cbn [snd]. lia.
  - destruct (lock (logger s)); [discriminate|]. intros [= <-].
    destruct (running (logger s)) eqn:Hrun.
    + destruct (stop_running t s Hrun) as (s1 & d & -> & _ & _ & _ & Hc & _).
      cbn [snd]. lia.
    + rewrite (stop_not_running t s Hrun). cbn. destruct s as [l p]; destruct l. cbn. lia.
  - destruct (lock (logger s) && Queue.join_ready (log_queue (logger s))); [|discriminate].
    intros [= <-]. unfold stop_after_join, release, bind, modify.
    destruct (print_evolves t "Structured logging stopped" s) as (s1 & -> & H1). cbn [snd].
    cbn [on_logger logger]. pose proof (evolves_cell_count _ _ H1) as Hc.
    destruct s1 as [l1 p1]; destruct l1. cbn in Hc |- *. lia.
  - intros [= <-]. destruct (log_evolves t lv m kw s) as (o & s1 & -> & H1).
    cbn [snd]. rewrite (evolves_cell_count _ _ H1). lia.
  - intros [= <-]. destruct (_log_evolves t e s) as (s1 & -> & H1).
    cbn [snd]. rewrite (evolves_cell_count _ _ H1). lia.
  - destruct fd; intros [= <-].
    + destruct (stream_write_evolves t (sys_stdout (proc s)) text s) as (s1 & -> & H1).
      cbn [snd]. rewrite (evolves_cell_count _ _ H1). lia.
    + destruct (stream_write_evolves t (sys_stderr (proc s)) text s) as (s1 & -> & H1).
      cbn [snd]. rewrite (evolves_cell_count _ _ H1). lia.
  - intros [= <-].
    destruct (_pre_run_cell_counts t info s) as (s1 & -> & Hc & _). cbn [snd]. lia.
  - unfold _log_writer.
    destruct (threads (proc s) !! i) as [w|]; [|discriminate].
    destruct w; try discriminate;
      repeat lazymatch goal with
             | |- context [if ?b then _ else _] => destruct b
             | |- context [match ?o with Some _ => _ | None => _ end] => destruct o
             | |- context [match ?o with Returned _ => _ | Raised _ => _ end] =>
                 destruct o as [[? ?]|?] || destruct o
             end;
      intros [= <-]; destruct s as [l p]; destruct l; cbn; lia.
Qed.

Lemma cell_executions_cons a acts :
  cell_executions (a :: acts) = cell_executions [a] + cell_executions acts.
Proof using Type.
  destruct a; cbn [cell_executions]; lia.
Qed.

Lemma run_cell_count acts s s' :
  run acts s = Some s' ->
  cell_count (logger s') = cell_count (logger s) + cell_executions acts.
Proof using Type.
  revert s. induction acts as [|a acts IH]; intros s; cbn [run].
  - intros [= <-]. cbn. lia.
  - destruct (step a s) as [s1|] eqn:Hs; [|discriminate].
    intros Hr. rewrite (IH s1 Hr), (step_cell_count _ _ _ Hs), (cell_executions_cons a acts).
    lia.
Qed.

(** The keys of the shutdown record. *)
Lemma stop_record_keys t s :
  running (logger s) = true ->
  exists d,
    heap (proc (snd (stop_until_join t s))) !! next_id (proc s) = Some d /\
    forall k, k ∉ ["severity_text"; "body"; "total_cells"; "timestamp"; "thread_id";
                   "thread_name"; "cell_number"; "cell_id"] ->
              d !! k = None.
Proof using Type.
  intros Hrun.
  destruct s as [l p]; destruct l as [? ? cp ? ? r ? ? ? ? ? lh], p.
  cbn in Hrun; subst r.
  unfold stop_until_join, acquire, release, bind, gets, modify, ret,
    utcnow_isoformat, new_dict. cbn.
  lazymatch goal with |- context [_log ?t ?e ?s] =>
    edestruct (_log_running t e s) as
      (s1 & d & HE & H1 & Hd & _ & _ & _ & Hk & _ & _ & _ & _ & _ & _ & Hq);
      [reflexivity | cbn; apply lookup_insert_eq |] end.
  rewrite HE; clear HE. cbn in Hd.
  assert (Hkeys : forall k,
            k ∉ ["severity_text"; "body"; "total_cells"; "timestamp"; "thread_id";
                 "thread_name"; "cell_number"; "cell_id"] -> d !! k = None).
  { intros k Hn. rewrite !not_elem_of_cons in Hn.
    destruct Hn as (N1 & N2 & N3 & N4 & N5 & N6 & N7 & N8 & _).
    rewrite Hk by (rewrite !not_elem_of_cons; split_and!; try assumption;
                   apply not_elem_of_nil).
    rewrite !lookup_insert_ne by congruence. apply lookup_singleton_ne. congruence. }
  pose proof (evolves_logger _ _ H1) as Hl1.
  destruct s1 as [l1 p1]. cbn in Hl1, Hd |- *.
  set (q1 := log_queue l1) in *. clearbody q1. subst l1. cbn.
  destruct lh as [h|]; cbn; destruct cp; cbn; exists d; (split; [exact Hd | exact Hkeys]).
Qed.

(** C9, as amended: the shutdown record carries [total_cells], the number
    of cell executions and no count of records.  From a logger just
    constructed, whatever the threads of the process do, [cell_count] is
    the number of calls of [_pre_run_cell] made so far, each call being
    run as a whole as the cell hooks of a notebook are: it starts at
    zero, each call adds one, and nothing else changes it.  When [stop()] is
    then called on the running logger and the queue has room, the record
    it queues has [total_cells] equal to that number, and has no key
    beside [severity_text], [body], [total_cells], the stamp of [_log]
    ([timestamp], [thread_id], [thread_name]) and the cell keys. *)
Theorem shutdown_record_counts_cells acts t s0 s :
  constructed s0 ->
  run acts s0 = Some s ->
  running (logger s) = true ->
  Queue.full (log_queue (logger s)) = false ->
  cell_count (logger s) = cell_executions acts /\
  exists s' d,
    step (StopEnter t) s = Some s' /\
    stop_until_join t s = (Returned true, s') /\
    Queue.queue (log_queue (logger s'))
      = Queue.queue (log_queue (logger s)) ++ [next_id (proc s)] /\
    heap (proc s') !! next_id (proc s) = Some d /\
    d !! "body" = Some (VStr "Notebook logger stopped") /\
    d !! "severity_text" = Some (VStr "INFO") /\
    d !! "total_cells" = Some (VInt (cell_executions acts)) /\
    forall k, k ∉ ["severity_text"; "body"; "total_cells"; "timestamp"; "thread_id";
                   "thread_name"; "cell_number"; "cell_id"] ->
              d !! k = None.
Proof using Type.
  intros Hc Hr Hrun Hfull.
  assert (Hcount : cell_count (logger s) = cell_executions acts).
  { rewrite (run_cell_count _ _ _ Hr).
    destruct Hc as [(lf & bs & ici & cp & Hl) _]. rewrite Hl. reflexivity. }
  assert (Hlock : lock (logger s) = false).
  { destruct (lock (logger s)) eqn:Hlk; [|reflexivity].
    assert (Hs : running (logger s) = false).
    { apply (stopping_run _ _ _ Hr); [|exact Hlk].
      destruct Hc as [(lf & bs & ici & cp & Hl) _]. rewrite Hl. discriminate. }
    congruence. }
  split; [exact Hcount|].
  destruct (stop_running t s Hrun)
    as (s' & d & Hs & _ & _ & _ & _ & _ & Hd & Hb & Hsev & Htot & Hq).
  destruct (stop_record_keys t s Hrun) as (d1 & Hd1 & Hkeys).
  rewrite Hs in Hd1. cbn [snd] in Hd1. rewrite Hd in Hd1. injection Hd1 as <-.
  exists s', d. rewrite Hq, Hfull, <- Hcount.
  split; [cbn [step]; rewrite Hlock, Hs; reflexivity|].
  split_and!; try assumption; reflexivity.
Qed.

Lemma forward_flush_threads f p : threads (forward_flush f p) = threads p.
Proof using Type.
  induction f as [fd | original IH name0]; cbn; [destruct fd; reflexivity | exact IH].
Qed.

Lemma forward_threads f text p : threads (forward f text p) = threads p.
Proof using Type.
  induction f as [fd | original IH name0]; cbn.
  - destruct fd; reflexivity.
  - rewrite forward_flush_threads. exact IH.
Qed.

(** C10: [start_logging] never reads its [log_file] argument.  When the
    environment variable is unset or empty it returns [None]; it creates
    no logger (the singleton stays unset when it was unset) and starts none
    (an existing singleton keeps its [running] flag and its writer thread,
    and no thread is started).  When the variable holds a path and no
    singleton exists yet, the logger it creates has that path as its
    [log_file], whatever [log_file] was passed, and it is started. *)
Theorem start_logging_uses_environment t arg kw w :
  (forall arg', start_logging t arg' kw w = start_logging t arg kw w) /\
  (environ w !! LIVE_LOGS_FILE_PATH = None \/
   environ w !! LIVE_LOGS_FILE_PATH = Some "" ->
   fst (start_logging t arg kw w) = Returned None /\
   threads (process (snd (start_logging t arg kw w))) = threads (process w) /\
   (_logger_instance w = None ->
    _logger_instance (snd (start_logging t arg kw w)) = None) /\
   (forall l, _logger_instance w = Some l ->
      exists l', _logger_instance (snd (start_logging t arg kw w)) = Some l' /\
                 running l' = running l /\
                 writer_thread l' = writer_thread l)) /\
  (forall path,
     environ w !! LIVE_LOGS_FILE_PATH = Some path ->
     path <> "" ->
     _logger_instance w = None ->
     kw_unexpected kw = [] ->
     exists l,
       fst (start_logging t arg kw w) = Returned (Some l) /\
       _logger_instance (snd (start_logging t arg kw w)) = Some l /\
       log_file l = Path path /\
       running l = true).
Proof using Type.
  split; [reflexivity|]. split.
  - intros Henv. unfold start_logging.
    assert (Hd : default "" (environ w !! LIVE_LOGS_FILE_PATH) = "")
      by (destruct Henv as [-> | ->]; reflexivity).
    rewrite Hd. cbn [String.eqb fst snd]. split; [reflexivity|].
    unfold module_print.
    destruct (_logger_instance w) as [l|] eqn:Hinst.
    + lazymatch goal with |- context [print ?t ?m ?s] =>
        destruct (print_evolves t m s) as (s1 & Hp & H1) end.
      rewrite Hp. cbn [snd process _logger_instance].
      split; [apply (evolves_threads _ _ H1)|].
      split; [discriminate|].
      intros l0 [= <-]. exists (logger s1). split; [reflexivity|].
      split; [apply (evolves_running _ _ H1) | apply (evolves_writer_thread _ _ H1)].
    + cbn [process _logger_instance]. rewrite !forward_threads.
      split; [reflexivity|]. split; [reflexivity|]. discriminate.
  - intros path Henv Hne Hinst Hkw. unfold start_logging.
    rewrite Henv. cbn [default from_option]. unfold id.
    destruct (String.eqb path "") eqn:Heq; [apply String.eqb_eq in Heq; contradiction|].
    unfold get_logger, construct. rewrite Hinst, Hkw.
    lazymatch goal with |- context [start ?t ?s] =>
      destruct (start_not_running t s) as (s1 & Hs & Hr & _ & _ & _ & _ & _ & _);
        [reflexivity|] end.
    rewrite Hs. cbn [fst snd _logger_instance].
    exists (logger s1). split_and!; try reflexivity; [|exact Hr].
    clear Hr.
    (* the path is kept by [start] *)
    revert Hs. unfold start, acquire, release, spawn_writer, _setup_logging_handler,
      _setup_print_capture, bind, gets, modify, ret, utcnow_isoformat, new_dict.
    cbn.
    destruct (default false (kw_capture_print kw)); cbn;
      (lazymatch goal with |- context [_log ?t ?e ?s] =>
         destruct (_log_evolves t e s) as (s2 & -> & H2) end);
      (lazymatch goal with |- context [print ?t ?m ?s] =>
         destruct (print_evolves t m s) as (s3 & -> & H3) end);
      intros [= <-]; cbn;
      rewrite (evolves_logger _ _ H3); cbn;
      rewrite (evolves_logger _ _ H2); reflexivity.
Qed.

End Handler.

(** ** Concrete runs *)

(** A logger for ["app.log"] with the default options, in a process at
    start-up, then started by the main thread. *)
Definition demo_fresh : State := fresh_state "app.log" 1000 true false true.

Definition demo_started : State := snd (start raw_path main_thread demo_fresh).

(** The same with [capture_print=True]. *)
Definition demo_capturing : State :=
  snd (start raw_path main_thread (fresh_state "app.log" 1000 true true true)).

(** A logger whose log file cannot be opened. *)
Definition demo_unopenable : State :=
  fresh_state "/missing/app.log" 1000 true false false.

(** The started logger after the caller has built the dict [{}], and
    after the caller has built [{"body": "hi"}]. *)
Definition demo_empty_dict : State := snd (new_dict ∅ demo_started).

Definition demo_body_dict : State :=
  snd (new_dict {[ "body" := VStr "hi" ]} demo_started).

(** The started logger after one manual record. *)
Definition demo_one_record : State :=
  snd (log upper main_thread "info" (VStr "one") ∅ demo_started).

(** The writer thread opens the file, enters its loop and takes the
    startup record off the queue. *)
Definition demo_writer_holds : State :=
  default demo_started
    (run body_only raw_path upper
       [Writer 0 true; Writer 0 true; Writer 0 true] demo_started).

(** A whole run: start; the writer writes the startup record; [stop()] is
    called and waits; the writer writes the shutdown record and marks it
    done. *)
Definition demo_trace : list action :=
  [ Start main_thread;
    Writer 0 true; Writer 0 true; Writer 0 true;
    Writer 0 true; Writer 0 true; Writer 0 true;
    StopEnter main_thread;
    Writer 0 true; Writer 0 true;
    Writer 0 true; Writer 0 true; Writer 0 true ].

Definition demo_joined : State :=
  default demo_fresh (run body_only raw_path upper demo_trace demo_fresh).

Definition demo_stopped : State :=
  default demo_joined (step body_only raw_path upper (StopLeave main_thread) demo_joined).

Example demo_started_state :
  running (logger demo_started) = true /\
  Queue.queue (log_queue (logger demo_started)) = [1%nat] /\
  threads (proc demo_started) = [WOpen].
Proof. vm_compute. repeat split. Qed.

Example demo_joined_state :
  run body_only raw_path upper demo_trace demo_fresh = Some demo_joined /\
  threads (proc demo_joined) = [WLoop] /\
  file_lines (proc demo_joined)
    = ["Notebook logger started" +:+ LF; "Notebook logger stopped" +:+ LF] /\
  Queue.unfinished_tasks (log_queue (logger demo_joined)) = 0%nat /\
  lock (logger demo_joined) = true.
Proof. vm_compute. repeat split. Qed.

(** ** Counterexamples and instances *)



(** C2 fails as stated: with a log file that cannot be opened, [start()]
    returns normally and leaves the logger running; the failure shows only
    when the writer thread takes its first step. *)
Lemma start_with_unopenable_file_returns :
  openable (proc demo_unopenable) = false /\
  fst (start raw_path main_thread demo_unopenable) = Returned tt /\
  running (logger (snd (start raw_path main_thread demo_unopenable))) = true /\
  threads (proc (snd (start raw_path main_thread demo_unopenable))) = [WOpen] /\
  (threads ∘ proc) <$>
    _log_writer body_only 0 true (snd (start raw_path main_thread demo_unopenable))
    = Some [WCrashed].
Proof. vm_compute. repeat split. Qed.

Lemma start_returns_although_open_fails_witness :
  exists s' i,
    step body_only raw_path upper (Start main_thread) demo_unopenable = Some s' /\
    start raw_path main_thread demo_unopenable = (Returned tt, s') /\
    running (logger s') = true /\
    writer_thread (logger s') = Some i /\
    threads (proc s') !! i = Some WOpen /\
    openable (proc s') = false /\
    forall s1 io,
      threads (proc s1) !! i = Some WOpen ->
      openable (proc s1) = false ->
      exists s2,
        _log_writer body_only i io s1 = Some s2 /\
        threads (proc s2) !! i = Some WCrashed.
Proof.
  apply (start_returns_although_open_fails body_only raw_path upper main_thread
           demo_unopenable); reflexivity.
Defined.

(** C3 fails as stated: in the run [demo_trace] followed by the return of
    [stop()], the writer thread has not exited when [stop()] returns: it
    stands at the head of its loop with the file still open. *)
Lemma stop_returns_before_writer_exits :
  run body_only raw_path upper demo_trace demo_fresh = Some demo_joined /\
  step body_only raw_path upper (StopLeave main_thread) demo_joined = Some demo_stopped /\
  lock (logger demo_stopped) = false /\
  running (logger demo_stopped) = false /\
  threads (proc demo_stopped) = [WLoop] /\
  finished WLoop = false.
Proof. vm_compute. repeat split. Qed.

(** A run of the finer interleaving.  Another thread calls [_log] on a
    dict it has built: its test of [self.running] comes out true, and it
    stamps the dict; [stop()] is called and waits; the writer writes the
    shutdown record and marks it done, and [join()] returns.  The call of
    [_log] has not yet put its record. *)
Definition worker_thread : Thread := mkThread 2 "Worker".

Definition demo_late_dict : State :=
  snd (new_dict {[ "body" := VStr "late" ]} demo_fresh).

Definition demo_late_trace : list fine_action :=
  [Coarse (Start main_thread)]
  ++ replicate 6 (Coarse (Writer 0 true))
  ++ [LogTest worker_thread 0; LogStamp 0; Coarse (StopEnter main_thread)]
  ++ replicate 5 (Coarse (Writer 0 true)).

Definition demo_late_joined : Fine :=
  default (mkFine demo_late_dict [])
    (fine_run body_only raw_path upper demo_late_trace (mkFine demo_late_dict [])).

Definition demo_late_stopped : Fine :=
  default demo_late_joined
    (fine_step body_only raw_path upper (Coarse (StopLeave main_thread)) demo_late_joined).

(** In that run the record of the other thread reaches the queue after
    [stop()] has returned: the queue then holds a record that no writer
    has been asked to wait for. *)
Example record_arrives_after_stop_returned :
  fine_run body_only raw_path upper
    (demo_late_trace ++ [Coarse (StopLeave main_thread)]) (mkFine demo_late_dict [])
    = Some demo_late_stopped /\
  lock (logger (base demo_late_stopped)) = false /\
  Queue.queue (log_queue (logger (base demo_late_stopped))) = [] /\
  calls demo_late_stopped = [Putting 0] /\
  (fun f => (Queue.queue (log_queue (logger (base f))),
             Queue.unfinished_tasks (log_queue (logger (base f))),
             running (logger (base f))))
    <$> fine_step body_only raw_path upper (LogPut 0) demo_late_stopped
    = Some ([0%nat], 1%nat, false).
Proof. vm_compute. repeat split. Qed.

Lemma stop_returns_when_queue_done_witness :
  Queue.queue (log_queue (logger (base demo_late_joined))) = [] /\
  Queue.unfinished_tasks (log_queue (logger (base demo_late_joined))) = 0%nat /\
  (forall i w, threads (proc (base demo_late_joined)) !! i = Some w ->
               holds_entry w = false) /\
  log_queue (logger (base demo_late_stopped))
    = log_queue (logger (base demo_late_joined)) /\
  threads (proc (base demo_late_stopped)) = threads (proc (base demo_late_joined)) /\
  calls demo_late_stopped = calls demo_late_joined /\
  running (logger (base demo_late_stopped)) = false /\
  lock (logger (base demo_late_stopped)) = false /\
  forall k entry,
    calls demo_late_joined !! k = Some (Putting entry) ->
    exists f'',
      fine_step body_only raw_path upper (LogPut k) demo_late_stopped = Some f'' /\
      Queue.queue (log_queue (logger (base f''))) = [entry] /\
      Queue.unfinished_tasks (log_queue (logger (base f''))) = 1%nat /\
      running (logger (base f'')) = false /\
      lock (logger (base f'')) = false.
Proof.
  apply (stop_returns_when_queue_done body_only raw_path upper demo_late_trace
           main_thread demo_late_dict demo_late_joined demo_late_stopped).
  - split; [|reflexivity]. exists "app.log", 1000, true, false. reflexivity.
  - vm_compute; reflexivity.
  - vm_compute; reflexivity.
Defined.

(** C4 fails as stated: the empty mapping, logged on the running logger,
    gives a record with neither [severity] nor [body] (nor
    [severity_text]); only the three stamps are in it. *)
Lemma log_of_empty_mapping_lacks_severity_and_body :
  heap (proc demo_empty_dict) !! 2%nat = Some ∅ /\
  exists d,
    heap (proc (snd (_log main_thread 2 demo_empty_dict))) !! 2%nat = Some d /\
    Queue.queue (log_queue (logger (snd (_log main_thread 2 demo_empty_dict))))
      = [1%nat; 2%nat] /\
    d !! "severity" = None /\
    d !! "severity_text" = None /\
    d !! "body" = None /\
    dom d = {[ "timestamp"; "thread_id"; "thread_name" ]}.
Proof.
  split; [vm_compute; reflexivity|].
  eexists. split; [vm_compute; reflexivity|].
  split; [vm_compute; reflexivity|].
  split; [vm_compute; reflexivity|].
  split; [vm_compute; reflexivity|].
  split; [vm_compute; reflexivity|].
  vm_compute. reflexivity.
Qed.

Lemma log_stamps_time_and_thread_witness :
  running (logger demo_body_dict) = true /\
  heap (proc demo_body_dict) !! 2%nat = Some {[ "body" := VStr "hi" ]} /\
  exists d',
    heap (proc (snd (_log main_thread 2 demo_body_dict))) !! 2%nat = Some d' /\
    d' !! "timestamp"
      = Some (VStr (clock (proc demo_body_dict) (ticks (proc demo_body_dict)) +:+ "Z")) /\
    d' !! "thread_id" = Some (VInt (ident main_thread)) /\
    d' !! "thread_name" = Some (VStr (name main_thread)) /\
    (forall k, k ∉ ["timestamp"; "thread_id"; "thread_name"; "cell_number"; "cell_id"] ->
               d' !! k = ({[ "body" := VStr "hi" ]} : gmap string value) !! k) /\
    (include_cell_info (logger demo_body_dict) = false \/
     current_cell (logger demo_body_dict) = None ->
     forall k, k ∉ ["timestamp"; "thread_id"; "thread_name"] ->
               d' !! k = ({[ "body" := VStr "hi" ]} : gmap string value) !! k) /\
    (forall c,
       include_cell_info (logger demo_body_dict) = true ->
       current_cell (logger demo_body_dict) = Some c ->
       d' !! "cell_number" = Some (VInt (cell_number c)) /\
       d' !! "cell_id" = (if truthy (cell_id c) then Some (cell_id c)
                          else ({[ "body" := VStr "hi" ]} : gmap string value)
                                 !! "cell_id")) /\
    d' !! "body" = ({[ "body" := VStr "hi" ]} : gmap string value) !! "body" /\
    d' !! "severity" = ({[ "body" := VStr "hi" ]} : gmap string value) !! "severity" /\
    d' !! "severity_text"
      = ({[ "body" := VStr "hi" ]} : gmap string value) !! "severity_text".
Proof.
  assert (Hr : running (logger demo_body_dict) = true) by reflexivity.
  assert (Hd : heap (proc demo_body_dict) !! 2%nat = Some {[ "body" := VStr "hi" ]})
    by (vm_compute; reflexivity).
  split; [exact Hr|]. split; [exact Hd|].
  exact (log_stamps_time_and_thread main_thread 2 demo_body_dict _ Hr Hd).
Defined.

(** C5 fails as stated: the caller's mapping [{"body": "hi"}] is not the
    same after [_log]: the stamps were written into it, and the queue holds
    that very object. *)
Lemma log_changes_caller_mapping :
  heap (proc demo_body_dict) !! 2%nat = Some {[ "body" := VStr "hi" ]} /\
  heap (proc (snd (_log main_thread 2 demo_body_dict))) !! 2%nat
    <> heap (proc demo_body_dict) !! 2%nat /\
  (heap (proc (snd (_log main_thread 2 demo_body_dict))) !! 2%nat)
     ≫= (fun d => d !! "thread_name") = Some (VStr "MainThread") /\
  Queue.queue (log_queue (logger (snd (_log main_thread 2 demo_body_dict))))
    = [1%nat; 2%nat] /\
  next_id (proc (snd (_log main_thread 2 demo_body_dict))) = next_id (proc demo_body_dict).
Proof.
  split; [vm_compute; reflexivity|].
  split; [|vm_compute; repeat split].
  intros H.
  apply (f_equal (fun o : option (gmap string value) => o ≫= (fun d => d !! "thread_name"))) in H.
  vm_compute in H. discriminate H.
Qed.

Lemma log_stamps_in_place_witness :
  heap (proc demo_body_dict) !! 2%nat = Some {[ "body" := VStr "hi" ]} /\
  (running (logger demo_body_dict) = false ->
   _log main_thread 2 demo_body_dict = (Returned tt, demo_body_dict)) /\
  (running (logger demo_body_dict) = true ->
   exists s' d',
     _log main_thread 2 demo_body_dict = (Returned tt, s') /\
     heap (proc s') !! 2%nat = Some d' /\
     d' !! "timestamp"
       = Some (VStr (clock (proc demo_body_dict) (ticks (proc demo_body_dict)) +:+ "Z")) /\
     d' !! "thread_id" = Some (VInt (ident main_thread)) /\
     d' !! "thread_name" = Some (VStr (name main_thread)) /\
     (forall l, l <> 2%nat -> heap (proc s') !! l = heap (proc demo_body_dict) !! l) /\
     next_id (proc s') = next_id (proc demo_body_dict) /\
     (Queue.full (log_queue (logger demo_body_dict)) = false ->
      Queue.queue (log_queue (logger s'))
        = Queue.queue (log_queue (logger demo_body_dict)) ++ [2%nat])).
Proof.
  assert (Hd : heap (proc demo_body_dict) !! 2%nat = Some {[ "body" := VStr "hi" ]})
    by (vm_compute; reflexivity).
  split; [exact Hd|].
  exact (log_stamps_in_place main_thread 2 demo_body_dict _ Hd).
Defined.

(** C7 fails as stated: with stream capture in place, writing "hello" and a
    line end to [sys.stdout] queues one record whose [source] is "print",
    not "stream"; the stream name is under the key [stream], not
    [stream_name], and the level under [severity_text], not [severity]. *)
Lemma stream_record_has_other_fields :
  sys_stdout (proc demo_capturing) = PrintCapture (Real Stdout) "stdout" /\
  exists d,
    heap (proc (snd (stream_write main_thread (sys_stdout (proc demo_capturing))
                       ("hello" +:+ LF) demo_capturing))) !! 3%nat = Some d /\
    Queue.queue (log_queue (logger
      (snd (stream_write main_thread (sys_stdout (proc demo_capturing))
              ("hello" +:+ LF) demo_capturing)))) = [1%nat; 2%nat; 3%nat] /\
    d !! "body" = Some (VStr "hello") /\
    d !! "source" = Some (VStr "print") /\
    d !! "stream" = Some (VStr "stdout") /\
    d !! "stream_name" = None /\
    d !! "severity_text" = Some (VStr "INFO") /\
    d !! "severity" = None.
Proof.
  split; [vm_compute; reflexivity|].
  eexists. split; [vm_compute; reflexivity|].
  vm_compute. repeat split.
Qed.

(** The body loses every trailing white space, not only the line end. *)
Example stream_record_body_is_rstripped :
  rstrip ("  hi  " +:+ LF) = "  hi".
Proof. reflexivity. Qed.

Lemma print_capture_forwards_and_logs_witness :
  running (logger demo_capturing) = true /\
  Queue.full (log_queue (logger demo_capturing)) = false /\
  exists s',
    stream_write main_thread (PrintCapture (Real Stdout) "stdout") ("hello" +:+ LF)
      demo_capturing
      = (Returned (String.length ("hello" +:+ LF)), s') /\
    tty Stdout (proc s')
      = console_flush (console_write ("hello" +:+ LF) (tty Stdout (proc demo_capturing))) /\
    (str_truthy (strip ("hello" +:+ LF)) = false ->
     log_queue (logger s') = log_queue (logger demo_capturing)) /\
    (str_truthy (strip ("hello" +:+ LF)) = true ->
     exists d,
       Queue.queue (log_queue (logger s'))
         = Queue.queue (log_queue (logger demo_capturing))
             ++ [next_id (proc demo_capturing)] /\
       heap (proc s') !! next_id (proc demo_capturing) = Some d /\
       d !! "body" = Some (VStr (rstrip ("hello" +:+ LF))) /\
       d !! "severity_text" =
         Some (VStr (if String.eqb "stdout" "stderr" then "ERROR" else "INFO")) /\
       d !! "source" = Some (VStr "print") /\
       d !! "stream" = Some (VStr "stdout") /\
       d !! "thread_id" = Some (VInt (ident main_thread)) /\
       d !! "thread_name" = Some (VStr (name main_thread))).
Proof.
  assert (Hr : running (logger demo_capturing) = true) by reflexivity.
  assert (Hf : Queue.full (log_queue (logger demo_capturing)) = false)
    by (vm_compute; reflexivity).
  split; [exact Hr|]. split; [exact Hf|].
  exact (print_capture_forwards_and_logs main_thread Stdout "stdout" ("hello" +:+ LF)
           demo_capturing Hr Hf).
Defined.

(** C8 fails as stated: when writing the startup record fails, the writer
    thread goes on, and nothing is written to the standard error (nor to
    the standard output, nor to the log file): no diagnostic is logged. *)
Lemma write_error_is_not_reported :
  threads (proc demo_writer_holds) = [WHave 1] /\
  exists s',
    _log_writer body_only 0 false demo_writer_holds = Some s' /\
    threads (proc s') = [WLoop] /\
    tty_err (proc s') = tty_err (proc demo_writer_holds) /\
    tty_err (proc s') = mkConsole "" "" /\
    tty_out (proc s') = tty_out (proc demo_writer_holds) /\
    file_lines (proc s') = [].
Proof.
  split; [vm_compute; reflexivity|].
  eexists. split; [vm_compute; reflexivity|].
  vm_compute. repeat split.
Qed.

Lemma writer_survives_io_error_witness :
  threads (proc demo_writer_holds) !! 0%nat = Some (WHave 1) /\
  exists s',
    _log_writer body_only 0 false demo_writer_holds = Some s' /\
    threads (proc s') !! 0%nat = Some WLoop /\
    tty_err (proc s') = tty_err (proc demo_writer_holds) /\
    tty_out (proc s') = tty_out (proc demo_writer_holds) /\
    file_lines (proc s') = file_lines (proc demo_writer_holds) /\
    log_queue (logger s') = log_queue (logger demo_writer_holds) /\
    forall x rest io1 io2,
      Queue.queue (log_queue (logger demo_writer_holds)) = x :: rest ->
      exists s2, run body_only raw_path upper [Writer 0 io1; Writer 0 io2] s' = Some s2 /\
                 threads (proc s2) !! 0%nat = Some (WHave x).
Proof.
  assert (Hw : threads (proc demo_writer_holds) !! 0%nat = Some (WHave 1))
    by (vm_compute; reflexivity).
  split; [exact Hw|].
  exact (writer_survives_io_error body_only raw_path upper 0 demo_writer_holds (WHave 1)
           Hw (or_intror (ex_intro _ 1%nat eq_refl))).
Defined.

(** C9 fails as stated: after the startup record and one manual record
    were accepted, [stop()] queues a shutdown record (the third record
    accepted) whose [total_cells] is 0, and no field of it holds 2 or 3. *)
Lemma shutdown_record_has_no_record_count :
  Queue.unfinished_tasks (log_queue (logger demo_one_record)) = 2%nat /\
  exists d,
    heap (proc (snd (stop_until_join main_thread demo_one_record))) !! 3%nat = Some d /\
    Queue.queue (log_queue (logger (snd (stop_until_join main_thread demo_one_record))))
      = [1%nat; 2%nat; 3%nat] /\
    d !! "total_cells" = Some (VInt 0) /\
    map_to_list d =
      map_to_list ({[ "severity_text" := VStr "INFO";
                      "body" := VStr "Notebook logger stopped";
                      "total_cells" := VInt 0;
                      "timestamp" := VStr "T4Z";
                      "thread_id" := VInt 1;
                      "thread_name" := VStr "MainThread" ]} : gmap string value).
Proof.
  split; [vm_compute; reflexivity|].
  eexists. split; [vm_compute; reflexivity|].
  split; [vm_compute; reflexivity|].
  split; vm_compute; reflexivity.
Qed.

(** The logger is started and two cells are run. *)
Definition demo_cells_trace : list action :=
  [ Start main_thread;
    PreRunCell main_thread (mkCellInfo VNone (Some "x = 1"));
    Log main_thread "info" (VStr "one") ∅;
    PreRunCell main_thread (mkCellInfo VNone (Some "x + 1")) ].

Definition demo_two_cells : State :=
  default demo_fresh (run body_only raw_path upper demo_cells_trace demo_fresh).

Lemma shutdown_record_counts_cells_witness :
  cell_count (logger demo_two_cells) = 2 /\
  exists s' d,
    step body_only raw_path upper (StopEnter main_thread) demo_two_cells = Some s' /\
    stop_until_join main_thread demo_two_cells = (Returned true, s') /\
    Queue.queue (log_queue (logger s'))
      = Queue.queue (log_queue (logger demo_two_cells)) ++ [next_id (proc demo_two_cells)] /\
    heap (proc s') !! next_id (proc demo_two_cells) = Some d /\
    d !! "body" = Some (VStr "Notebook logger stopped") /\
    d !! "severity_text" = Some (VStr "INFO") /\
    d !! "total_cells" = Some (VInt 2) /\
    forall k, k ∉ ["severity_text"; "body"; "total_cells"; "timestamp"; "thread_id";
                   "thread_name"; "cell_number"; "cell_id"] ->
              d !! k = None.
Proof.
  apply (shutdown_record_counts_cells body_only raw_path upper demo_cells_trace
           main_thread demo_fresh demo_two_cells).
  - split; [|reflexivity]. exists "app.log", 1000, true, false. reflexivity.
  - vm_compute; reflexivity.
  - vm_compute; reflexivity.
  - vm_compute; reflexivity.
Defined.

(** ** Further properties of the program *)

Ltac key_differs :=
  first
    [ discriminate
    | let H := fresh in
      intros H; subst;
      repeat match goal with Hk : _ /\ _ |- _ => destruct Hk end;
      congruence ].

Ltac map_lookup :=
  repeat first
    [ rewrite lookup_insert_eq
    | rewrite lookup_singleton_eq
    | rewrite lookup_insert_ne by key_differs
    | rewrite lookup_singleton_ne by key_differs ];
  try reflexivity.

Ltac not_in_keys :=
  rewrite !not_elem_of_cons; repeat split; try discriminate; apply not_elem_of_nil.

(** ** Stopping, and submissions to a stopped logger *)

Section More.

Variable json_dumps : gmap string value -> option string.
Variable path_str : PyPath -> string.
Variable str_upper : string -> string.

Arguments _log : simpl never.
Arguments stream_write : simpl never.
Arguments stream_flush : simpl never.
Arguments print : simpl never.

(** [stop()] twice: once a call of [stop()] has returned, the logger is
    not running and a second call changes nothing.  It queues no second
    shutdown record, raises nothing and leaves the lock free. *)
Theorem stop_twice_changes_nothing acts t t' s0 s s' :
  constructed s0 ->
  run json_dumps path_str str_upper acts s0 = Some s ->
  step json_dumps path_str str_upper (StopLeave t) s = Some s' ->
  running (logger s') = false /\
  stop_until_join t' s' = (Returned false, s') /\
  step json_dumps path_str str_upper (StopEnter t') s' = Some s'.
Proof using Type.
  intros Hc Hrun Hleave.
  assert (Hinv : lock (logger s) = true -> running (logger s) = false).
  { apply (stopping_run _ _ _ _ _ _ Hrun).
    destruct Hc as [(lf & bs & ici & cp & ->) _]. discriminate. }
  cbn [step] in Hleave.
  destruct (lock (logger s)) eqn:Hl; [|discriminate]. cbn [andb] in Hleave.
  destruct (Queue.join_ready (log_queue (logger s))); [|discriminate].
  injection Hleave as <-. specialize (Hinv eq_refl).
  unfold stop_after_join, release, bind, modify.
  destruct (print_stopped t "Structured logging stopped" s Hinv) as (s3 & -> & Hl3).
  cbn [snd].
  assert (Hrun3 : running (logger (on_logger (set_lock false) s3)) = false)
    by (cbn; rewrite Hl3; exact Hinv).
  assert (Hsame : on_logger (set_lock false) (on_logger (set_lock false) s3)
                  = on_logger (set_lock false) s3)
    by (destruct s3 as [l p]; destruct l; reflexivity).
  split; [exact Hrun3|]. split.
  - rewrite (stop_not_running _ _ Hrun3). rewrite Hsame. reflexivity.
  - cbn [step]. cbn [lock logger on_logger set_lock].
    rewrite (stop_not_running _ _ Hrun3). cbn [snd]. rewrite Hsame. reflexivity.
Qed.

(** While the logger is not running, every submission is discarded:
    manual records, records handed to [_log], writes to the standard
    streams (captured or not) and cell notifications leave the queue, its
    count of unfinished tasks and the log file as they were. *)
Theorem submissions_while_stopped_are_discarded a s s' :
  running (logger s) = false ->
  match a with
  | Log _ _ _ _ | LogEntry _ _ | Write _ _ _ | PreRunCell _ _ => True
  | _ => False
  end ->
  step json_dumps path_str str_upper a s = Some s' ->
  log_queue (logger s') = log_queue (logger s) /\
  file_lines (proc s') = file_lines (proc s) /\
  running (logger s') = false.
Proof using Type.
  intros Hrun Hkind Hstep.
  destruct a as [t|t|t|t lv m kw|t e|t fd text|t info|i io];
    try contradiction; cbn [step] in Hstep.
  - injection Hstep as <-.
    unfold log.
    destruct (kw !! "self"), (kw !! "level"), (kw !! "message");
      try (cbn; rewrite Hrun; repeat split).
    unfold bind, new_dict. rewrite _log_not_running by exact Hrun.
    cbn. rewrite Hrun. repeat split.
  - injection Hstep as <-.
    rewrite _log_not_running by exact Hrun. cbn. rewrite Hrun. repeat split.
  - assert (Hw : forall f,
              log_queue (logger (snd (stream_write t f text s))) = log_queue (logger s) /\
              file_lines (proc (snd (stream_write t f text s))) = file_lines (proc s) /\
              running (logger (snd (stream_write t f text s))) = false).
    { intros f.
      destruct (stream_write_stopped t f text s Hrun) as (s1 & Hs & Hl).
      destruct (stream_write_evolves t f text s) as (s1' & Hs' & He).
      rewrite Hs in Hs'. injection Hs' as <-. rewrite Hs. cbn [snd].
      rewrite Hl. split; [reflexivity|]. split; [|exact Hrun].
      destruct He as (_ & Hp & _). rewrite Hp. reflexivity. }
    destruct fd; injection Hstep as <-; apply Hw.
  - injection Hstep as <-.
    destruct s as [l p]; destruct l as [? ici ? ? ? r ? ? ? ? ? ?], p.
    cbn in Hrun; subst r.
    unfold _pre_run_cell, bind, gets, modify, ret, utcnow_isoformat, new_dict. cbn.
    destruct ici; cbn; [|repeat split].
    rewrite _log_not_running by reflexivity. cbn. repeat split.
Qed.

(** A writer thread leaves its loop only from the loop test, and only
    when the logger is not running and the queue is empty. *)
Theorem writer_exits_only_when_stopped_and_drained i io s s' w :
  threads (proc s) !! i = Some w ->
  _log_writer json_dumps i io s = Some s' ->
  threads (proc s') !! i = Some WExited ->
  w = WLoop /\
  running (logger s) = false /\
  Queue.queue (log_queue (logger s)) = [].
Proof using Type.
  intros Hw Hstep Hexit.
  pose proof (lookup_lt_Some _ _ _ Hw) as Hlt.
  unfold _log_writer in Hstep. rewrite Hw in Hstep.
  assert (Hset : forall w0 s0,
            threads (proc s0) = threads (proc s) ->
            threads (proc (set_thread i w0 s0)) !! i = Some w0).
  { intros w0 s0 Ht. cbn. rewrite Ht. apply list_lookup_insert_eq. exact Hlt. }
  destruct w.
  - destruct (openable (proc s)); injection Hstep as <-;
      rewrite Hset in Hexit by reflexivity; discriminate.
  - destruct (running (logger s)) eqn:Hr; cbn [orb] in Hstep.
    + injection Hstep as <-. rewrite Hset in Hexit by reflexivity. discriminate.
    + unfold Queue.empty in Hstep.
      destruct (Queue.queue (log_queue (logger s))) eqn:Hq; cbn [negb] in Hstep.
      * repeat split.
      * injection Hstep as <-. rewrite Hset in Hexit by reflexivity. discriminate.
  - destruct (Queue.get (log_queue (logger s))) as [[e q]|]; injection Hstep as <-;
      rewrite Hset in Hexit by reflexivity; discriminate.
  - destruct (heap (proc s) !! entry ≫= json_dumps); [destruct io|];
      injection Hstep as <-; rewrite Hset in Hexit by reflexivity; discriminate.
  - destruct io; injection Hstep as <-;
      rewrite Hset in Hexit by reflexivity; discriminate.
  - destruct (Queue.task_done (log_queue (logger s))); injection Hstep as <-;
      rewrite Hset in Hexit by reflexivity; discriminate.
  - discriminate.
  - discriminate.
Qed.

(** In every state reached from a logger just constructed, [task_done]
    finds an unfinished task whenever a writer thread is about to call
    it: the [ValueError] of [Queue.task_done] never occurs. *)
Theorem task_done_never_raises acts s0 s i :
  constructed s0 ->
  run json_dumps path_str str_upper acts s0 = Some s ->
  threads (proc s) !! i = Some WDone ->
  exists q, Queue.task_done (log_queue (logger s)) = Returned q.
Proof using Type.
  intros Hc Hrun Hi.
  pose proof (accounted_run _ _ _ _ _ _ Hrun (accounted_constructed _ Hc)) as Hacc.
  unfold accounted in Hacc. unfold Queue.task_done.
  destruct (Queue.unfinished_tasks (log_queue (logger s))) eqn:Hu; [|eexists; reflexivity].
  exfalso.
  assert (Hz : inflight (threads (proc s)) = 0%nat) by lia.
  pose proof (inflight_zero _ Hz i WDone Hi) as Hhold. discriminate Hhold.
Qed.

(** [get_logger] is a singleton: whatever the arguments of a second call
    (even keywords the constructor would refuse), it returns the logger of
    the first call and changes nothing. *)
Theorem get_logger_returns_the_singleton log_file1 kw1 log_file2 kw2 w l w1 :
  get_logger log_file1 kw1 w = (Returned l, w1) ->
  get_logger log_file2 kw2 w1 = (Returned l, w1).
Proof using Type.
  unfold get_logger, construct. intros H.
  destruct (_logger_instance w) as [l0|] eqn:Hi.
  - injection H as <- <-. rewrite Hi. reflexivity.
  - destruct (kw_unexpected kw1); [|discriminate].
    injection H as <- <-. reflexivity.
Qed.

End More.

(** ** Invariants of the queue *)

Section QueueInvariant.

Variable json_dumps : gmap string value -> option string.
Variable path_str : PyPath -> string.
Variable str_upper : string -> string.

(** A property of the queue that [put_nowait], [get] and [task_done] keep
    whenever they succeed. *)
Variable Q : Queue.t -> Prop.
Hypothesis Q_put : forall q x q', Q q -> Queue.put_nowait x q = Returned q' -> Q q'.
Hypothesis Q_get : forall q x q', Q q -> Queue.get q = Returned (x, q') -> Q q'.
Hypothesis Q_done : forall q q', Q q -> Queue.task_done q = Returned q' -> Q q'.

(** A method body keeps [Q] on [self.log_queue]. *)
Definition keeps_queue {A} (m : M A) : Prop :=
  forall s, Q (log_queue (logger s)) -> Q (log_queue (logger (snd (m s)))).

Lemma keeps_queue_ret {A} (a : A) : keeps_queue (ret a).
Proof using Type. intros s H. exact H. Qed.

Lemma keeps_queue_gets {A} (f : State -> A) : keeps_queue (gets f).
Proof using Type. intros s H. exact H. Qed.

Lemma keeps_queue_bind {A B} (m : M A) (k : A -> M B) :
  keeps_queue m -> (forall a, keeps_queue (k a)) -> keeps_queue (bind m k).
Proof using Type.
  intros Hm Hk s H. unfold bind. specialize (Hm s H).
  destruct (m s) as [[a|e] s1]; cbn [snd] in *; [apply Hk; exact Hm | exact Hm].
Qed.

Lemma keeps_queue_proc (f : Process -> Process) : keeps_queue (modify (on_proc f)).
Proof using Type. intros s H. exact H. Qed.

Lemma keeps_queue_logger (f : Logger -> Logger) :
  (forall l, log_queue (f l) = log_queue l) -> keeps_queue (modify (on_logger f)).
Proof using Type. intros Hf s H. cbn. rewrite Hf. exact H. Qed.

Lemma keeps_queue_utcnow : keeps_queue utcnow_isoformat.
Proof using Type. intros s H. exact H. Qed.

Lemma keeps_queue_new_dict d : keeps_queue (new_dict d).
Proof using Type. intros s H. exact H. Qed.

Lemma keeps_queue_try {A} (m h : M A) :
  keeps_queue m -> keeps_queue h -> keeps_queue (try_except m h).
Proof using Type.
  intros Hm Hh s H. unfold try_except. specialize (Hm s H).
  destruct (m s) as [[a|e] s1]; cbn [snd] in *; [exact Hm | apply Hh; exact Hm].
Qed.

Lemma keeps_queue_put entry : keeps_queue (put_nowait entry).
Proof using Q_put.
  intros s H. unfold put_nowait.
  destruct (Queue.put_nowait entry (log_queue (logger s))) as [q|e] eqn:Hp;
    cbn; [exact (Q_put _ _ _ H Hp) | exact H].
Qed.

Ltac keeps_queue_base :=
  lazymatch goal with
  | |- keeps_queue (bind _ _) => apply keeps_queue_bind; [|intros ?]
  | |- keeps_queue (ret _) => apply keeps_queue_ret
  | |- keeps_queue (gets _) => apply keeps_queue_gets
  | |- keeps_queue utcnow_isoformat => apply keeps_queue_utcnow
  | |- keeps_queue (new_dict _) => apply keeps_queue_new_dict
  | |- keeps_queue (put_nowait _) => apply keeps_queue_put
  | |- keeps_queue (try_except _ _) => apply keeps_queue_try
  | |- keeps_queue (modify (on_proc _)) => apply keeps_queue_proc
  | |- keeps_queue (modify (on_logger _)) =>
      apply keeps_queue_logger; intros []; reflexivity
  | |- keeps_queue (if ?b then _ else _) => destruct b
  | |- keeps_queue (match ?x with _ => _ end) => destruct x
  end.

Lemma keeps_queue__log t entry : keeps_queue (_log t entry).
Proof using Q_put.
  unfold _log, setitem. repeat keeps_queue_base.
Qed.

Lemma keeps_queue_flush f : keeps_queue (stream_flush f).
Proof using Type.
  induction f as [fd | original IH name0]; [apply keeps_queue_proc | exact IH].
Qed.

Lemma keeps_queue_write t f text : keeps_queue (stream_write t f text).
Proof using Q_put.
  induction f as [fd | original IH name0].
  - cbn [stream_write]. repeat keeps_queue_base.
  - cbn [stream_write]. apply keeps_queue_bind; [exact IH | intros ?].
    apply keeps_queue_bind; [apply keeps_queue_flush | intros ?].
    apply keeps_queue_bind; [|intros ?; apply keeps_queue_ret].
    destruct (str_truthy text && str_truthy (strip text)); [|apply keeps_queue_ret].
    apply keeps_queue_bind; [apply keeps_queue_utcnow | intros ?].
    apply keeps_queue_bind; [apply keeps_queue_new_dict | intros ?].
    apply keeps_queue__log.
Qed.

Lemma keeps_queue_print t msg : keeps_queue (print t msg).
Proof using Q_put.
  unfold print.
  apply keeps_queue_bind; [apply keeps_queue_gets | intros out].
  apply keeps_queue_bind; [apply keeps_queue_write | intros ?].
  apply keeps_queue_bind; [apply keeps_queue_write | intros ?].
  apply keeps_queue_ret.
Qed.

Ltac keeps_queue_steps :=
  repeat lazymatch goal with
         | |- keeps_queue (_log _ _) => apply keeps_queue__log
         | |- keeps_queue (print _ _) => apply keeps_queue_print
         | |- _ => keeps_queue_base
         end.

Lemma keeps_queue_start t : keeps_queue (start path_str t).
Proof using Q_put.
  unfold start, acquire, release, spawn_writer, _setup_logging_handler,
    _setup_print_capture.
  keeps_queue_steps.
Qed.

Lemma keeps_queue_stop_until_join t : keeps_queue (stop_until_join t).
Proof using Q_put.
  unfold stop_until_join, acquire, release.
  keeps_queue_steps.
Qed.

Lemma keeps_queue_stop_after_join t : keeps_queue (stop_after_join t).
Proof using Q_put.
  unfold stop_after_join, release.
  apply keeps_queue_bind; [apply keeps_queue_print | intros ?].
  apply keeps_queue_logger; intros []; reflexivity.
Qed.

Lemma keeps_queue_log t level message kwargs :
  keeps_queue (log str_upper t level message kwargs).
Proof using Q_put.
  unfold log.
  destruct (kwargs !! "self"), (kwargs !! "level"), (kwargs !! "message");
    try (intros s H; exact H).
  apply keeps_queue_bind; [apply keeps_queue_new_dict | intros ?].
  apply keeps_queue__log.
Qed.

Lemma keeps_queue_pre_run_cell t info : keeps_queue (_pre_run_cell t info).
Proof using Q_put.
  unfold _pre_run_cell.
  keeps_queue_steps.
Qed.

Lemma queue_invariant_writer i io s s' :
  _log_writer json_dumps i io s = Some s' ->
  Q (log_queue (logger s)) -> Q (log_queue (logger s')).
Proof using Q_get Q_done.
  unfold _log_writer. intros Hstep H.
  destruct (threads (proc s) !! i) as [w|]; [|discriminate].
  destruct w.
  - destruct (openable (proc s)); injection Hstep as <-; exact H.
  - destruct (running (logger s) || negb (Queue.empty (log_queue (logger s))));
      injection Hstep as <-; exact H.
  - destruct (Queue.get (log_queue (logger s))) as [[e q]|] eqn:Hg;
      injection Hstep as <-; cbn; [exact (Q_get _ _ _ H Hg) | exact H].
  - destruct (heap (proc s) !! entry ≫= json_dumps); [destruct io|];
      injection Hstep as <-; exact H.
  - destruct io; injection Hstep as <-; exact H.
  - destruct (Queue.task_done (log_queue (logger s))) as [q|] eqn:Hd;
      injection Hstep as <-; cbn; [exact (Q_done _ _ H Hd) | exact H].
  - discriminate.
  - discriminate.
Qed.

Lemma queue_invariant_step a s s' :
  step json_dumps path_str str_upper a s = Some s' ->
  Q (log_queue (logger s)) -> Q (log_queue (logger s')).
Proof using Q_put Q_get Q_done.
  destruct a as [t|t|t|t lv m kw|t e|t fd text|t info|i io]; cbn [step].
  - destruct (lock (logger s)); [discriminate|]. intros [= <-]. apply keeps_queue_start.
  - destruct (lock (logger s)); [discriminate|]. intros [= <-].
    apply keeps_queue_stop_until_join.
  - destruct (lock (logger s) && Queue.join_ready (log_queue (logger s))); [|discriminate].
    intros [= <-]. apply keeps_queue_stop_after_join.
  - intros [= <-]. apply keeps_queue_log.
  - intros [= <-]. apply keeps_queue__log.
  - destruct fd; intros [= <-]; apply keeps_queue_write.
  - intros [= <-]. apply keeps_queue_pre_run_cell.
  - apply queue_invariant_writer.
Qed.

Lemma queue_invariant_run acts s s' :
  run json_dumps path_str str_upper acts s = Some s' ->
  Q (log_queue (logger s)) -> Q (log_queue (logger s')).
Proof using Q_put Q_get Q_done.
  revert s. induction acts as [|a acts IH]; intros s; cbn [run].
  - intros [= <-]. auto.
  - destruct (step json_dumps path_str str_upper a s) as [s1|] eqn:Hs; [|discriminate].
    intros Hr H. apply (IH s1 Hr). apply (queue_invariant_step a s s1 Hs H).
Qed.

End QueueInvariant.

(** The capacity of the queue is kept and respected: [maxsize] is never
    changed and, when it is positive, the queue holds at most that many
    entries. *)
Definition within_capacity (n : Z) (q : Queue.t) : Prop :=
  Queue.maxsize q = n /\ (0 < n -> Z.of_nat (length (Queue.queue q)) <= n).

Section Capacity.

Variable json_dumps : gmap string value -> option string.
Variable path_str : PyPath -> string.
Variable str_upper : string -> string.

(** Whatever the threads do from a logger just constructed with a
    positive [buffer_size], the queue never holds more than [buffer_size]
    entries. *)
Theorem queue_never_exceeds_buffer_size acts log_file buffer_size ici cp p s :
  0 < buffer_size ->
  run json_dumps path_str str_upper acts
    (mkState (__init__ log_file buffer_size ici cp p) p) = Some s ->
  Queue.maxsize (log_queue (logger s)) = buffer_size /\
  Z.of_nat (length (Queue.queue (log_queue (logger s)))) <= buffer_size.
Proof using Type.
  intros Hpos Hrun.
  assert (H : within_capacity buffer_size (log_queue (logger s))).
  { refine (queue_invariant_run json_dumps path_str str_upper
              (within_capacity buffer_size) _ _ _ acts _ s Hrun _).
    - intros q x q' [Hm Hl] Hp. unfold Queue.put_nowait, Queue.full in Hp.
      destruct (0 <? Queue.maxsize q) eqn:H0;
        destruct (Queue.maxsize q <=? Z.of_nat (length (Queue.queue q))) eqn:H1;
        cbn [andb] in Hp; try discriminate; injection Hp as <-;
        unfold within_capacity; cbn [Queue.maxsize Queue.queue];
        (split; [exact Hm|]); intros Hn; rewrite length_app; cbn [length]; lia.
    - intros q x q' [Hm Hl] Hg. unfold Queue.get in Hg.
      destruct (Queue.queue q) as [|y rest] eqn:Hq; [discriminate|].
      injection Hg as <- <-. unfold within_capacity. cbn [Queue.maxsize Queue.queue].
      split; [exact Hm|].
      intros Hn. specialize (Hl Hn). cbn [length] in Hl. lia.
    - intros q q' [Hm Hl] Hd. unfold Queue.task_done in Hd.
      destruct (Queue.unfinished_tasks q); [discriminate|].
      injection Hd as <-. unfold within_capacity. cbn [Queue.maxsize Queue.queue].
      split; assumption.
    - unfold within_capacity. cbn. split; [reflexivity|]. lia. }
  destruct H as [Hm Hl]. split; [exact Hm | exact (Hl Hpos)].
Qed.

Lemma _log_queue t entry s :
  running (logger s) = true ->
  log_queue (logger (snd (_log t entry s)))
  = (if Queue.full (log_queue (logger s)) then log_queue (logger s)
     else Queue.mk (Queue.maxsize (log_queue (logger s)))
                   (Queue.queue (log_queue (logger s)) ++ [entry])
                   (S (Queue.unfinished_tasks (log_queue (logger s))))).
Proof using Type.
  intros Hrun.
  destruct s as [l0 p]; destruct l0 as [? ici ? q ? r ? cc ? ? ? ?], p.
  cbn in Hrun; subst r.
  unfold _log, bind, gets, ret, setitem, modify, utcnow_isoformat, try_except,
    put_nowait, Queue.put_nowait. cbn.
  destruct ici, cc as [c|]; cbn; try destruct (truthy (cell_id c)); cbn;
    destruct (Queue.full q); reflexivity.
Qed.

(** A [buffer_size] of zero or less does not make a queue without room:
    [queue.Queue] then has no bound, and a running logger built so never
    drops a record. *)
Theorem buffer_size_zero_means_no_bound acts log_file buffer_size ici cp p s t entry :
  buffer_size <= 0 ->
  run json_dumps path_str str_upper acts
    (mkState (__init__ log_file buffer_size ici cp p) p) = Some s ->
  running (logger s) = true ->
  Queue.queue (log_queue (logger (snd (_log t entry s))))
  = Queue.queue (log_queue (logger s)) ++ [entry].
Proof using Type.
  intros Hle Hrun Hr.
  assert (H : Queue.maxsize (log_queue (logger s)) = buffer_size).
  { refine (queue_invariant_run json_dumps path_str str_upper
              (fun q => Queue.maxsize q = buffer_size) _ _ _ acts _ s Hrun _).
    - intros q x q' Hm Hp. unfold Queue.put_nowait in Hp.
      destruct (Queue.full q); [discriminate|]. injection Hp as <-. exact Hm.
    - intros q x q' Hm Hg. unfold Queue.get in Hg.
      destruct (Queue.queue q); [discriminate|]. injection Hg as <- <-. exact Hm.
    - intros q q' Hm Hd. unfold Queue.task_done in Hd.
      destruct (Queue.unfinished_tasks q); [discriminate|]. injection Hd as <-. exact Hm.
    - reflexivity. }
  rewrite (_log_queue t entry s Hr).
  unfold Queue.full. rewrite H.
  replace (0 <? buffer_size) with false by (symmetry; apply Z.ltb_ge; exact Hle).
  reflexivity.
Qed.

End Capacity.

(** ** Records that are never marked done *)

(** [k] tasks are counted as unfinished beyond the entries that are
    queued or held by a writer. *)
Definition owed (k : nat) (s : State) : Prop :=
  (length (Queue.queue (log_queue (logger s))) + inflight (threads (proc s)) + k
   <= Queue.unfinished_tasks (log_queue (logger s)))%nat.

Section Owed.

Variable json_dumps : gmap string value -> option string.
Variable path_str : PyPath -> string.
Variable str_upper : string -> string.

Lemma owed_advance k s s' :
  queue_grows (log_queue (logger s)) (log_queue (logger s')) ->
  inflight (threads (proc s')) = inflight (threads (proc s)) ->
  owed k s -> owed k s'.
Proof using Type.
  intros [_ (xs & Hq & Hu)] Ht. unfold owed.
  rewrite Hq, Hu, Ht, length_app. lia.
Qed.

Lemma owed_evolves k s s' : evolves s s' -> owed k s -> owed k s'.
Proof using Type.
  intros H. apply owed_advance.
  - apply (evolves_queue _ _ H).
  - rewrite (evolves_threads _ _ H). reflexivity.
Qed.

Lemma owed_set_thread k i w w' q s :
  threads (proc s) !! i = Some w ->
  (length (Queue.queue q) + (if holds_entry w' then 1 else 0)
   + inflight (threads (proc s)) + k
   <= Queue.unfinished_tasks q + (if holds_entry w then 1 else 0))%nat ->
  owed k (set_thread i w' (on_logger (set_log_queue q) s)).
Proof using Type.
  intros Hw Hle. pose proof (inflight_insert _ _ _ w' Hw) as Hins.
  unfold owed.
  cbn [set_thread on_proc on_logger logger proc threads set_threads
       log_queue set_log_queue].
  lia.
Qed.

Lemma set_thread_same_queue i w s :
  set_thread i w (on_logger (set_log_queue (log_queue (logger s))) s) = set_thread i w s.
Proof using Type. destruct s as [l p]; destruct l; reflexivity. Qed.

Lemma owed_set_thread' k i w w' s :
  threads (proc s) !! i = Some w ->
  (length (Queue.queue (log_queue (logger s))) + (if holds_entry w' then 1 else 0)
   + inflight (threads (proc s)) + k
   <= Queue.unfinished_tasks (log_queue (logger s)) + (if holds_entry w then 1 else 0))%nat ->
  owed k (set_thread i w' s).
Proof using Type.
  intros Hw Hle. rewrite <- set_thread_same_queue. apply (owed_set_thread k i w); assumption.
Qed.

Lemma owed_writer k i io s s' :
  _log_writer json_dumps i io s = Some s' -> owed k s -> owed k s'.
Proof using Type.
  unfold _log_writer.
  destruct (threads (proc s) !! i) as [w|] eqn:Hw; [|discriminate].
  intros Hstep Hacc. unfold owed in Hacc.
  destruct w.
  - destruct (openable (proc s)); injection Hstep as <-;
      apply (owed_set_thread' k i WOpen); [exact Hw | cbn [holds_entry]; lia
                                          | exact Hw | cbn [holds_entry]; lia].
  - destruct (running (logger s) || negb (Queue.empty (log_queue (logger s))));
      injection Hstep as <-;
      apply (owed_set_thread' k i WLoop); [exact Hw | cbn [holds_entry]; lia
                                          | exact Hw | cbn [holds_entry]; lia].
  - unfold Queue.get in Hstep.
    destruct (Queue.queue (log_queue (logger s))) as [|x rest] eqn:Hq;
      injection Hstep as <-.
    + apply (owed_set_thread' k i WGet); [exact Hw|].
      rewrite Hq. cbn [holds_entry length]. cbn [length] in Hacc. lia.
    + apply (owed_set_thread k i WGet); [exact Hw|].
      cbn [holds_entry Queue.queue Queue.unfinished_tasks]. cbn [length] in Hacc. lia.
  - destruct (heap (proc s) !! entry ≫= json_dumps); [destruct io|];
      injection Hstep as <-.
    + assert (Hfile : forall ls,
                owed k (set_thread i WFlush (on_proc (fun p => set_file_lines (ls p) p) s))
                = owed k (set_thread i WFlush s)).
      { intros ls. destruct s as [l p]; destruct p; reflexivity. }
      rewrite Hfile.
      apply (owed_set_thread' k i (WHave entry)); [exact Hw | cbn [holds_entry]; lia].
    + apply (owed_set_thread' k i (WHave entry)); [exact Hw | cbn [holds_entry]; lia].
    + apply (owed_set_thread' k i (WHave entry)); [exact Hw | cbn [holds_entry]; lia].
  - destruct io; injection Hstep as <-;
      apply (owed_set_thread' k i WFlush); [exact Hw | cbn [holds_entry]; lia
                                           | exact Hw | cbn [holds_entry]; lia].
  - unfold Queue.task_done in Hstep.
    destruct (Queue.unfinished_tasks (log_queue (logger s))) eqn:Hu;
      injection Hstep as <-.
    + apply (owed_set_thread' k i WDone); [exact Hw|].
      rewrite Hu. cbn [holds_entry]. lia.
    + apply (owed_set_thread k i WDone); [exact Hw|].
      cbn [holds_entry Queue.queue Queue.unfinished_tasks]. lia.
  - discriminate.
  - discriminate.
Qed.

Lemma owed_step k a s s' :
  step json_dumps path_str str_upper a s = Some s' -> owed k s -> owed k s'.
Proof using Type.
  destruct a as [t|t|t|t lv m kw|t e|t fd text|t info|i io]; cbn [step].
  - destruct (lock (logger s)); [discriminate|]. intros [= <-].
    destruct (running (logger s)) eqn:Hrun.
    + destruct (start_running path_str t s Hrun) as (s1 & -> & H1). cbn [snd].
      apply owed_advance; cbn [on_logger logger proc set_lock log_queue].
      * destruct s1 as [l1 p1]; destruct l1; apply (evolves_queue _ _ H1).
      * rewrite (evolves_threads _ _ H1). reflexivity.
    + destruct (start_not_running path_str t s Hrun)
        as (s1 & -> & _ & _ & _ & Ht & _ & _ & Hq). cbn [snd].
      apply owed_advance; [exact Hq|].
      rewrite Ht, inflight_app. change (inflight [WOpen]) with 0%nat. lia.
  - destruct (lock (logger s)); [discriminate|]. intros [= <-].
    destruct (running (logger s)) eqn:Hrun.
    + destruct (stop_running t s Hrun) as (s1 & d & -> & _ & _ & Ht & _ & Hq & _). cbn [snd].
      apply owed_advance; [exact Hq | rewrite Ht; reflexivity].
    + rewrite (stop_not_running t s Hrun). cbn [snd].
      apply owed_advance; [destruct s as [l p]; destruct l; apply queue_grows_refl
                          | reflexivity].
  - destruct (lock (logger s) && Queue.join_ready (log_queue (logger s))); [|discriminate].
    intros [= <-]. unfold stop_after_join, release, bind, modify.
    destruct (print_evolves t "Structured logging stopped" s) as (s1 & -> & H1). cbn [snd].
    apply owed_advance.
    + destruct s1 as [l1 p1]; destruct l1; apply (evolves_queue _ _ H1).
    + cbn [on_logger proc]. rewrite (evolves_threads _ _ H1). reflexivity.
  - intros [= <-]. destruct (log_evolves str_upper t lv m kw s) as (o & s1 & -> & H1).
    apply (owed_evolves _ _ _ H1).
  - intros [= <-]. destruct (_log_evolves t e s) as (s1 & -> & H1).
    apply (owed_evolves _ _ _ H1).
  - destruct fd; intros [= <-].
    + destruct (stream_write_evolves t (sys_stdout (proc s)) text s) as (s1 & -> & H1).
      apply (owed_evolves _ _ _ H1).
    + destruct (stream_write_evolves t (sys_stderr (proc s)) text s) as (s1 & -> & H1).
      apply (owed_evolves _ _ _ H1).
  - intros [= <-].
    destruct (_pre_run_cell_counts t info s) as (s1 & -> & _ & _ & _ & Ht & Hq). cbn [snd].
    apply owed_advance; [exact Hq | rewrite Ht; reflexivity].
  - apply owed_writer.
Qed.

Lemma owed_run k acts s s' :
  run json_dumps path_str str_upper acts s = Some s' -> owed k s -> owed k s'.
Proof using Type.
  revert s. induction acts as [|a acts IH]; intros s; cbn [run].
  - intros [= <-]. auto.
  - destruct (step json_dumps path_str str_upper a s) as [s1|] eqn:Hs; [|discriminate].
    intros Hr H. apply (IH s1 Hr). apply (owed_step k a s s1 Hs H).
Qed.

(** A record that the writer gives up (its serialization, its write or
    its flush raised, so the thread is back at the loop test without
    having called [task_done]) stays counted as unfinished, and
    [Queue.join] can never be satisfied again: from then on, in whatever
    order the threads run, no call of [stop()] that has cleared [running]
    ever returns. *)
Theorem failed_record_blocks_stop_forever acts0 s0 s i io w s1 acts s2 t :
  constructed s0 ->
  run json_dumps path_str str_upper acts0 s0 = Some s ->
  threads (proc s) !! i = Some w ->
  w = WFlush \/ (exists entry, w = WHave entry) ->
  _log_writer json_dumps i io s = Some s1 ->
  threads (proc s1) !! i = Some WLoop ->
  run json_dumps path_str str_upper acts s1 = Some s2 ->
  Queue.join_ready (log_queue (logger s2)) = false /\
  step json_dumps path_str str_upper (StopLeave t) s2 = None.
Proof using Type.
  intros Hc Hrun0 Hw Hcase Hstep Hloop Hrun.
  pose proof (accounted_run _ _ _ _ _ _ Hrun0 (accounted_constructed _ Hc)) as Hacc.
  pose proof (lookup_lt_Some _ _ _ Hw) as Hlt.
  assert (Hset : forall w0 s', threads (proc s') = threads (proc s) ->
                               threads (proc (set_thread i w0 s')) !! i = Some w0).
  { intros w0 s' Ht. cbn. rewrite Ht. apply list_lookup_insert_eq. exact Hlt. }
  assert (H1 : owed 1 s1).
  { assert (Hs1 : s1 = set_thread i WLoop s).
    { unfold _log_writer in Hstep. rewrite Hw in Hstep.
      destruct Hcase as [-> | [entry ->]].
      - destruct io; injection Hstep as <-; [|reflexivity].
        rewrite Hset in Hloop by reflexivity. discriminate.
      - destruct (heap (proc s) !! entry ≫= json_dumps); [destruct io|];
          injection Hstep as <-; try reflexivity.
        rewrite Hset in Hloop by reflexivity. discriminate. }
    subst s1. apply (owed_set_thread' 1 i w); [exact Hw|].
    unfold accounted in Hacc.
    destruct Hcase as [-> | [entry ->]]; cbn [holds_entry]; lia. }
  pose proof (owed_run 1 _ _ _ Hrun H1) as H2. unfold owed in H2.
  assert (Hj : Queue.join_ready (log_queue (logger s2)) = false).
  { unfold Queue.join_ready.
    destruct (Queue.unfinished_tasks (log_queue (logger s2))); [lia | reflexivity]. }
  split; [exact Hj|]. cbn [step]. rewrite Hj, andb_false_r. reflexivity.
Qed.

End Owed.

(** ** The writer thread on its own *)

(** One full turn of the loop of [_log_writer] by thread [i] with no file
    error: the loop test, [get], [write], [flush] and [task_done]. *)
Definition writer_round (i : nat) : list action :=
  [Writer i true; Writer i true; Writer i true; Writer i true; Writer i true].

Section Drain.

Variable json_dumps : gmap string value -> option string.
Variable path_str : PyPath -> string.
Variable str_upper : string -> string.

Lemma writer_round_writes_oldest i s x rest line n :
  threads (proc s) !! i = Some WLoop ->
  Queue.queue (log_queue (logger s)) = x :: rest ->
  heap (proc s) !! x ≫= json_dumps = Some line ->
  Queue.unfinished_tasks (log_queue (logger s)) = S n ->
  exists s',
    run json_dumps path_str str_upper (writer_round i) s = Some s' /\
    threads (proc s') !! i = Some WLoop /\
    Queue.queue (log_queue (logger s')) = rest /\
    Queue.unfinished_tasks (log_queue (logger s')) = n /\
    file_lines (proc s') = file_lines (proc s) ++ [line +:+ LF] /\
    heap (proc s') = heap (proc s) /\
    running (logger s') = running (logger s).
Proof using Type.
  intros Hw Hq Hline Hu.
  pose proof (lookup_lt_Some _ _ _ Hw) as Hlt.
  destruct s as [l p].
  destruct l as [lf ici cp q lk r wt cc cn oo oe lh].
  destruct p as [so se rh to te hp ni ts fl op ck tk].
  destruct q as [m qs u].
  cbn in Hw, Hq, Hline, Hu, Hlt. subst qs u.
  unfold writer_round. cbn [run step].
  unfold _log_writer at 1. cbn [proc threads logger log_queue running]. rewrite Hw.
  unfold Queue.empty. cbn [Queue.queue negb]. rewrite orb_true_r.
  unfold _log_writer at 1.
  cbn [set_thread on_proc proc threads set_threads logger log_queue].
  rewrite list_lookup_insert_eq by exact Hlt.
  unfold Queue.get. cbn [Queue.queue Queue.maxsize Queue.unfinished_tasks].
  unfold _log_writer at 1.
  cbn [set_thread on_proc on_logger proc threads set_threads logger log_queue
       set_log_queue heap].
  rewrite list_lookup_insert_eq by (rewrite ?length_insert; exact Hlt).
  rewrite Hline.
  unfold _log_writer at 1.
  cbn [set_thread on_proc on_logger proc threads set_threads logger log_queue
       set_log_queue heap set_file_lines file_lines].
  rewrite list_lookup_insert_eq by (rewrite ?length_insert; exact Hlt).
  unfold _log_writer at 1.
  cbn [set_thread on_proc on_logger proc threads set_threads logger log_queue
       set_log_queue heap set_file_lines file_lines].
  rewrite list_lookup_insert_eq by (rewrite ?length_insert; exact Hlt).
  unfold Queue.task_done. cbn [Queue.queue Queue.maxsize Queue.unfinished_tasks].
  eexists. split; [reflexivity|].
  cbn [set_thread on_proc on_logger proc threads set_threads logger log_queue
       set_log_queue heap set_file_lines file_lines running
       Queue.queue Queue.maxsize Queue.unfinished_tasks].
  rewrite list_lookup_insert_eq by (rewrite ?length_insert; exact Hlt).
  repeat split.
Qed.

Lemma run_app acts1 acts2 s s1 :
  run json_dumps path_str str_upper acts1 s = Some s1 ->
  run json_dumps path_str str_upper (acts1 ++ acts2) s
  = run json_dumps path_str str_upper acts2 s1.
Proof using Type.
  revert s. induction acts1 as [|a acts1 IH]; intros s; cbn [run app].
  - intros [= ->]. reflexivity.
  - destruct (step json_dumps path_str str_upper a s); [apply IH | discriminate].
Qed.

Lemma writer_drains i h xs ls :
  Forall2 (fun x line => h !! x ≫= json_dumps = Some line) xs ls ->
  forall s,
    heap (proc s) = h ->
    Queue.queue (log_queue (logger s)) = xs ->
    threads (proc s) !! i = Some WLoop ->
    (length xs <= Queue.unfinished_tasks (log_queue (logger s)))%nat ->
    exists s',
      run json_dumps path_str str_upper
        (concat (replicate (length xs) (writer_round i))) s = Some s' /\
      file_lines (proc s') = file_lines (proc s) ++ map (fun line => line +:+ LF) ls /\
      Queue.queue (log_queue (logger s')) = [] /\
      Queue.unfinished_tasks (log_queue (logger s'))
        = (Queue.unfinished_tasks (log_queue (logger s)) - length xs)%nat /\
      threads (proc s') !! i = Some WLoop.
Proof using Type.
  induction 1 as [|x line xs ls Hx Hall IH]; intros s Hh Hxs Hw Hle.
  - exists s. cbn [length replicate concat run map].
    rewrite app_nil_r, Nat.sub_0_r. repeat split; [exact Hxs | exact Hw].
  - cbn [length] in Hle.
    destruct (Queue.unfinished_tasks (log_queue (logger s))) as [|n] eqn:Hu; [lia|].
    rewrite <- Hh in Hx.
    destruct (writer_round_writes_oldest i s x xs line n Hw Hxs Hx Hu)
      as (s1 & Hrun1 & Hw1 & Hq1 & Hu1 & Hf1 & Hh1 & _).
    destruct (IH s1) as (s' & Hrun & Hf & Hq & Hu' & Hw').
    + rewrite Hh1. exact Hh.
    + exact Hq1.
    + exact Hw1.
    + rewrite Hu1. lia.
    + exists s'. split.
      * cbn [length replicate concat]. rewrite (run_app _ _ _ _ Hrun1). exact Hrun.
      * rewrite Hf, Hf1, Hq, Hu', Hu1. cbn [map length].
        rewrite <- app_assoc. split_and!; [reflexivity | reflexivity | lia | exact Hw'].
Qed.

(** Left alone with a queue of serializable records, the writer thread
    writes them all, one line per record and in the order they were
    queued, and marks each one done. *)
Theorem writer_drains_queue_in_order i s ls :
  threads (proc s) !! i = Some WLoop ->
  Forall2 (fun x line => heap (proc s) !! x ≫= json_dumps = Some line)
          (Queue.queue (log_queue (logger s))) ls ->
  (length (Queue.queue (log_queue (logger s)))
   <= Queue.unfinished_tasks (log_queue (logger s)))%nat ->
  exists s',
    run json_dumps path_str str_upper
      (concat (replicate (length (Queue.queue (log_queue (logger s)))) (writer_round i))) s
      = Some s' /\
    file_lines (proc s') = file_lines (proc s) ++ map (fun line => line +:+ LF) ls /\
    Queue.queue (log_queue (logger s')) = [] /\
    Queue.unfinished_tasks (log_queue (logger s'))
      = (Queue.unfinished_tasks (log_queue (logger s))
         - length (Queue.queue (log_queue (logger s))))%nat /\
    threads (proc s') !! i = Some WLoop.
Proof using Type.
  intros Hw Hall Hle.
  exact (writer_drains i _ _ _ Hall s eq_refl eq_refl Hw Hle).
Qed.

(** From a manual record to the file: on a running logger whose queue is
    empty, [log] (with no keyword named like one of its parameters, so
    that the call is accepted) queues the record and one turn of the
    writer's loop writes its serialization as one line and marks it done,
    leaving the queue empty and the count of unfinished tasks as it was. *)
Theorem logged_record_reaches_the_file t level message kwargs i s :
  kwargs !! "self" = None ->
  kwargs !! "level" = None ->
  kwargs !! "message" = None ->
  running (logger s) = true ->
  Queue.queue (log_queue (logger s)) = [] ->
  threads (proc s) !! i = Some WLoop ->
  exists s1 d,
    step json_dumps path_str str_upper (Log t level message kwargs) s = Some s1 /\
    heap (proc s1) !! next_id (proc s) = Some d /\
    forall line,
      json_dumps d = Some line ->
      exists s2,
        run json_dumps path_str str_upper (writer_round i) s1 = Some s2 /\
        file_lines (proc s2) = file_lines (proc s) ++ [line +:+ LF] /\
        Queue.queue (log_queue (logger s2)) = [] /\
        Queue.unfinished_tasks (log_queue (logger s2))
          = Queue.unfinished_tasks (log_queue (logger s)).
Proof using Type.
  intros Hk1 Hk2 Hk3 Hrun Hempty Hw.
  assert (Hfull : Queue.full (log_queue (logger s)) = false).
  { unfold Queue.full. rewrite Hempty. cbn [length].
    destruct (0 <? Queue.maxsize (log_queue (logger s))) eqn:Hb; [|reflexivity].
    apply Z.ltb_lt in Hb. cbn [andb]. apply Z.leb_gt. lia. }
  cbn [step]. rewrite (log_accepted str_upper t level message kwargs Hk1 Hk2 Hk3).
  unfold bind, new_dict.
  lazymatch goal with |- context [_log ?t ?e ?s0] =>
    edestruct (_log_running t e s0) as
      (s1 & d & HE & He & Hd & _ & _ & _ & _ & _ & _ & _ & _ & _ & _ & Hq);
      [exact Hrun | cbn; apply lookup_insert_eq |] end.
  rewrite HE. cbn [snd]. cbn in Hd, Hq. rewrite Hfull, Hempty in Hq.
  exists s1, d. split; [reflexivity|]. split; [exact Hd|].
  intros line Hline.
  pose proof (evolves_threads _ _ He) as Ht. cbn in Ht.
  destruct He as (_ & Hp & _). cbn in Hp.
  destruct (writer_round_writes_oldest i s1 (next_id (proc s)) [] line
              (Queue.unfinished_tasks (log_queue (logger s))))
    as (s2 & Hr2 & _ & Hq2 & Hu2 & Hf2 & _).
  - rewrite Ht. exact Hw.
  - rewrite Hq. reflexivity.
  - rewrite Hd. exact Hline.
  - rewrite Hq. reflexivity.
  - exists s2. split; [exact Hr2|]. rewrite Hf2, Hq2, Hu2.
    split; [|split; reflexivity]. rewrite Hp. reflexivity.
Qed.

End Drain.

(** ** What [start] binds and [stop] restores *)

(** The bindings [start] makes and [stop] undoes, and the attributes they
    are made from, are the same in [s] and [s']. *)
Definition same_bindings (s s' : State) : Prop :=
  sys_stdout (proc s') = sys_stdout (proc s) /\
  sys_stderr (proc s') = sys_stderr (proc s) /\
  root_handlers (proc s') = root_handlers (proc s) /\
  log_handler (logger s') = log_handler (logger s) /\
  capture_print (logger s') = capture_print (logger s) /\
  original_stdout (logger s') = original_stdout (logger s) /\
  original_stderr (logger s') = original_stderr (logger s) /\
  running (logger s') = running (logger s).

(** The actions other than entering and leaving [start] and [stop]. *)
Definition between_calls (a : action) : bool :=
  match a with
  | Start _ | StopEnter _ | StopLeave _ => false
  | _ => true
  end.

Section Bindings.

Variable json_dumps : gmap string value -> option string.
Variable path_str : PyPath -> string.
Variable str_upper : string -> string.

Arguments _log : simpl never.
Arguments stream_write : simpl never.
Arguments stream_flush : simpl never.
Arguments print : simpl never.

Lemma same_bindings_refl s : same_bindings s s.
Proof using Type. repeat split. Qed.

Lemma same_bindings_trans s1 s2 s3 :
  same_bindings s1 s2 -> same_bindings s2 s3 -> same_bindings s1 s3.
Proof using Type.
  unfold same_bindings. intros H1 H2.
  destruct H1 as (A1 & A2 & A3 & A4 & A5 & A6 & A7 & A8).
  destruct H2 as (B1 & B2 & B3 & B4 & B5 & B6 & B7 & B8).
  split_and!; etransitivity; eassumption.
Qed.

Lemma evolves_same_bindings s s' : evolves s s' -> same_bindings s s'.
Proof using Type.
  intros (Hl & Hp & _). unfold same_bindings. rewrite Hl, Hp. repeat split.
Qed.

Lemma step_same_bindings a s s' :
  between_calls a = true ->
  step json_dumps path_str str_upper a s = Some s' ->
  same_bindings s s'.
Proof using Type.
  destruct a as [t|t|t|t lv m kw|t e|t fd text|t info|i io]; cbn [between_calls step];
    try discriminate; intros _.
  - intros [= <-]. destruct (log_evolves str_upper t lv m kw s) as (o & s1 & -> & H1).
    apply (evolves_same_bindings _ _ H1).
  - intros [= <-]. destruct (_log_evolves t e s) as (s1 & -> & H1).
    apply (evolves_same_bindings _ _ H1).
  - destruct fd; intros [= <-].
    + destruct (stream_write_evolves t (sys_stdout (proc s)) text s) as (s1 & -> & H1).
      apply (evolves_same_bindings _ _ H1).
    + destruct (stream_write_evolves t (sys_stderr (proc s)) text s) as (s1 & -> & H1).
      apply (evolves_same_bindings _ _ H1).
  - intros [= <-].
    unfold _pre_run_cell, bind, gets, modify, ret, utcnow_isoformat, new_dict.
    cbn [fst snd on_logger on_proc logger proc].
    destruct (include_cell_info _); [|repeat split].
    lazymatch goal with |- context [_log ?t ?e ?s0] =>
      destruct (_log_evolves t e s0) as (s1 & -> & H1) end.
    cbn [snd].
    refine (same_bindings_trans _ _ _ _ (evolves_same_bindings _ _ H1)).
    repeat split.
  - unfold _log_writer.
    destruct (threads (proc s) !! i) as [w|]; [|discriminate].
    destruct w; try discriminate;
      repeat lazymatch goal with
             | |- context [if ?b then _ else _] => destruct b
             | |- context [match ?o with Some _ => _ | None => _ end] => destruct o
             | |- context [match ?o with Returned _ => _ | Raised _ => _ end] =>
                 destruct o as [[? ?]|?] || destruct o
             end;
      intros [= <-]; repeat split.
Qed.

Lemma run_same_bindings acts s s' :
  forallb between_calls acts = true ->
  run json_dumps path_str str_upper acts s = Some s' ->
  same_bindings s s'.
Proof using Type.
  revert s. induction acts as [|a acts IH]; intros s; cbn [forallb run].
  - intros _ [= <-]. apply same_bindings_refl.
  - intros Hb. apply andb_prop in Hb as [Ha Hb].
    destruct (step json_dumps path_str str_upper a s) as [s1|] eqn:Hs; [|discriminate].
    intros Hr.
    exact (same_bindings_trans _ _ _ (step_same_bindings _ _ _ Ha Hs) (IH s1 Hb Hr)).
Qed.

(** The handlers of the root logger once [logging.basicConfig] has run. *)
Definition configured (hs : list handler) : list handler :=
  match hs with
  | [] => [StreamHandler]
  | _ => hs
  end.

Lemma start_bindings t s :
  running (logger s) = false ->
  exists s',
    start path_str t s = (Returned tt, s') /\
    running (logger s') = true /\
    capture_print (logger s') = capture_print (logger s) /\
    original_stdout (logger s') = original_stdout (logger s) /\
    original_stderr (logger s') = original_stderr (logger s) /\
    log_handler (logger s') = Some (StructuredLogHandler (next_id (proc s))) /\
    root_handlers (proc s') =
      (if decide (StructuredLogHandler (next_id (proc s))
                  ∈ configured (root_handlers (proc s)))
       then configured (root_handlers (proc s))
       else configured (root_handlers (proc s))
              ++ [StructuredLogHandler (next_id (proc s))]) /\
    sys_stdout (proc s') =
      (if capture_print (logger s)
       then PrintCapture (original_stdout (logger s)) "stdout"
       else sys_stdout (proc s)) /\
    sys_stderr (proc s') =
      (if capture_print (logger s)
       then PrintCapture (original_stderr (logger s)) "stderr"
       else sys_stderr (proc s)).
Proof using Type.
  intros Hrun.
  destruct s as [l p]; destruct l as [? ? cp ? ? r ? ? ? ? ? ?], p as [? ? rh ? ? ? ? ? ? ? ? ?].
  cbn in Hrun; subst r.
  unfold start, acquire, release, spawn_writer, _setup_logging_handler,
    _setup_print_capture, bind, gets, modify, ret, utcnow_isoformat, new_dict. cbn.
  destruct cp, rh as [|h0 rh]; cbn;
    (lazymatch goal with |- context [_log ?t ?e ?s] =>
       destruct (_log_evolves t e s) as (s1 & -> & H1) end);
    (lazymatch goal with |- context [print ?t ?m ?s] =>
       destruct (print_evolves t m s) as (s2 & -> & H2) end);
    pose proof (evolves_same_bindings _ _ (evolves_trans _ _ _ H1 H2)) as H;
    destruct H as (B1 & B2 & B3 & B4 & B5 & B6 & B7 & B8);
    (eexists; split; [reflexivity|]); cbn;
    rewrite B1, B2, B3, B4, B5, B6, B7, B8; cbn;
    split_and!; try reflexivity; repeat case_decide; reflexivity.
Qed.

Lemma stop_bindings t s :
  running (logger s) = true ->
  exists s',
    stop_until_join t s = (Returned true, s') /\
    root_handlers (proc s') =
      match log_handler (logger s) with
      | Some h => remove_first h (root_handlers (proc s))
      | None => root_handlers (proc s)
      end /\
    sys_stdout (proc s') =
      (if capture_print (logger s) then original_stdout (logger s)
       else sys_stdout (proc s)) /\
    sys_stderr (proc s') =
      (if capture_print (logger s) then original_stderr (logger s)
       else sys_stderr (proc s)).
Proof using Type.
  intros Hrun.
  destruct s as [l p]; destruct l as [? ? cp ? ? r ? ? ? ? ? lh], p.
  cbn in Hrun; subst r.
  unfold stop_until_join, acquire, release, bind, gets, modify, ret,
    utcnow_isoformat, new_dict. cbn.
  lazymatch goal with |- context [_log ?t ?e ?s] =>
    destruct (_log_evolves t e s) as (s1 & -> & H1) end.
  destruct (evolves_same_bindings _ _ H1) as (B1 & B2 & B3 & B4 & B5 & B6 & B7 & B8).
  cbn in B1, B2, B3, B4, B5, B6, B7, B8. cbn.
  rewrite B4. destruct lh as [h|]; cbn; rewrite B5; destruct cp; cbn;
    (eexists; split; [reflexivity|]); cbn;
    rewrite ?B1, ?B2, ?B3, ?B6, ?B7; repeat split.
Qed.

Lemma remove_first_last h hs :
  h ∉ hs -> remove_first h (hs ++ [h]) = hs.
Proof using Type.
  induction hs as [|x hs IH]; intros Hn; cbn.
  - case_decide; [reflexivity | congruence].
  - rewrite not_elem_of_cons in Hn. destruct Hn as [Hx Hn].
    case_decide; [congruence|]. rewrite IH by exact Hn. reflexivity.
Qed.

(** [stop()] undoes the bindings of [start()], whatever was logged and
    written in between.  With [capture_print], [sys.stdout] and
    [sys.stderr] are bound again to the streams the constructor saw, not
    to what they were bound to when [start()] was called; without it they
    are never touched.  The handler [start()] added to the root logger is
    removed, while the stream handler that [logging.basicConfig]
    installed on a root logger without handlers stays. *)
Theorem stop_undoes_the_bindings_of_start acts t t' s s1 s2 s3 :
  running (logger s) = false ->
  StructuredLogHandler (next_id (proc s)) ∉ root_handlers (proc s) ->
  step json_dumps path_str str_upper (Start t) s = Some s1 ->
  forallb between_calls acts = true ->
  run json_dumps path_str str_upper acts s1 = Some s2 ->
  step json_dumps path_str str_upper (StopEnter t') s2 = Some s3 ->
  sys_stdout (proc s3) =
    (if capture_print (logger s) then original_stdout (logger s)
     else sys_stdout (proc s)) /\
  sys_stderr (proc s3) =
    (if capture_print (logger s) then original_stderr (logger s)
     else sys_stderr (proc s)) /\
  root_handlers (proc s3) = configured (root_handlers (proc s)) /\
  running (logger s3) = false.
Proof using Type.
  intros Hrun Hfresh Hstart Hacts Hr Hstop.
  cbn [step] in Hstart, Hstop.
  destruct (lock (logger s)); [discriminate|]. injection Hstart as <-.
  destruct (start_bindings t s Hrun)
    as (s1 & Hs1 & R1 & C1 & O1 & E1 & L1 & H1 & So1 & Se1).
  rewrite Hs1 in Hr. cbn [snd] in Hr.
  destruct (run_same_bindings _ _ _ Hacts Hr) as (B1 & B2 & B3 & B4 & B5 & B6 & B7 & B8).
  destruct (lock (logger s2)); [discriminate|]. injection Hstop as <-.
  assert (Hrun2 : running (logger s2) = true) by (rewrite B8; exact R1).
  destruct (stop_running t' s2 Hrun2) as (s3' & d & Hs' & Hr3 & _).
  destruct (stop_bindings t' s2 Hrun2) as (s3 & Hs & Hh & Hso & Hse).
  rewrite Hs in Hs'. injection Hs' as <-. rewrite Hs. cbn [snd].
  rewrite Hso, Hse, Hh, B1, B2, B3, B4, B5, B6, B7, L1, H1, So1, Se1, C1, O1, E1.
  assert (Hn : StructuredLogHandler (next_id (proc s)) ∉ configured (root_handlers (proc s))).
  { unfold configured. destruct (root_handlers (proc s)); [|exact Hfresh].
    rewrite not_elem_of_cons. split; [discriminate | apply not_elem_of_nil]. }
  rewrite decide_False by exact Hn.
  rewrite (remove_first_last _ _ Hn).
  destruct (capture_print (logger s)); repeat split; exact Hr3.
Qed.

(** [start()] does not wait for the writer thread of an earlier run.  A
    writer that has not yet left its loop when the logger is started again
    (the lock being free, so that [start()] is let in) finds [running]
    true at its next loop test and goes on, beside the writer thread the
    new [start()] creates. *)
Theorem restart_leaves_old_writer_running t i s :
  running (logger s) = false ->
  lock (logger s) = false ->
  threads (proc s) !! i = Some WLoop ->
  exists s',
    step json_dumps path_str str_upper (Start t) s = Some s' /\
    start path_str t s = (Returned tt, s') /\
    threads (proc s') !! i = Some WLoop /\
    threads (proc s') !! length (threads (proc s)) = Some WOpen /\
    writer_thread (logger s') = Some (length (threads (proc s))) /\
    i <> length (threads (proc s)) /\
    forall io, _log_writer json_dumps i io s' = Some (set_thread i WGet s').
Proof using Type.
  intros Hrun Hlock Hw.
  destruct (start_not_running path_str t s Hrun)
    as (s' & Hs & Hr & _ & Hwt & Ht & _).
  pose proof (lookup_lt_Some _ _ _ Hw) as Hlt.
  assert (Hi : threads (proc s') !! i = Some WLoop).
  { rewrite Ht. rewrite lookup_app_l by exact Hlt. exact Hw. }
  exists s'. split_and!; try assumption.
  - cbn [step]. rewrite Hlock, Hs. reflexivity.
  - rewrite Ht. rewrite lookup_app_r by lia. rewrite Nat.sub_diag. reflexivity.
  - lia.
  - intros io. unfold _log_writer. rewrite Hi, Hr. reflexivity.
Qed.

End Bindings.

(** ** The records the logger builds *)

Section Records.

Variable json_dumps : gmap string value -> option string.
Variable path_str : PyPath -> string.
Variable str_upper : string -> string.

Arguments _log : simpl never.
Arguments stream_write : simpl never.
Arguments stream_flush : simpl never.
Arguments print : simpl never.

(** [log]: the record that is queued, for keywords none of which is
    named like a parameter of [log] ([self], [level], [message]; with one
    of these the call raises [TypeError]).  A keyword named
    [severity_text] or [body] replaces the level or the message given by
    position; every other keyword becomes a field of the record, except
    that a keyword named [timestamp], [thread_id] or [thread_name] is
    overwritten by the stamp of [_log]. *)
Theorem log_keywords_override_level_and_message t level message kwargs s :
  kwargs !! "self" = None ->
  kwargs !! "level" = None ->
  kwargs !! "message" = None ->
  running (logger s) = true ->
  Queue.full (log_queue (logger s)) = false ->
  exists s' d,
    log str_upper t level message kwargs s = (Returned tt, s') /\
    Queue.queue (log_queue (logger s'))
      = Queue.queue (log_queue (logger s)) ++ [next_id (proc s)] /\
    heap (proc s') !! next_id (proc s) = Some d /\
    d !! "severity_text"
      = Some (default (VStr (str_upper level)) (kwargs !! "severity_text")) /\
    d !! "body" = Some (default message (kwargs !! "body")) /\
    (forall k, k ∉ ["timestamp"; "thread_id"; "thread_name"; "cell_number"; "cell_id";
                    "severity_text"; "body"] ->
               d !! k = kwargs !! k) /\
    d !! "timestamp" = Some (VStr (clock (proc s) (ticks (proc s)) +:+ "Z")) /\
    d !! "thread_id" = Some (VInt (ident t)) /\
    d !! "thread_name" = Some (VStr (name t)).
Proof using Type.
  intros Hk1 Hk2 Hk3 Hrun Hfull.
  destruct s as [l p]; destruct l as [? ? ? q ? r ? ? ? ? ? ?], p.
  cbn in Hrun, Hfull; subst r.
  rewrite (log_accepted str_upper t level message kwargs Hk1 Hk2 Hk3).
  unfold bind, new_dict. cbn.
  lazymatch goal with |- context [_log ?t ?e ?s] =>
    edestruct (_log_running t e s) as
      (s1 & d & HE & _ & Hd & Hts & Hid & Hnm & Hk & _ & _ & _ & _ & _ & _ & Hq);
      [reflexivity | cbn; apply lookup_insert_eq |] end.
  rewrite HE; clear HE. cbn in Hd, Hq, Hts. rewrite Hfull in Hq.
  exists s1, d. split; [reflexivity|]. rewrite Hq. cbn.
  split_and!; try assumption; try reflexivity.
  - rewrite Hk by not_in_keys.
    destruct (kwargs !! "severity_text") as [v|] eqn:Hkw; cbn.
    + apply lookup_union_Some_l. exact Hkw.
    + rewrite lookup_union_r by exact Hkw. map_lookup.
  - rewrite Hk by not_in_keys.
    destruct (kwargs !! "body") as [v|] eqn:Hkw; cbn.
    + apply lookup_union_Some_l. exact Hkw.
    + rewrite lookup_union_r by exact Hkw. map_lookup.
  - intros k Hn. rewrite !not_elem_of_cons in Hn.
    destruct Hn as (N1 & N2 & N3 & N4 & N5 & N6 & N7 & _).
    rewrite Hk by (rewrite !not_elem_of_cons; split_and!; try assumption; apply not_elem_of_nil).
    destruct (kwargs !! k) as [v|] eqn:Hkw.
    + apply lookup_union_Some_l. exact Hkw.
    + rewrite lookup_union_r by exact Hkw.
      rewrite lookup_insert_ne by congruence. rewrite lookup_singleton_ne by congruence.
      reflexivity.
Qed.

Lemma _log_frame t entry s l :
  l <> entry ->
  heap (proc (snd (_log t entry s))) !! l = heap (proc s) !! l.
Proof using Type.
  intros Hne.
  destruct s as [l0 p]; destruct l0 as [? ici ? q ? r ? cc ? ? ? ?], p.
  unfold _log, bind, gets, ret, setitem, modify, utcnow_isoformat, try_except,
    put_nowait, Queue.put_nowait. cbn.
  destruct r; cbn; [|reflexivity].
  destruct ici, cc as [c|]; cbn; try destruct (truthy (cell_id c)); cbn;
    destruct (Queue.full q); cbn;
    rewrite ?lookup_alter_ne by congruence; reflexivity.
Qed.

Lemma _log_next_id t entry s :
  next_id (proc (snd (_log t entry s))) = next_id (proc s).
Proof using Type.
  destruct s as [l0 p]; destruct l0 as [? ici ? q ? r ? cc ? ? ? ?], p.
  unfold _log, bind, gets, ret, setitem, modify, utcnow_isoformat, try_except,
    put_nowait, Queue.put_nowait. cbn.
  destruct r; cbn; [|reflexivity].
  destruct ici, cc as [c|]; cbn; try destruct (truthy (cell_id c)); cbn;
    destruct (Queue.full q); reflexivity.
Qed.

Lemma stream_flush_heap f s :
  heap (proc (snd (stream_flush f s))) = heap (proc s) /\
  next_id (proc (snd (stream_flush f s))) = next_id (proc s).
Proof using Type.
  induction f as [fd|f IH nm].
  - unfold stream_flush, modify. destruct fd; split; reflexivity.
  - exact IH.
Qed.

(** Writing to a stream leaves every dict that exists alone. *)
Lemma stream_write_frame t f text s :
  (next_id (proc s) <= next_id (proc (snd (stream_write t f text s))))%nat /\
  forall l, (l < next_id (proc s))%nat ->
            heap (proc (snd (stream_write t f text s))) !! l = heap (proc s) !! l.
Proof using Type.
  revert s. induction f as [fd|f IH nm]; intros s.
  - unfold stream_write, bind, modify, ret.
    destruct fd; split; [cbn; lia | reflexivity | cbn; lia | reflexivity].
  - change (stream_write t (PrintCapture f nm) text)
      with (stream_write t f text ;;
            stream_flush f ;;
            (if str_truthy text && str_truthy (strip text) then
               now <- utcnow_isoformat ;;
               entry <- new_dict
                 {[ "severity_text" :=
                      VStr (if String.eqb nm "stderr" then "ERROR" else "INFO");
                    "body" := VStr (rstrip text);
                    "source" := VStr "print";
                    "stream" := VStr nm;
                    "timestamp" := VStr (now +:+ "Z") ]} ;;
               _log t entry
             else ret tt) ;;
            ret (String.length text)).
    destruct (IH s) as [Hn Hh].
    destruct (stream_write_evolves t f text s) as (s1 & Hs1 & _).
    rewrite Hs1 in Hn, Hh. cbn [snd] in Hn, Hh.
    destruct (stream_flush_heap f s1) as [Hh2 Hn2].
    destruct (stream_flush_evolves f s1) as (s2 & Hs2 & _).
    rewrite Hs2 in Hh2, Hn2. cbn [snd] in Hh2, Hn2.
    unfold bind. rewrite Hs1, Hs2.
    destruct (str_truthy text && str_truthy (strip text)).
    + unfold utcnow_isoformat, new_dict, ret.
      cbn [on_proc proc logger next_id set_ticks set_next_id set_heap heap].
      lazymatch goal with |- context [_log ?t ?e ?s0] =>
        pose proof (_log_next_id t e s0) as Hn3;
        pose proof (fun l => _log_frame t e s0 l) as Hh3;
        destruct (_log_evolves t e s0) as (s3 & Hs3 & _) end.
      rewrite Hs3 in Hn3, Hh3 |- *. cbn [snd] in Hn3, Hh3 |- *.
      cbn in Hn3, Hh3. split; [lia|].
      intros l Hl. rewrite Hh3 by lia.
      rewrite lookup_insert_ne by lia. rewrite Hh2. apply Hh. exact Hl.
    + unfold ret. cbn [snd]. split; [lia|].
      intros l Hl. rewrite Hh2. apply Hh. exact Hl.
Qed.

Lemma print_frame t msg s :
  forall l, (l < next_id (proc s))%nat ->
            heap (proc (snd (print t msg s))) !! l = heap (proc s) !! l.
Proof using Type.
  intros l Hl. unfold print, bind, gets, ret.
  destruct (stream_write_frame t (sys_stdout (proc s)) msg s) as [Hn1 Hh1].
  destruct (stream_write_evolves t (sys_stdout (proc s)) msg s) as (s1 & Hs1 & _).
  rewrite Hs1 in Hn1, Hh1 |- *. cbn [snd] in Hn1, Hh1.
  destruct (stream_write_frame t (sys_stdout (proc s)) LF s1) as [Hn2 Hh2].
  destruct (stream_write_evolves t (sys_stdout (proc s)) LF s1) as (s2 & Hs2 & _).
  rewrite Hs2 in Hn2, Hh2 |- *. cbn [snd] in Hn2, Hh2 |- *.
  rewrite Hh2 by lia. apply Hh1. exact Hl.
Qed.

Lemma _setup_logging_handler_state s :
  exists hs,
    _setup_logging_handler s
    = (Returned tt,
       on_proc (fun p => set_root_handlers hs (set_next_id (S (next_id p)) p))
         (on_logger (set_log_handler (Some (StructuredLogHandler (next_id (proc s))))) s)).
Proof using Type.
  destruct s as [l p]; destruct l, p as [? ? rh ? ? ? ? ? ? ? ? ?].
  unfold _setup_logging_handler, bind, gets, modify, ret, on_proc, on_logger. cbn.
  destruct rh as [|h0 rh]; cbn;
    (lazymatch goal with |- context [decide ?P] => destruct (decide P) end);
    eexists; reflexivity.
Qed.

Lemma start_startup_record t s :
  running (logger s) = false ->
  Queue.full (log_queue (logger s)) = false ->
  exists s' d rest,
    start path_str t s = (Returned tt, s') /\
    Queue.queue (log_queue (logger s'))
      = Queue.queue (log_queue (logger s)) ++ S (next_id (proc s)) :: rest /\
    heap (proc s') !! S (next_id (proc s)) = Some d /\
    d !! "severity_text" = Some (VStr "INFO") /\
    d !! "body" = Some (VStr "Notebook logger started") /\
    d !! "log_file" = Some (VStr (path_str (log_file (logger s)))) /\
    d !! "timestamp" = Some (VStr (clock (proc s) (S (ticks (proc s))) +:+ "Z")) /\
    d !! "thread_id" = Some (VInt (ident t)) /\
    d !! "thread_name" = Some (VStr (name t)).
Proof using Type.
  intros Hrun Hfull.
  destruct s as [l p]; destruct l as [? ? cp q ? r ? ? ? ? ? ?], p.
  cbn in Hrun, Hfull; subst r.
  unfold start, acquire, release, spawn_writer, bind, gets, modify, ret.
  cbn -[_setup_logging_handler _setup_print_capture utcnow_isoformat new_dict].
  lazymatch goal with |- context [_setup_logging_handler ?s0] =>
    destruct (_setup_logging_handler_state s0) as (hs & ->) end.
  unfold _setup_print_capture, bind, gets, modify, ret, utcnow_isoformat, new_dict. cbn.
  destruct cp; cbn;
    (lazymatch goal with |- context [_log ?t ?e ?s] =>
       edestruct (_log_running t e s) as
         (s1 & d & HE & _ & Hd & Hts & Hid & Hnm & Hk & _ & _ & Hni & _ & _ & _ & Hq);
         [reflexivity | cbn; apply lookup_insert_eq |] end);
    rewrite HE; clear HE; cbn in Hd, Hts, Hni, Hq; rewrite Hfull in Hq;
    (lazymatch goal with |- context [print ?t ?m ?s] =>
       pose proof (print_frame t m s) as Hfr;
       destruct (print_evolves t m s) as (s2 & Hs2 & H2) end);
    rewrite Hs2 in Hfr |- *; cbn [snd] in Hfr;
    destruct (evolves_queue _ _ H2) as [_ (rest & Hrest & _)];
    exists (on_logger (set_lock false) s2), d, rest;
    (split; [reflexivity|]); cbn;
    rewrite Hrest, Hq; cbn; rewrite <- app_assoc;
    (split; [reflexivity|]);
    (split; [rewrite Hfr by (rewrite Hni; lia); exact Hd|]);
    split_and!; first [assumption | rewrite Hk; [map_lookup | not_in_keys]].
Qed.

(** [start()] on a logger that is not running and whose lock is free
    queues the startup record: its [body], its [log_file], the stamp of
    the calling thread, and as [timestamp] the reading of the clock that
    [_log] takes, which replaces the earlier reading the record was built
    with. *)
Theorem start_queues_startup_record t s :
  running (logger s) = false ->
  lock (logger s) = false ->
  Queue.full (log_queue (logger s)) = false ->
  exists s' d rest,
    step json_dumps path_str str_upper (Start t) s = Some s' /\
    start path_str t s = (Returned tt, s') /\
    Queue.queue (log_queue (logger s'))
      = Queue.queue (log_queue (logger s)) ++ S (next_id (proc s)) :: rest /\
    heap (proc s') !! S (next_id (proc s)) = Some d /\
    d !! "severity_text" = Some (VStr "INFO") /\
    d !! "body" = Some (VStr "Notebook logger started") /\
    d !! "log_file" = Some (VStr (path_str (log_file (logger s)))) /\
    d !! "timestamp" = Some (VStr (clock (proc s) (S (ticks (proc s))) +:+ "Z")) /\
    d !! "thread_id" = Some (VInt (ident t)) /\
    d !! "thread_name" = Some (VStr (name t)).
Proof using Type.
  intros Hrun Hlock Hfull.
  destruct (start_startup_record t s Hrun Hfull) as (s' & d & rest & Hs & H).
  exists s', d, rest. split; [|split; [exact Hs | exact H]].
  cbn [step]. rewrite Hlock, Hs. reflexivity.
Qed.

Lemma capture_write_unfold t f nm text :
  stream_write t (PrintCapture f nm) text
  = (stream_write t f text ;;
     stream_flush f ;;
     (if str_truthy text && str_truthy (strip text) then
        now <- utcnow_isoformat ;;
        entry <- new_dict
          {[ "severity_text" :=
               VStr (if String.eqb nm "stderr" then "ERROR" else "INFO");
             "body" := VStr (rstrip text);
             "source" := VStr "print";
             "stream" := VStr nm;
             "timestamp" := VStr (now +:+ "Z") ]} ;;
        _log t entry
      else ret tt) ;;
     ret (String.length text)).
Proof using Type. reflexivity. Qed.

(** A write of white space only through a [PrintCapture] is passed on
    and flushed, and nothing else happens. *)
Lemma capture_write_blank t fd nm text s :
  str_truthy (strip text) = false ->
  stream_write t (PrintCapture (Real fd) nm) text s
  = (Returned (String.length text),
     on_proc (fun p => tty_flush fd (tty_write fd text p)) s).
Proof using Type.
  intros Hb. rewrite capture_write_unfold, nonblank_nonempty, Hb.
  unfold stream_write, stream_flush, bind, modify, ret.
  destruct s as [l p]; destruct fd; reflexivity.
Qed.

(** A write of other text through a [PrintCapture] while the logger runs. *)
Lemma capture_write_record t fd nm text s :
  running (logger s) = true ->
  str_truthy (strip text) = true ->
  exists s' d,
    stream_write t (PrintCapture (Real fd) nm) text s
      = (Returned (String.length text), s') /\
    evolves s s' /\
    tty fd (proc s') = console_flush (console_write text (tty fd (proc s))) /\
    next_id (proc s') = S (next_id (proc s)) /\
    (forall l, l <> next_id (proc s) -> heap (proc s') !! l = heap (proc s) !! l) /\
    heap (proc s') !! next_id (proc s) = Some d /\
    d !! "body" = Some (VStr (rstrip text)) /\
    d !! "severity_text" =
      Some (VStr (if String.eqb nm "stderr" then "ERROR" else "INFO")) /\
    d !! "source" = Some (VStr "print") /\
    d !! "stream" = Some (VStr nm) /\
    d !! "timestamp" = Some (VStr (clock (proc s) (S (ticks (proc s))) +:+ "Z")) /\
    d !! "thread_id" = Some (VInt (ident t)) /\
    d !! "thread_name" = Some (VStr (name t)) /\
    log_queue (logger s') =
      (if Queue.full (log_queue (logger s)) then log_queue (logger s)
       else Queue.mk (Queue.maxsize (log_queue (logger s)))
                     (Queue.queue (log_queue (logger s)) ++ [next_id (proc s)])
                     (S (Queue.unfinished_tasks (log_queue (logger s))))).
Proof using Type.
  intros Hrun Hb.
  destruct (stream_write_evolves t (PrintCapture (Real fd) nm) text s) as (s' & Hs & He).
  exists s'. revert Hs.
  rewrite capture_write_unfold, nonblank_nonempty, Hb.
  destruct s as [l p]; destruct l as [? ? ? q ? r ? ? ? ? ? ?], p.
  cbn in Hrun; subst r.
  unfold stream_write, stream_flush, bind, modify, ret, utcnow_isoformat, new_dict.
  destruct fd; cbn;
    (lazymatch goal with |- context [_log ?t ?e ?s] =>
       edestruct (_log_running t e s) as
         (s1 & d & HE & _ & Hd & Hts & Hid & Hnm & Hk & _ & Hfr & Hni & _ & Hout & Herr & Hq);
         [reflexivity | cbn; apply lookup_insert_eq |] end);
    rewrite HE; clear HE; cbn in Hd, Hts, Hni, Hq, Hout, Herr, Hfr;
    intros [= <-]; exists d;
    (split; [reflexivity|]); (split; [exact He|]); cbn;
    (split; [first [exact Hout | exact Herr]|]);
    (split; [exact Hni|]);
    (split; [intros l Hl; rewrite (Hfr l Hl); apply lookup_insert_ne; congruence|]);
    split_and!;
    first [assumption | rewrite Hk; [map_lookup | not_in_keys]].
Qed.

Lemma captured_print t fd nm msg s :
  running (logger s) = true ->
  Queue.full (log_queue (logger s)) = false ->
  sys_stdout (proc s) = PrintCapture (Real fd) nm ->
  str_truthy (strip msg) = true ->
  exists s' d,
    print t msg s = (Returned tt, s') /\
    Queue.queue (log_queue (logger s'))
      = Queue.queue (log_queue (logger s)) ++ [next_id (proc s)] /\
    heap (proc s') !! next_id (proc s) = Some d /\
    d !! "body" = Some (VStr (rstrip msg)) /\
    d !! "severity_text" =
      Some (VStr (if String.eqb nm "stderr" then "ERROR" else "INFO")) /\
    d !! "source" = Some (VStr "print") /\
    d !! "stream" = Some (VStr nm) /\
    tty fd (proc s')
      = console_flush (console_write LF
          (console_flush (console_write msg (tty fd (proc s))))).
Proof using Type.
  intros Hrun Hfull Hout Hb.
  destruct (capture_write_record t fd nm msg s Hrun Hb)
    as (s1 & d & Hs1 & He & Htty & Hni & Hfr & Hd & Hbody & Hsev & Hsrc & Hstr & _ & _ & _ & Hq).
  rewrite Hfull in Hq.
  assert (Hblank : str_truthy (strip LF) = false) by reflexivity.
  unfold print, bind, gets, ret. rewrite Hout, Hs1.
  rewrite (capture_write_blank t fd nm LF s1 Hblank).
  exists (on_proc (fun p => tty_flush fd (tty_write fd LF p)) s1), d.
  split; [reflexivity|].
  cbn [on_proc logger proc]. rewrite Hq. cbn [Queue.queue].
  split; [reflexivity|].
  split; [destruct fd; exact Hd|].
  split; [exact Hbody|]. split; [exact Hsev|]. split; [exact Hsrc|]. split; [exact Hstr|].
  destruct fd; cbn in Htty |- *; rewrite Htty; reflexivity.
Qed.

(** With [capture_print], one call of [print] with a text that is not
    blank queues exactly one record: the text is written and the line end
    is written apart, and only the first write is logged.  The body is the
    text without the white space at its end; the stream receives the text
    and the line end, each flushed at once. *)
Theorem captured_print_queues_one_record t fd nm msg s :
  running (logger s) = true ->
  Queue.full (log_queue (logger s)) = false ->
  sys_stdout (proc s) = PrintCapture (Real fd) nm ->
  str_truthy (strip msg) = true ->
  exists s' d,
    print t msg s = (Returned tt, s') /\
    Queue.queue (log_queue (logger s'))
      = Queue.queue (log_queue (logger s)) ++ [next_id (proc s)] /\
    heap (proc s') !! next_id (proc s) = Some d /\
    d !! "body" = Some (VStr (rstrip msg)) /\
    d !! "source" = Some (VStr "print") /\
    d !! "stream" = Some (VStr nm) /\
    tty fd (proc s')
      = console_flush (console_write LF
          (console_flush (console_write msg (tty fd (proc s))))).
Proof using Type.
  intros Hrun Hfull Hout Hb.
  destruct (captured_print t fd nm msg s Hrun Hfull Hout Hb)
    as (s' & d & H1 & H2 & H3 & H4 & _ & H5 & H6 & H7).
  exists s', d. split_and!; assumption.
Qed.

Lemma strip_keeps_text a text :
  isspace a = false -> str_truthy (strip (String a text)) = true.
Proof using Type.
  intros Ha. unfold strip. cbn [rstrip].
  destruct (rstrip text); rewrite ?Ha; cbn [lstrip]; rewrite Ha; reflexivity.
Qed.

Lemma start_capture_announcement t fd s :
  running (logger s) = false ->
  capture_print (logger s) = true ->
  original_stdout (logger s) = Real fd ->
  Queue.maxsize (log_queue (logger s)) <= 0 \/
  Z.of_nat (length (Queue.queue (log_queue (logger s)))) + 2
    <= Queue.maxsize (log_queue (logger s)) ->
  exists s' d,
    start path_str t s = (Returned tt, s') /\
    Queue.queue (log_queue (logger s'))
      = Queue.queue (log_queue (logger s))
        ++ [S (next_id (proc s)); S (S (next_id (proc s)))] /\
    heap (proc s') !! S (S (next_id (proc s))) = Some d /\
    d !! "body"
      = Some (VStr (rstrip ("Structured logging started: "
                            +:+ path_str (log_file (logger s))))) /\
    d !! "severity_text" = Some (VStr "INFO") /\
    d !! "source" = Some (VStr "print") /\
    d !! "stream" = Some (VStr "stdout") /\
    tty fd (proc s')
      = console_flush (console_write LF
          (console_flush
             (console_write ("Structured logging started: "
                             +:+ path_str (log_file (logger s)))
                (tty fd (proc s))))).
Proof using Type.
  intros Hrun Hcp Horig Hroom.
  destruct s as [l p]; destruct l as [? ? cp q ? r ? ? ? oo ? ?], p.
  cbn in Hrun, Hcp, Horig, Hroom; subst r cp oo.
  assert (Hfull : Queue.full q = false).
  { unfold Queue.full. destruct Hroom as [Hm | Hm].
    - replace (0 <? Queue.maxsize q) with false by (symmetry; apply Z.ltb_ge; lia).
      reflexivity.
    - replace (Queue.maxsize q <=? Z.of_nat (length (Queue.queue q))) with false
        by (symmetry; apply Z.leb_gt; lia).
      apply andb_false_r. }
  unfold start, acquire, release, spawn_writer, bind, gets, modify, ret.
  cbn -[_setup_logging_handler _setup_print_capture utcnow_isoformat new_dict].
  lazymatch goal with |- context [_setup_logging_handler ?s0] =>
    destruct (_setup_logging_handler_state s0) as (hs & ->) end.
  unfold _setup_print_capture, bind, gets, modify, ret, utcnow_isoformat, new_dict. cbn.
  lazymatch goal with |- context [_log ?t ?e ?s] =>
    edestruct (_log_running t e s) as
      (s1 & d1 & HE & He & _ & _ & _ & _ & _ & _ & _ & Hni & _ & Hout & Herr & Hq);
      [reflexivity | cbn; apply lookup_insert_eq |] end.
  rewrite HE; clear HE. cbn in Hni, Hq, Hout, Herr. rewrite Hfull in Hq.
  destruct (evolves_same_bindings _ _ He) as (B1 & _ & _ & _ & _ & _ & _ & B8).
  cbn in B1, B8.
  assert (Hfull1 : Queue.full (log_queue (logger s1)) = false).
  { rewrite Hq. unfold Queue.full. cbn [Queue.maxsize Queue.queue].
    rewrite length_app. cbn [length]. destruct Hroom as [Hm | Hm].
    - replace (0 <? Queue.maxsize q) with false by (symmetry; apply Z.ltb_ge; lia).
      reflexivity.
    - replace (Queue.maxsize q <=? Z.of_nat (length (Queue.queue q) + 1)) with false
        by (symmetry; apply Z.leb_gt; lia).
      apply andb_false_r. }
  edestruct (captured_print t fd "stdout"
               ("Structured logging started: " +:+ path_str log_file0) s1 B8 Hfull1 B1)
    as (s2 & d & Hs2 & Hq2 & Hd & Hbody & Hsev & Hsrc & Hstr & Htty).
  { apply strip_keeps_text. reflexivity. }
  rewrite Hs2. exists (on_logger (set_lock false) s2), d.
  split; [reflexivity|]. cbn [on_logger logger proc log_queue set_lock].
  rewrite Hq2, Hq, Hni. cbn [Queue.queue]. rewrite <- app_assoc.
  split; [reflexivity|]. rewrite Hni in Hd.
  split; [exact Hd|]. split; [exact Hbody|]. split; [exact Hsev|].
  split; [exact Hsrc|]. split; [exact Hstr|].
  rewrite Htty. destruct fd; cbn [tty]; rewrite ?Hout, ?Herr; reflexivity.
Qed.

(** With [capture_print], the line that [start()] (let in by a free
    lock) prints at its end goes through the [PrintCapture] just
    installed while the logger already runs: it reaches the original
    stream and is queued as a record of its own, right after the startup
    record. *)
Theorem start_with_capture_logs_its_announcement t fd s :
  running (logger s) = false ->
  lock (logger s) = false ->
  capture_print (logger s) = true ->
  original_stdout (logger s) = Real fd ->
  Queue.maxsize (log_queue (logger s)) <= 0 \/
  Z.of_nat (length (Queue.queue (log_queue (logger s)))) + 2
    <= Queue.maxsize (log_queue (logger s)) ->
  exists s' d,
    step json_dumps path_str str_upper (Start t) s = Some s' /\
    start path_str t s = (Returned tt, s') /\
    Queue.queue (log_queue (logger s'))
      = Queue.queue (log_queue (logger s))
        ++ [S (next_id (proc s)); S (S (next_id (proc s)))] /\
    heap (proc s') !! S (S (next_id (proc s))) = Some d /\
    d !! "body"
      = Some (VStr (rstrip ("Structured logging started: "
                            +:+ path_str (log_file (logger s))))) /\
    d !! "severity_text" = Some (VStr "INFO") /\
    d !! "source" = Some (VStr "print") /\
    d !! "stream" = Some (VStr "stdout") /\
    tty fd (proc s')
      = console_flush (console_write LF
          (console_flush
             (console_write ("Structured logging started: "
                             +:+ path_str (log_file (logger s)))
                (tty fd (proc s))))).
Proof using Type.
  intros Hrun Hlock Hcp Horig Hroom.
  destruct (start_capture_announcement t fd s Hrun Hcp Horig Hroom) as (s' & d & Hs & H).
  exists s', d. split; [|split; [exact Hs | exact H]].
  cbn [step]. rewrite Hlock, Hs. reflexivity.
Qed.

End Records.

(** ** Cell tracking *)

(** The argument of [_post_run_cell]: [result.error_in_exec], [None] or an
    exception (an exception object is true), kept as its [str()], and
    [result.success]. *)
Record ExecResult := mkExecResult {
  error_in_exec : option string;
  success : bool
}.

(** [_post_run_cell(self, result)], called by thread [t].  A
    [current_cell] that is a dict has three keys, so it is true. *)
Definition _post_run_cell (t : Thread) (result : ExecResult) : M unit :=
  ici <- gets (fun s => include_cell_info (logger s)) ;;
  cc <- gets (fun s => current_cell (logger s)) ;;
  match ici, cc with
  | true, Some _ =>
      n <- gets (fun s => cell_count (logger s)) ;;
      now <- utcnow_isoformat ;;
      log_entry <- new_dict
        {[ "severity_text" :=
             VStr (match error_in_exec result with
                   | Some _ => "ERROR"
                   | None => "DEBUG"
                   end);
           "body" := VStr ("Cell " +:+ pretty n +:+ " execution completed");
           "event" := VStr "cell_end";
           "success" := VBool (success result);
           "timestamp" := VStr (now +:+ "Z") ]} ;;
      match error_in_exec result with
      | Some msg => setitem log_entry "error" (VStr msg)
      | None => ret tt
      end ;;
      _log t log_entry
  | _, _ => ret tt
  end ;;
  modify (on_logger (set_current_cell None)).

Section Cells.

Arguments _log : simpl never.
Arguments str_take : simpl never.
Arguments pretty : simpl never.

(** [_pre_run_cell] counts the cell and makes it current: from then on
    every record that [_log] stamps carries the number of the cell, and
    its [cell_id] when the notification had a true one.  The cell is made
    current before the [cell_start] record is handed to [_log], so that
    record carries the number too. *)
Theorem pre_run_cell_sets_the_cell_context t info s :
  running (logger s) = true ->
  include_cell_info (logger s) = true ->
  Queue.full (log_queue (logger s)) = false ->
  exists s' d0,
    _pre_run_cell t info s = (Returned tt, s') /\
    cell_count (logger s') = cell_count (logger s) + 1 /\
    Queue.queue (log_queue (logger s'))
      = Queue.queue (log_queue (logger s)) ++ [next_id (proc s)] /\
    heap (proc s') !! next_id (proc s) = Some d0 /\
    d0 !! "event" = Some (VStr "cell_start") /\
    d0 !! "severity_text" = Some (VStr "DEBUG") /\
    d0 !! "body"
      = Some (VStr ("Cell " +:+ pretty (cell_count (logger s) + 1)
                    +:+ " execution started")) /\
    d0 !! "cell_preview"
      = Some (VStr (match raw_cell info with
                    | Some src => str_take 100 src
                    | None => ""
                    end)) /\
    d0 !! "cell_number" = Some (VInt (cell_count (logger s) + 1)) /\
    forall t' entry d,
      heap (proc s') !! entry = Some d ->
      exists d',
        heap (proc (snd (_log t' entry s'))) !! entry = Some d' /\
        d' !! "cell_number" = Some (VInt (cell_count (logger s) + 1)) /\
        d' !! "cell_id" = (if truthy (info_cell_id info) then Some (info_cell_id info)
                           else d !! "cell_id").
Proof.
  intros Hrun Hici Hfull.
  destruct s as [l p]; destruct l as [? ici ? q ? r ? cc n ? ? ?],
    p as [? ? ? ? ? ? ? ? ? ? ck tk].
  cbn in Hrun, Hici, Hfull; subst r ici.
  unfold _pre_run_cell, bind, gets, modify, ret, utcnow_isoformat, new_dict. cbn.
  lazymatch goal with |- context [_log ?t ?e ?s] =>
    pose proof (_log_cell_context t e s _ _ eq_refl eq_refl eq_refl
                  (lookup_insert_eq _ _ _)) as (d0' & Hd0' & Hnum & _);
    edestruct (_log_running t e s) as
      (s1 & d0 & HE & He & Hd & _ & _ & _ & Hk & _ & _ & _ & _ & _ & _ & Hq);
      [reflexivity | cbn; apply lookup_insert_eq |] end.
  rewrite HE in Hd0' |- *; clear HE. cbn in Hd, Hq, Hd0', Hnum.
  rewrite Hfull in Hq. rewrite Hd in Hd0'. injection Hd0' as <-.
  pose proof (evolves_logger _ _ He) as Hl. cbn in Hl.
  exists s1, d0. split; [reflexivity|].
  split; [rewrite Hl; reflexivity|].
  split; [rewrite Hq; reflexivity|].
  split; [exact Hd|].
  split; [rewrite Hk; [map_lookup | not_in_keys]|].
  split; [rewrite Hk; [map_lookup | not_in_keys]|].
  split; [rewrite Hk; [map_lookup | not_in_keys]|].
  split.
  { rewrite Hk; [|not_in_keys]. map_lookup.
    destruct (raw_cell info) as [src|]; [|reflexivity].
    destruct src; reflexivity. }
  split; [exact Hnum|].
  intros t' entry d Hentry.
  assert (Hcc : current_cell (logger s1)
                = Some (mkCell (n + 1) (info_cell_id info) (ck tk))).
  { rewrite Hl. reflexivity. }
  assert (Hr1 : running (logger s1) = true) by (rewrite Hl; reflexivity).
  assert (Hi1 : include_cell_info (logger s1) = true) by (rewrite Hl; reflexivity).
  exact (_log_cell_context t' entry s1 _ d Hr1 Hi1 Hcc Hentry).
Qed.

(** [_post_run_cell] while a cell is current: the [cell_end] record is
    queued with the number of the cell, with severity [ERROR] and an
    [error] field exactly when the execution raised; then the cell is no
    longer current, so that later records are stamped without cell
    fields. *)
Theorem post_run_cell_logs_the_end_and_clears_the_cell t result c s :
  running (logger s) = true ->
  include_cell_info (logger s) = true ->
  current_cell (logger s) = Some c ->
  Queue.full (log_queue (logger s)) = false ->
  exists s' d,
    _post_run_cell t result s = (Returned tt, s') /\
    current_cell (logger s') = None /\
    cell_count (logger s') = cell_count (logger s) /\
    Queue.queue (log_queue (logger s'))
      = Queue.queue (log_queue (logger s)) ++ [next_id (proc s)] /\
    heap (proc s') !! next_id (proc s) = Some d /\
    d !! "event" = Some (VStr "cell_end") /\
    d !! "severity_text"
      = Some (VStr (match error_in_exec result with
                    | Some _ => "ERROR"
                    | None => "DEBUG"
                    end)) /\
    d !! "body"
      = Some (VStr ("Cell " +:+ pretty (cell_count (logger s))
                    +:+ " execution completed")) /\
    d !! "success" = Some (VBool (success result)) /\
    d !! "error" = (VStr <$> error_in_exec result) /\
    d !! "cell_number" = Some (VInt (cell_number c)) /\
    forall t' entry d0,
      heap (proc s') !! entry = Some d0 ->
      exists d',
        heap (proc (snd (_log t' entry s'))) !! entry = Some d' /\
        d' !! "cell_number" = d0 !! "cell_number" /\
        d' !! "cell_id" = d0 !! "cell_id".
Proof.
  intros Hrun Hici Hcc Hfull.
  destruct s as [l p]; destruct l as [? ici ? q ? r ? cc n ? ? ?],
    p as [? ? ? ? ? ? ? ? ? ? ck tk].
  cbn in Hrun, Hici, Hcc, Hfull; subst r ici cc.
  unfold _post_run_cell, bind, gets, modify, ret, utcnow_isoformat, new_dict, setitem.
  destruct result as [err ok]. cbn.
  assert (Hlater : forall s1 : State,
            running (logger s1) = true ->
            forall t' entry d0,
              heap (proc (on_logger (set_current_cell None) s1)) !! entry = Some d0 ->
              exists d',
                heap (proc (snd (_log t' entry (on_logger (set_current_cell None) s1))))
                  !! entry = Some d' /\
                d' !! "cell_number" = d0 !! "cell_number" /\
                d' !! "cell_id" = d0 !! "cell_id").
  { intros s1 Hr1 t' entry d0 Hentry.
    destruct (_log_running t' entry (on_logger (set_current_cell None) s1) d0)
      as (s2 & d' & HE & _ & Hd' & _ & _ & _ & _ & Hk & _); [exact Hr1 | exact Hentry |].
    rewrite HE. exists d'. split; [exact Hd'|].
    split; apply Hk; try (right; reflexivity); not_in_keys. }
  destruct err as [msg|]; cbn;
    (lazymatch goal with |- context [_log ?t ?e ?s] =>
       pose proof (_log_cell_context t e s c) as Hctx;
       edestruct (_log_running t e s) as
         (s1 & d & HE & He & Hd & _ & _ & _ & Hk & _ & _ & _ & _ & _ & _ & Hq);
         [reflexivity | cbn; first [rewrite lookup_alter_eq, lookup_insert_eq; reflexivity
                                   | apply lookup_insert_eq] |] end);
    (edestruct Hctx as (d1 & Hd1 & Hnum & _);
       [reflexivity | reflexivity | reflexivity
        | cbn; first [rewrite lookup_alter_eq, lookup_insert_eq; reflexivity
                     | apply lookup_insert_eq] |]);
    rewrite HE in Hd1 |- *; clear HE Hctx; cbn in Hd, Hq, Hd1, Hnum;
    rewrite Hfull in Hq; rewrite Hd in Hd1; injection Hd1 as <-;
    pose proof (evolves_logger _ _ He) as Hl; cbn in Hl;
    exists (on_logger (set_current_cell None) s1), d;
    (split; [reflexivity|]);
    (split; [reflexivity|]);
    (split; [cbn; rewrite Hl; reflexivity|]);
    (split; [cbn; rewrite Hq; reflexivity|]);
    (split; [exact Hd|]);
    (split; [rewrite Hk; [map_lookup | not_in_keys]|]);
    (split; [rewrite Hk; [map_lookup | not_in_keys]|]);
    (split; [rewrite Hk; [map_lookup | not_in_keys]|]);
    (split; [rewrite Hk; [map_lookup | not_in_keys]|]);
    (split; [rewrite Hk; [map_lookup | not_in_keys]|]);
    (split; [exact Hnum|]);
    apply Hlater; rewrite Hl; reflexivity.
Qed.

End Cells.

(** ** The logging handler *)

Module LogRecord.

(** The attributes of a [logging.LogRecord] that [emit] reads.
    [exc_info] is the truth value of [record.exc_info]. *)
Record t := mk {
  levelname : string;
  name : string;
  module : string;
  funcName : string;
  lineno : Z;
  exc_info : bool
}.

End LogRecord.

(** What [emit] may raise: an exception of the library, or the
    [AttributeError] of a missing attribute. *)
Inductive emit_exn :=
| Library (e : exn)
| AttributeError.

Section Emit.

(** [format record] is [self.format(record)] of [logging.Handler]: the
    formatted message, or the exception the formatting raises. *)
Variable format : LogRecord.t -> outcome string.

Arguments _log : simpl never.

(** [StructuredLogHandler.emit(self, record)], called by thread [t].
    The class derives from [logging.Handler], which has a method [format]
    and none called [formatException] (that one belongs to
    [logging.Formatter]): for a record with exception information the
    attribute lookup [self.formatException] raises [AttributeError]. *)
Definition emit (t : Thread) (record : LogRecord.t)
    : State -> (emit_exn + unit) * State :=
  fun s =>
    match format record with
    | Raised e => (inl (Library e), s)
    | Returned body =>
        match (now <- utcnow_isoformat ;;
               new_dict
                 {[ "severity_text" := VStr (LogRecord.levelname record);
                    "body" := VStr body;
                    "logger_name" := VStr (LogRecord.name record);
                    "module" := VStr (LogRecord.module record);
                    "function" := VStr (LogRecord.funcName record);
                    "line" := VInt (LogRecord.lineno record);
                    "timestamp" := VStr (now +:+ "Z") ]}) s with
        | (Raised e, s1) => (inl (Library e), s1)
        | (Returned log_entry, s1) =>
            if LogRecord.exc_info record then (inl AttributeError, s1)
            else
              match _log t log_entry s1 with
              | (Returned _, s2) => (inr tt, s2)
              | (Raised e, s2) => (inl (Library e), s2)
              end
        end
    end.

(** A record without exception information, emitted while the logger
    runs and its queue has room, is queued with the level name, the
    formatted message and the place of the call.  Its [timestamp] is the
    reading [_log] takes, one later than the reading [emit] built the
    entry with. *)
Theorem emit_queues_the_record t record body s :
  running (logger s) = true ->
  Queue.full (log_queue (logger s)) = false ->
  format record = Returned body ->
  LogRecord.exc_info record = false ->
  exists s' d,
    emit t record s = (inr tt, s') /\
    Queue.queue (log_queue (logger s'))
      = Queue.queue (log_queue (logger s)) ++ [next_id (proc s)] /\
    heap (proc s') !! next_id (proc s) = Some d /\
    d !! "severity_text" = Some (VStr (LogRecord.levelname record)) /\
    d !! "body" = Some (VStr body) /\
    d !! "logger_name" = Some (VStr (LogRecord.name record)) /\
    d !! "module" = Some (VStr (LogRecord.module record)) /\
    d !! "function" = Some (VStr (LogRecord.funcName record)) /\
    d !! "line" = Some (VInt (LogRecord.lineno record)) /\
    d !! "exception" = None /\
    d !! "timestamp" = Some (VStr (clock (proc s) (S (ticks (proc s))) +:+ "Z")) /\
    d !! "thread_id" = Some (VInt (ident t)) /\
    d !! "thread_name" = Some (VStr (name t)).
Proof using Type.
  intros Hrun Hfull Hfmt Hexc.
  destruct s as [l p]; destruct l as [? ? ? q ? r ? ? ? ? ? ?], p.
  cbn in Hrun, Hfull; subst r.
  unfold emit, bind, utcnow_isoformat, new_dict. rewrite Hfmt, Hexc. cbn.
  lazymatch goal with |- context [_log ?t ?e ?s] =>
    edestruct (_log_running t e s) as
      (s1 & d & HE & _ & Hd & Hts & Hid & Hnm & Hk & _ & _ & _ & _ & _ & _ & Hq);
      [reflexivity | cbn; apply lookup_insert_eq |] end.
  rewrite HE; clear HE. cbn in Hd, Hts, Hq. rewrite Hfull in Hq.
  exists s1, d. split; [reflexivity|].
  split; [rewrite Hq; reflexivity|].
  split; [exact Hd|].
  split_and!; first [assumption | rewrite Hk; [map_lookup | not_in_keys]].
Qed.

(** A record with exception information is never logged: [emit] raises
    [AttributeError] to the caller of the logging function and queues
    nothing, whether the logger runs or not. *)
Theorem emit_raises_on_exception_information t record body s :
  format record = Returned body ->
  LogRecord.exc_info record = true ->
  fst (emit t record s) = inl AttributeError /\
  log_queue (logger (snd (emit t record s))) = log_queue (logger s) /\
  file_lines (proc (snd (emit t record s))) = file_lines (proc s).
Proof using Type.
  intros Hfmt Hexc.
  unfold emit, bind, utcnow_isoformat, new_dict. rewrite Hfmt, Hexc.
  repeat split.
Qed.

End Emit.

(** ** The module level, once a logger exists *)

Section Singleton.

Variable path_str : PyPath -> string.

Arguments _log : simpl never.
Arguments stream_write : simpl never.
Arguments stream_flush : simpl never.
Arguments print : simpl never.

Lemma start_keeps_log_file t s :
  exists s', start path_str t s = (Returned tt, s') /\
             log_file (logger s') = log_file (logger s) /\
             running (logger s') = true.
Proof using Type.
  destruct (running (logger s)) eqn:Hrun.
  - destruct (start_running path_str t s Hrun) as (s1 & Hs & He).
    eexists; split; [exact Hs|].
    cbn [on_logger logger]. rewrite (evolves_logger _ _ He).
    destruct s as [l p]; destruct l. cbn in Hrun |- *. split; [reflexivity | exact Hrun].
  - destruct (start_not_running path_str t s Hrun) as (s1 & Hs & Hr & _).
    exists s1. split; [exact Hs|]. split; [|exact Hr].
    revert Hs.
    destruct s as [l p]; destruct l as [? ? cp ? ? r ? ? ? ? ? ?], p.
    cbn in Hrun; subst r.
    unfold start, acquire, release, spawn_writer, bind, gets, modify, ret.
    cbn -[_setup_logging_handler _setup_print_capture utcnow_isoformat new_dict].
    lazymatch goal with |- context [_setup_logging_handler ?s0] =>
      destruct (_setup_logging_handler_state s0) as (hs & ->) end.
    unfold _setup_print_capture, bind, gets, modify, ret, utcnow_isoformat, new_dict. cbn.
    destruct cp; cbn;
      (lazymatch goal with |- context [_log ?t ?e ?s] =>
         destruct (_log_evolves t e s) as (s2 & -> & H2) end);
      (lazymatch goal with |- context [print ?t ?m ?s] =>
         destruct (print_evolves t m s) as (s3 & -> & H3) end);
      intros [= <-]; cbn;
      rewrite (evolves_logger _ _ H3); cbn;
      rewrite (evolves_logger _ _ H2); reflexivity.
Qed.

(** Once the singleton exists, [start_logging] keeps using it: the file
    named by the environment variable now, and the keyword arguments, are
    ignored.  With the lock of the singleton free, so that its [start()]
    is let in, the logger returned writes to the file it was built for;
    when it was already running no writer thread is added. *)
Theorem start_logging_keeps_the_first_logger t arg kw w l path :
  environ w !! LIVE_LOGS_FILE_PATH = Some path ->
  path <> "" ->
  _logger_instance w = Some l ->
  lock l = false ->
  exists l',
    fst (start_logging path_str t arg kw w) = Returned (Some l') /\
    _logger_instance (snd (start_logging path_str t arg kw w)) = Some l' /\
    log_file l' = log_file l /\
    running l' = true /\
    (running l = true ->
     threads (process (snd (start_logging path_str t arg kw w))) = threads (process w) /\
     writer_thread l' = writer_thread l).
Proof using Type.
  intros Henv Hne Hinst _. unfold start_logging.
  rewrite Henv. cbn [default from_option]. unfold id.
  destruct (String.eqb path "") eqn:Heq; [apply String.eqb_eq in Heq; contradiction|].
  unfold get_logger. rewrite Hinst.
  destruct (start_keeps_log_file t (mkState l (process w))) as (s1 & Hs & Hlf & Hr).
  rewrite Hs. cbn [fst snd _logger_instance process].
  exists (logger s1). split_and!; try reflexivity; try assumption.
  intros Hrun.
  destruct (start_running path_str t (mkState l (process w)) Hrun) as (s2 & Hs2 & He).
  rewrite Hs in Hs2. injection Hs2 as ->.
  cbn [on_logger logger proc].
  split; [apply (evolves_threads _ _ He)|].
  rewrite (evolves_logger _ _ He). destruct l; reflexivity.
Qed.

End Singleton.

(** ** The log file *)

(** The writer threads are the same, in the same places, and the log
    file and its access are as they were. *)
Definition same_files (s s' : State) : Prop :=
  threads (proc s') = threads (proc s) /\
  file_lines (proc s') = file_lines (proc s) /\
  openable (proc s') = openable (proc s).

(** A writer thread that has not opened the log file. *)
Definition unopened (w : wstate) : bool :=
  match w with
  | WOpen | WCrashed => true
  | _ => false
  end.

Section Files.

Variable json_dumps : gmap string value -> option string.
Variable path_str : PyPath -> string.
Variable str_upper : string -> string.

Arguments _log : simpl never.
Arguments stream_write : simpl never.
Arguments stream_flush : simpl never.
Arguments print : simpl never.

Lemma evolves_same_files s s' : evolves s s' -> same_files s s'.
Proof using Type.
  intros (_ & Hp & _). unfold same_files. rewrite Hp. repeat split.
Qed.

Lemma start_files t s :
  running (logger s) = false ->
  file_lines (proc (snd (start path_str t s))) = file_lines (proc s).
Proof using Type.
  intros Hrun.
  destruct s as [l p]; destruct l as [? ? cp ? ? r ? ? ? ? ? ?], p.
  cbn in Hrun; subst r.
  unfold start, acquire, release, spawn_writer, bind, gets, modify, ret.
  cbn -[_setup_logging_handler _setup_print_capture utcnow_isoformat new_dict].
  lazymatch goal with |- context [_setup_logging_handler ?s0] =>
    destruct (_setup_logging_handler_state s0) as (hs & ->) end.
  unfold _setup_print_capture, bind, gets, modify, ret, utcnow_isoformat, new_dict. cbn.
  destruct cp; cbn;
    (lazymatch goal with |- context [_log ?t ?e ?s] =>
       destruct (_log_evolves t e s) as (s2 & -> & H2) end);
    (lazymatch goal with |- context [print ?t ?m ?s] =>
       destruct (print_evolves t m s) as (s3 & -> & H3) end);
    destruct (evolves_same_files _ _ (evolves_trans _ _ _ H2 H3)) as (_ & Hf & _);
    cbn; rewrite Hf; reflexivity.
Qed.

Lemma stop_files t s :
  running (logger s) = true ->
  file_lines (proc (snd (stop_until_join t s))) = file_lines (proc s) /\
  openable (proc (snd (stop_until_join t s))) = openable (proc s).
Proof using Type.
  intros Hrun.
  destruct s as [l p]; destruct l as [? ? cp ? ? r ? ? ? ? ? lh], p.
  cbn in Hrun; subst r.
  unfold stop_until_join, acquire, release, bind, gets, modify, ret,
    utcnow_isoformat, new_dict. cbn.
  lazymatch goal with |- context [_log ?t ?e ?s] =>
    destruct (_log_evolves t e s) as (s1 & -> & H1) end.
  destruct (evolves_same_files _ _ H1) as (_ & Hf & Ho).
  destruct (evolves_same_bindings _ _ H1) as (_ & _ & _ & B4 & B5 & _).
  cbn in Hf, Ho, B4, B5. cbn.
  rewrite B4. destruct lh as [h|]; cbn; rewrite B5; destruct cp; cbn;
    rewrite Hf, Ho; split; reflexivity.
Qed.

Lemma _pre_run_cell_files t info s :
  file_lines (proc (snd (_pre_run_cell t info s))) = file_lines (proc s) /\
  openable (proc (snd (_pre_run_cell t info s))) = openable (proc s).
Proof using Type.
  unfold _pre_run_cell, bind, gets, modify, ret, utcnow_isoformat, new_dict.
  cbn [fst snd on_logger on_proc logger proc].
  destruct (include_cell_info _); [|split; reflexivity].
  lazymatch goal with |- context [_log ?t ?e ?s0] =>
    destruct (_log_evolves t e s0) as (s1 & -> & H1) end.
  destruct (evolves_same_files _ _ H1) as (_ & Hf & Ho).
  cbn [snd]. rewrite Hf, Ho. split; reflexivity.
Qed.

(** A step of a thread other than a writer: entries may be queued and a
    writer thread may be started; the log file is not touched. *)
Lemma step_of_caller a s s' :
  step json_dumps path_str str_upper a s = Some s' ->
  (forall i io, a <> Writer i io) ->
  queue_grows (log_queue (logger s)) (log_queue (logger s')) /\
  (threads (proc s') = threads (proc s) \/
   threads (proc s') = threads (proc s) ++ [WOpen]) /\
  file_lines (proc s') = file_lines (proc s) /\
  openable (proc s') = openable (proc s).
Proof using Type.
  destruct a as [t|t|t|t lv m kw|t e|t fd text|t info|i io]; cbn [step]; intros Hstep Hnw.
  - destruct (lock (logger s)); [discriminate|]. injection Hstep as <-.
    destruct (running (logger s)) eqn:Hrun.
    + destruct (start_running path_str t s Hrun) as (s1 & -> & H1). cbn [snd].
      destruct (evolves_same_files _ _ H1) as (Ht & Hf & Ho).
      pose proof (evolves_queue _ _ H1) as Hq.
      cbn [on_logger logger proc] in *.
      split_and!; [destruct s as [l p]; destruct l; exact Hq | left; exact Ht
                  | exact Hf | exact Ho].
    + pose proof (start_files t s Hrun) as Hf.
      destruct (start_not_running path_str t s Hrun)
        as (s1 & Hs & _ & _ & _ & Ht & Ho & _ & Hq).
      rewrite Hs in Hf |- *. cbn [snd] in *.
      split_and!; [exact Hq | right; exact Ht | exact Hf | exact Ho].
  - destruct (lock (logger s)); [discriminate|]. injection Hstep as <-.
    destruct (running (logger s)) eqn:Hrun.
    + destruct (stop_files t s Hrun) as [Hf Ho].
      destruct (stop_running t s Hrun) as (s1 & d & Hs & _ & _ & Ht & _ & Hq & _).
      rewrite Hs in Hf, Ho |- *. cbn [snd] in *.
      split_and!; [exact Hq | left; exact Ht | exact Hf | exact Ho].
    + rewrite (stop_not_running t s Hrun). cbn [snd on_logger logger proc].
      split_and!; [destruct s as [l p]; destruct l; apply queue_grows_refl
                  | left; reflexivity | reflexivity | reflexivity].
  - destruct (lock (logger s) && Queue.join_ready (log_queue (logger s))); [|discriminate].
    injection Hstep as <-. unfold stop_after_join, release, bind, modify.
    destruct (print_evolves t "Structured logging stopped" s) as (s1 & -> & H1). cbn [snd].
    destruct (evolves_same_files _ _ H1) as (Ht & Hf & Ho).
    pose proof (evolves_queue _ _ H1) as Hq.
    cbn [on_logger logger proc].
    split_and!; [destruct s1 as [l1 p1]; destruct l1; exact Hq | left; exact Ht
                | exact Hf | exact Ho].
  - injection Hstep as <-. destruct (log_evolves str_upper t lv m kw s) as (o & s1 & -> & H1).
    destruct (evolves_same_files _ _ H1) as (Ht & Hf & Ho).
    split_and!; [exact (evolves_queue _ _ H1) | left; exact Ht | exact Hf | exact Ho].
  - injection Hstep as <-. destruct (_log_evolves t e s) as (s1 & -> & H1).
    destruct (evolves_same_files _ _ H1) as (Ht & Hf & Ho).
    split_and!; [exact (evolves_queue _ _ H1) | left; exact Ht | exact Hf | exact Ho].
  - assert (Hw : forall f,
              let s1 := snd (stream_write t f text s) in
              queue_grows (log_queue (logger s)) (log_queue (logger s1)) /\
              (threads (proc s1) = threads (proc s) \/
               threads (proc s1) = threads (proc s) ++ [WOpen]) /\
              file_lines (proc s1) = file_lines (proc s) /\
              openable (proc s1) = openable (proc s)).
    { intros f. destruct (stream_write_evolves t f text s) as (s1 & Hs & H1).
      rewrite Hs. cbn [snd].
      destruct (evolves_same_files _ _ H1) as (Ht & Hf & Ho).
      split_and!; [exact (evolves_queue _ _ H1) | left; exact Ht | exact Hf | exact Ho]. }
    destruct fd; injection Hstep as <-; apply Hw.
  - injection Hstep as <-.
    destruct (_pre_run_cell_files t info s) as [Hf Ho].
    destruct (_pre_run_cell_counts t info s) as (s1 & Hs & _ & _ & _ & Ht & Hq).
    rewrite Hs in Hf, Ho |- *. cbn [snd] in *.
    split_and!; [exact Hq | left; exact Ht | exact Hf | exact Ho].
  - exfalso. exact (Hnw i io eq_refl).
Qed.



Lemma unopened_stay a s s' :
  step json_dumps path_str str_upper a s = Some s' ->
  openable (proc s) = false ->
  Forall (fun w => unopened w = true) (threads (proc s)) ->
  openable (proc s') = false /\
  Forall (fun w => unopened w = true) (threads (proc s')) /\
  (Queue.unfinished_tasks (log_queue (logger s))
   <= Queue.unfinished_tasks (log_queue (logger s')))%nat.
Proof using Type.
  intros Hs Ho Hall.
  destruct a as [t|t|t|t lv m kw|t e|t fd text|t info|i io];
    try (destruct (step_of_caller _ _ _ Hs ltac:(discriminate))
           as ([_ (xs & _ & Hu)] & Ht & _ & Ho');
         rewrite Ho', Hu; split; [exact Ho|]; split; [|lia];
         destruct Ht as [-> | ->]; [exact Hall|];
         apply Forall_app; split; [exact Hall | repeat constructor]).
  cbn [step] in Hs. unfold _log_writer in Hs.
  destruct (threads (proc s) !! i) as [w|] eqn:Hw; [|discriminate].
  pose proof (proj1 (Forall_lookup _ _) Hall i w Hw) as Hu.
  destruct w; try discriminate.
  rewrite Ho in Hs. injection Hs as <-.
  split; [exact Ho|]. split; [|cbn; lia].
  cbn [set_thread on_proc proc threads set_threads].
  apply Forall_insert; [exact Hall | reflexivity].
Qed.

(** When the log file cannot be opened, [stop()] never returns.  Each
    writer thread ends at [open], so nothing is ever taken off the queue
    or marked done; the startup record alone keeps [Queue.join] waiting,
    whatever the threads do after the first [start()]. *)
Theorem stop_hangs_when_the_file_cannot_be_opened acts t0 t s0 s :
  constructed s0 ->
  openable (proc s0) = false ->
  run json_dumps path_str str_upper (Start t0 :: acts) s0 = Some s ->
  Queue.join_ready (log_queue (logger s)) = false /\
  step json_dumps path_str str_upper (StopLeave t) s = None.
Proof using Type.
  intros Hc Ho Hrun. cbn [run] in Hrun.
  destruct (step json_dumps path_str str_upper (Start t0) s0) as [s1|] eqn:Hs1;
    [|discriminate].
  assert (H1 : openable (proc s1) = false /\
               Forall (fun w => unopened w = true) (threads (proc s1)) /\
               (1 <= Queue.unfinished_tasks (log_queue (logger s1)))%nat).
  { pose proof (accounted_step _ _ _ _ _ _ Hs1 (accounted_constructed _ Hc)) as Hacc.
    destruct Hc as [(lf & bs & ici & cp & Hl) Ht].
    cbn [step] in Hs1. rewrite Hl in Hs1. cbn [lock __init__] in Hs1.
    injection Hs1 as <-.
    assert (Hr0 : running (logger s0) = false) by (rewrite Hl; reflexivity).
    assert (Hf0 : Queue.full (log_queue (logger s0)) = false).
    { rewrite Hl. unfold Queue.full. cbn. apply andb_false_iff.
      destruct (0 <? bs) eqn:Hb; [right | left; reflexivity].
      apply Z.ltb_lt in Hb. apply Z.leb_gt. exact Hb. }
    destruct (start_not_running path_str t0 s0 Hr0)
      as (s1 & Hs & _ & _ & _ & Hts & Hop & _ & _).
    destruct (start_startup_record path_str t0 s0 Hr0 Hf0)
      as (s1' & d & rest & Hs' & Hq & _).
    rewrite Hs in Hs'. injection Hs' as <-.
    rewrite Hs in Hacc |- *. cbn [snd] in Hacc |- *.
    split; [rewrite Hop; exact Ho|].
    split; [rewrite Hts, Ht; repeat constructor|].
    unfold accounted in Hacc. rewrite Hq, length_app in Hacc. cbn [length] in Hacc. lia. }
  clear Hs1 Hc Ho. revert s1 H1 Hrun.
  induction acts as [|a acts IH]; intros s1 (Ho & Hall & Hu); cbn [run].
  - intros [= <-].
    assert (Hj : Queue.join_ready (log_queue (logger s1)) = false).
    { unfold Queue.join_ready.
      destruct (Queue.unfinished_tasks (log_queue (logger s1))); [lia | reflexivity]. }
    split; [exact Hj|]. cbn [step]. rewrite Hj, andb_false_r. reflexivity.
  - destruct (step json_dumps path_str str_upper a s1) as [s2|] eqn:Hs2; [|discriminate].
    destruct (unopened_stay _ _ _ Hs2 Ho Hall) as (Ho2 & Hall2 & Hu2).
    apply IH. split_and!; [exact Ho2 | exact Hall2 | lia].
Qed.

End Files.

(** ** Instances of the further properties *)

(** The started logger once its writer has written the startup record
    and is back at the loop test. *)
Definition demo_idle : State :=
  default demo_started
    (run body_only raw_path upper (replicate 6 (Writer 0 true)) demo_started).

(** The writer is about to call [task_done] for the startup record. *)
Definition demo_flushed : State :=
  default demo_started
    (run body_only raw_path upper (replicate 5 (Writer 0 true)) demo_started).

(** The writer has given up the startup record after a failed write, and
    [stop()] is called. *)
Definition demo_abandoned : State := set_thread 0 WLoop demo_writer_holds.

Definition demo_abandoned_stop : State :=
  default demo_abandoned
    (step body_only raw_path upper (StopEnter main_thread) demo_abandoned).

(** Two manual records wait in the queue of the idle logger. *)
Definition demo_two_records : State :=
  snd (log upper main_thread "info" (VStr "two") ∅
         (snd (log upper main_thread "info" (VStr "one") ∅ demo_idle))).

(** A logger with [capture_print], before [start()], after a captured
    write, and after [stop()] has been entered. *)
Definition demo_capture_fresh : State := fresh_state "app.log" 1000 true true true.

Definition demo_captured_write : State :=
  default demo_capturing
    (step body_only raw_path upper (Write main_thread Stdout "hi") demo_capturing).

Definition demo_capture_stopping : State :=
  default demo_captured_write
    (step body_only raw_path upper (StopEnter main_thread) demo_captured_write).

(** A logger without bound on its queue, started. *)
Definition demo_unbounded : State :=
  snd (start raw_path main_thread (fresh_state "app.log" 0 true false true)).

(** The started logger inside a cell. *)
Definition demo_cell_info : CellInfo := mkCellInfo (VStr "c1") (Some "x = 1").

Definition demo_in_cell : State :=
  snd (_pre_run_cell main_thread demo_cell_info demo_started).

Definition demo_cell : Cell :=
  default (mkCell 0 VNone "") (current_cell (logger demo_in_cell)).

(** A log record of the [logging] module, and a formatter that returns
    its message. *)
Definition demo_record (exc : bool) : LogRecord.t :=
  LogRecord.mk "WARNING" "root" "notebook" "<module>" 3 exc.

Definition demo_format (record : LogRecord.t) : outcome string :=
  Returned "disk almost full".

(** The module after [start_logging] has made and started the singleton,
    with the environment variable naming another file since. *)
Definition demo_world : World :=
  mkWorld {[ LIVE_LOGS_FILE_PATH := "other.log" ]}
    (Some (logger demo_started)) (proc demo_started).

(** The logger whose file cannot be opened: started, the writer thread
    has failed at [open], and [stop()] has been entered. *)
Definition demo_hung : State :=
  default demo_unopenable
    (run body_only raw_path upper
       [Start main_thread; Writer 0 true; StopEnter main_thread] demo_unopenable).

Lemma demo_fresh_constructed : constructed demo_fresh.
Proof. split; [|reflexivity]. exists "app.log", 1000, true, false. reflexivity. Qed.

Lemma stop_twice_changes_nothing_witness :
  running (logger demo_stopped) = false /\
  stop_until_join main_thread demo_stopped = (Returned false, demo_stopped) /\
  step body_only raw_path upper (StopEnter main_thread) demo_stopped = Some demo_stopped.
Proof.
  apply (stop_twice_changes_nothing body_only raw_path upper demo_trace main_thread
           main_thread demo_fresh demo_joined demo_stopped).
  - exact demo_fresh_constructed.
  - vm_compute; reflexivity.
  - vm_compute; reflexivity.
Defined.

Lemma submissions_while_stopped_are_discarded_witness :
  log_queue (logger (snd (log upper main_thread "info" (VStr "x") ∅ demo_fresh)))
    = log_queue (logger demo_fresh) /\
  file_lines (proc (snd (log upper main_thread "info" (VStr "x") ∅ demo_fresh)))
    = file_lines (proc demo_fresh) /\
  running (logger (snd (log upper main_thread "info" (VStr "x") ∅ demo_fresh))) = false.
Proof.
  apply (submissions_while_stopped_are_discarded body_only raw_path upper
           (Log main_thread "info" (VStr "x") ∅) demo_fresh).
  - reflexivity.
  - exact I.
  - reflexivity.
Defined.

Lemma writer_exits_only_when_stopped_and_drained_witness :
  WLoop = WLoop /\
  running (logger demo_stopped) = false /\
  Queue.queue (log_queue (logger demo_stopped)) = [].
Proof.
  apply (writer_exits_only_when_stopped_and_drained body_only 0 true demo_stopped
           (set_thread 0 WExited demo_stopped) WLoop).
  - vm_compute; reflexivity.
  - vm_compute; reflexivity.
  - vm_compute; reflexivity.
Defined.

Lemma task_done_never_raises_witness :
  exists q, Queue.task_done (log_queue (logger demo_flushed)) = Returned q.
Proof.
  apply (task_done_never_raises body_only raw_path upper
           (Start main_thread :: replicate 5 (Writer 0 true)) demo_fresh demo_flushed 0).
  - exact demo_fresh_constructed.
  - vm_compute; reflexivity.
  - vm_compute; reflexivity.
Defined.

Lemma get_logger_returns_the_singleton_witness :
  get_logger "b.log" (mkKwargs (Some 5) None None ["colour"])
    (mkWorld ∅ (Some (__init__ "a.log" 1000 true false (fresh_process true)))
       (fresh_process true))
  = (Returned (__init__ "a.log" 1000 true false (fresh_process true)),
     mkWorld ∅ (Some (__init__ "a.log" 1000 true false (fresh_process true)))
       (fresh_process true)).
Proof.
  apply (get_logger_returns_the_singleton "a.log" (mkKwargs None None None [])
           "b.log" (mkKwargs (Some 5) None None ["colour"])
           (mkWorld ∅ None (fresh_process true))).
  reflexivity.
Defined.

Lemma queue_never_exceeds_buffer_size_witness :
  Queue.maxsize (log_queue (logger demo_joined)) = 1000 /\
  Z.of_nat (length (Queue.queue (log_queue (logger demo_joined)))) <= 1000.
Proof.
  apply (queue_never_exceeds_buffer_size body_only raw_path upper demo_trace
           "app.log" 1000 true false (fresh_process true) demo_joined).
  - lia.
  - vm_compute; reflexivity.
Defined.

Lemma buffer_size_zero_means_no_bound_witness :
  Queue.queue (log_queue (logger (snd (_log main_thread 7 demo_unbounded))))
  = Queue.queue (log_queue (logger demo_unbounded)) ++ [7%nat].
Proof.
  apply (buffer_size_zero_means_no_bound body_only raw_path upper [Start main_thread]
           "app.log" 0 true false (fresh_process true) demo_unbounded main_thread 7).
  - lia.
  - vm_compute; reflexivity.
  - vm_compute; reflexivity.
Defined.

Lemma failed_record_blocks_stop_forever_witness :
  Queue.join_ready (log_queue (logger demo_abandoned_stop)) = false /\
  step body_only raw_path upper (StopLeave main_thread) demo_abandoned_stop = None.
Proof.
  apply (failed_record_blocks_stop_forever body_only raw_path upper
           (Start main_thread :: replicate 3 (Writer 0 true)) demo_fresh
           demo_writer_holds 0 false (WHave 1) demo_abandoned
           [StopEnter main_thread] demo_abandoned_stop main_thread).
  - exact demo_fresh_constructed.
  - vm_compute; reflexivity.
  - vm_compute; reflexivity.
  - right. exists 1%nat. reflexivity.
  - vm_compute; reflexivity.
  - vm_compute; reflexivity.
  - vm_compute; reflexivity.
Defined.

Lemma writer_drains_queue_in_order_witness :
  exists s',
    run body_only raw_path upper
      (concat (replicate (length (Queue.queue (log_queue (logger demo_two_records))))
                 (writer_round 0))) demo_two_records
      = Some s' /\
    file_lines (proc s')
      = file_lines (proc demo_two_records)
        ++ map (fun line => line +:+ LF) ["one"; "two"] /\
    Queue.queue (log_queue (logger s')) = [] /\
    Queue.unfinished_tasks (log_queue (logger s'))
      = (Queue.unfinished_tasks (log_queue (logger demo_two_records))
         - length (Queue.queue (log_queue (logger demo_two_records))))%nat /\
    threads (proc s') !! 0%nat = Some WLoop.
Proof.
  apply (writer_drains_queue_in_order body_only raw_path upper 0 demo_two_records
           ["one"; "two"]).
  - vm_compute; reflexivity.
  - vm_compute. repeat constructor.
  - vm_compute. lia.
Defined.

Lemma logged_record_reaches_the_file_witness :
  exists s1 d,
    step body_only raw_path upper (Log main_thread "info" (VStr "one") ∅) demo_idle
      = Some s1 /\
    heap (proc s1) !! next_id (proc demo_idle) = Some d /\
    forall line,
      body_only d = Some line ->
      exists s2,
        run body_only raw_path upper (writer_round 0) s1 = Some s2 /\
        file_lines (proc s2) = file_lines (proc demo_idle) ++ [line +:+ LF] /\
        Queue.queue (log_queue (logger s2)) = [] /\
        Queue.unfinished_tasks (log_queue (logger s2))
          = Queue.unfinished_tasks (log_queue (logger demo_idle)).
Proof.
  apply (logged_record_reaches_the_file body_only raw_path upper main_thread "info"
           (VStr "one") ∅ 0 demo_idle).
  - reflexivity.
  - reflexivity.
  - reflexivity.
  - vm_compute; reflexivity.
  - vm_compute; reflexivity.
  - vm_compute; reflexivity.
Defined.

Lemma stop_undoes_the_bindings_of_start_witness :
  sys_stdout (proc demo_capture_stopping) = Real Stdout /\
  sys_stderr (proc demo_capture_stopping) = Real Stderr /\
  root_handlers (proc demo_capture_stopping) = [StreamHandler] /\
  running (logger demo_capture_stopping) = false.
Proof.
  apply (stop_undoes_the_bindings_of_start body_only raw_path upper
           [Write main_thread Stdout "hi"] main_thread main_thread
           demo_capture_fresh demo_capturing demo_captured_write demo_capture_stopping).
  - reflexivity.
  - apply not_elem_of_nil.
  - vm_compute; reflexivity.
  - reflexivity.
  - vm_compute; reflexivity.
  - vm_compute; reflexivity.
Defined.

Lemma restart_leaves_old_writer_running_witness :
  exists s',
    step body_only raw_path upper (Start main_thread) demo_stopped = Some s' /\
    start raw_path main_thread demo_stopped = (Returned tt, s') /\
    threads (proc s') !! 0%nat = Some WLoop /\
    threads (proc s') !! length (threads (proc demo_stopped)) = Some WOpen /\
    writer_thread (logger s') = Some (length (threads (proc demo_stopped))) /\
    0%nat <> length (threads (proc demo_stopped)) /\
    forall io, _log_writer body_only 0 io s' = Some (set_thread 0 WGet s').
Proof.
  apply (restart_leaves_old_writer_running body_only raw_path upper main_thread 0
           demo_stopped).
  - vm_compute; reflexivity.
  - vm_compute; reflexivity.
  - vm_compute; reflexivity.
Defined.

Lemma log_keywords_override_level_and_message_witness :
  exists s' d,
    log upper main_thread "info" (VStr "one") {[ "body" := VStr "other" ]} demo_started
      = (Returned tt, s') /\
    Queue.queue (log_queue (logger s'))
      = Queue.queue (log_queue (logger demo_started)) ++ [next_id (proc demo_started)] /\
    heap (proc s') !! next_id (proc demo_started) = Some d /\
    d !! "severity_text"
      = Some (default (VStr (upper "info"))
                (({[ "body" := VStr "other" ]} : gmap string value) !! "severity_text")) /\
    d !! "body"
      = Some (default (VStr "one")
                (({[ "body" := VStr "other" ]} : gmap string value) !! "body")) /\
    (forall k, k ∉ ["timestamp"; "thread_id"; "thread_name"; "cell_number"; "cell_id";
                    "severity_text"; "body"] ->
               d !! k = ({[ "body" := VStr "other" ]} : gmap string value) !! k) /\
    d !! "timestamp"
      = Some (VStr (clock (proc demo_started) (ticks (proc demo_started)) +:+ "Z")) /\
    d !! "thread_id" = Some (VInt (ident main_thread)) /\
    d !! "thread_name" = Some (VStr (name main_thread)).
Proof.
  apply (log_keywords_override_level_and_message upper main_thread "info" (VStr "one")
           {[ "body" := VStr "other" ]} demo_started).
  - vm_compute; reflexivity.
  - vm_compute; reflexivity.
  - vm_compute; reflexivity.
  - reflexivity.
  - reflexivity.
Defined.

Lemma start_queues_startup_record_witness :
  exists s' d rest,
    step body_only raw_path upper (Start main_thread) demo_fresh = Some s' /\
    start raw_path main_thread demo_fresh = (Returned tt, s') /\
    Queue.queue (log_queue (logger s'))
      = Queue.queue (log_queue (logger demo_fresh))
        ++ S (next_id (proc demo_fresh)) :: rest /\
    heap (proc s') !! S (next_id (proc demo_fresh)) = Some d /\
    d !! "severity_text" = Some (VStr "INFO") /\
    d !! "body" = Some (VStr "Notebook logger started") /\
    d !! "log_file" = Some (VStr (raw_path (log_file (logger demo_fresh)))) /\
    d !! "timestamp"
      = Some (VStr (clock (proc demo_fresh) (S (ticks (proc demo_fresh))) +:+ "Z")) /\
    d !! "thread_id" = Some (VInt (ident main_thread)) /\
    d !! "thread_name" = Some (VStr (name main_thread)).
Proof.
  apply (start_queues_startup_record body_only raw_path upper main_thread demo_fresh);
    reflexivity.
Defined.

Lemma captured_print_queues_one_record_witness :
  exists s' d,
    print main_thread "hi" demo_capturing = (Returned tt, s') /\
    Queue.queue (log_queue (logger s'))
      = Queue.queue (log_queue (logger demo_capturing))
        ++ [next_id (proc demo_capturing)] /\
    heap (proc s') !! next_id (proc demo_capturing) = Some d /\
    d !! "body" = Some (VStr (rstrip "hi")) /\
    d !! "source" = Some (VStr "print") /\
    d !! "stream" = Some (VStr "stdout") /\
    tty Stdout (proc s')
      = console_flush (console_write LF
          (console_flush (console_write "hi" (tty Stdout (proc demo_capturing))))).
Proof.
  apply (captured_print_queues_one_record main_thread Stdout "stdout" "hi" demo_capturing).
  - vm_compute; reflexivity.
  - vm_compute; reflexivity.
  - vm_compute; reflexivity.
  - reflexivity.
Defined.

Lemma start_with_capture_logs_its_announcement_witness :
  exists s' d,
    step body_only raw_path upper (Start main_thread) demo_capture_fresh = Some s' /\
    start raw_path main_thread demo_capture_fresh = (Returned tt, s') /\
    Queue.queue (log_queue (logger s'))
      = Queue.queue (log_queue (logger demo_capture_fresh))
        ++ [S (next_id (proc demo_capture_fresh));
            S (S (next_id (proc demo_capture_fresh)))] /\
    heap (proc s') !! S (S (next_id (proc demo_capture_fresh))) = Some d /\
    d !! "body"
      = Some (VStr (rstrip ("Structured logging started: "
                            +:+ raw_path (log_file (logger demo_capture_fresh))))) /\
    d !! "severity_text" = Some (VStr "INFO") /\
    d !! "source" = Some (VStr "print") /\
    d !! "stream" = Some (VStr "stdout") /\
    tty Stdout (proc s')
      = console_flush (console_write LF
          (console_flush
             (console_write ("Structured logging started: "
                             +:+ raw_path (log_file (logger demo_capture_fresh)))
                (tty Stdout (proc demo_capture_fresh))))).
Proof.
  apply (start_with_capture_logs_its_announcement body_only raw_path upper main_thread
           Stdout demo_capture_fresh).
  - reflexivity.
  - reflexivity.
  - reflexivity.
  - reflexivity.
  - right. cbn. lia.
Defined.

Lemma pre_run_cell_sets_the_cell_context_witness :
  exists s' d0,
    _pre_run_cell main_thread demo_cell_info demo_started = (Returned tt, s') /\
    cell_count (logger s') = cell_count (logger demo_started) + 1 /\
    Queue.queue (log_queue (logger s'))
      = Queue.queue (log_queue (logger demo_started)) ++ [next_id (proc demo_started)] /\
    heap (proc s') !! next_id (proc demo_started) = Some d0 /\
    d0 !! "event" = Some (VStr "cell_start") /\
    d0 !! "severity_text" = Some (VStr "DEBUG") /\
    d0 !! "body"
      = Some (VStr ("Cell " +:+ pretty (cell_count (logger demo_started) + 1)
                    +:+ " execution started")) /\
    d0 !! "cell_preview"
      = Some (VStr (match raw_cell demo_cell_info with
                    | Some src => str_take 100 src
                    | None => ""
                    end)) /\
    d0 !! "cell_number" = Some (VInt (cell_count (logger demo_started) + 1)) /\
    forall t' entry d,
      heap (proc s') !! entry = Some d ->
      exists d',
        heap (proc (snd (_log t' entry s'))) !! entry = Some d' /\
        d' !! "cell_number" = Some (VInt (cell_count (logger demo_started) + 1)) /\
        d' !! "cell_id" = (if truthy (info_cell_id demo_cell_info)
                           then Some (info_cell_id demo_cell_info)
                           else d !! "cell_id").
Proof.
  apply (pre_run_cell_sets_the_cell_context main_thread demo_cell_info demo_started);
    reflexivity.
Defined.

Lemma post_run_cell_logs_the_end_and_clears_the_cell_witness :
  exists s' d,
    _post_run_cell main_thread (mkExecResult (Some "division by zero") false) demo_in_cell
      = (Returned tt, s') /\
    current_cell (logger s') = None /\
    cell_count (logger s') = cell_count (logger demo_in_cell) /\
    Queue.queue (log_queue (logger s'))
      = Queue.queue (log_queue (logger demo_in_cell)) ++ [next_id (proc demo_in_cell)] /\
    heap (proc s') !! next_id (proc demo_in_cell) = Some d /\
    d !! "event" = Some (VStr "cell_end") /\
    d !! "severity_text" = Some (VStr "ERROR") /\
    d !! "body"
      = Some (VStr ("Cell " +:+ pretty (cell_count (logger demo_in_cell))
                    +:+ " execution completed")) /\
    d !! "success" = Some (VBool false) /\
    d !! "error" = Some (VStr "division by zero") /\
    d !! "cell_number" = Some (VInt (cell_number demo_cell)) /\
    forall t' entry d0,
      heap (proc s') !! entry = Some d0 ->
      exists d',
        heap (proc (snd (_log t' entry s'))) !! entry = Some d' /\
        d' !! "cell_number" = d0 !! "cell_number" /\
        d' !! "cell_id" = d0 !! "cell_id".
Proof.
  apply (post_run_cell_logs_the_end_and_clears_the_cell main_thread
           (mkExecResult (Some "division by zero") false) demo_cell demo_in_cell).
  - vm_compute; reflexivity.
  - vm_compute; reflexivity.
  - vm_compute; reflexivity.
  - vm_compute; reflexivity.
Defined.

Lemma emit_queues_the_record_witness :
  exists s' d,
    emit demo_format main_thread (demo_record false) demo_started = (inr tt, s') /\
    Queue.queue (log_queue (logger s'))
      = Queue.queue (log_queue (logger demo_started)) ++ [next_id (proc demo_started)] /\
    heap (proc s') !! next_id (proc demo_started) = Some d /\
    d !! "severity_text" = Some (VStr "WARNING") /\
    d !! "body" = Some (VStr "disk almost full") /\
    d !! "logger_name" = Some (VStr "root") /\
    d !! "module" = Some (VStr "notebook") /\
    d !! "function" = Some (VStr "<module>") /\
    d !! "line" = Some (VInt 3) /\
    d !! "exception" = None /\
    d !! "timestamp"
      = Some (VStr (clock (proc demo_started) (S (ticks (proc demo_started))) +:+ "Z")) /\
    d !! "thread_id" = Some (VInt (ident main_thread)) /\
    d !! "thread_name" = Some (VStr (name main_thread)).
Proof.
  apply (emit_queues_the_record demo_format main_thread (demo_record false)
           "disk almost full" demo_started); reflexivity.
Defined.

Lemma emit_raises_on_exception_information_witness :
  fst (emit demo_format main_thread (demo_record true) demo_started) = inl AttributeError /\
  log_queue (logger (snd (emit demo_format main_thread (demo_record true) demo_started)))
    = log_queue (logger demo_started) /\
  file_lines (proc (snd (emit demo_format main_thread (demo_record true) demo_started)))
    = file_lines (proc demo_started).
Proof.
  apply (emit_raises_on_exception_information demo_format main_thread (demo_record true)
           "disk almost full" demo_started); reflexivity.
Defined.

Lemma start_logging_keeps_the_first_logger_witness :
  exists l',
    fst (start_logging raw_path main_thread "ignored.log"
           (mkKwargs (Some 5) None None []) demo_world) = Returned (Some l') /\
    _logger_instance (snd (start_logging raw_path main_thread "ignored.log"
                             (mkKwargs (Some 5) None None []) demo_world)) = Some l' /\
    log_file l' = log_file (logger demo_started) /\
    running l' = true /\
    (running (logger demo_started) = true ->
     threads (process (snd (start_logging raw_path main_thread "ignored.log"
                              (mkKwargs (Some 5) None None []) demo_world)))
       = threads (process demo_world) /\
     writer_thread l' = writer_thread (logger demo_started)).
Proof.
  apply (start_logging_keeps_the_first_logger raw_path main_thread "ignored.log"
           (mkKwargs (Some 5) None None []) demo_world (logger demo_started) "other.log").
  - reflexivity.
  - discriminate.
  - reflexivity.
  - reflexivity.
Defined.


Lemma stop_hangs_when_the_file_cannot_be_opened_witness :
  Queue.join_ready (log_queue (logger demo_hung)) = false /\
  step body_only raw_path upper (StopLeave main_thread) demo_hung = None.
Proof.
  apply (stop_hangs_when_the_file_cannot_be_opened body_only raw_path upper
           [Writer 0 true; StopEnter main_thread] main_thread main_thread
           demo_unopenable demo_hung).
  - split; [|reflexivity]. exists "/missing/app.log", 1000, true, false. reflexivity.
  - reflexivity.
  - vm_compute; reflexivity.
Defined.

(** ** A full queue at [stop], and a dict logged twice *)

Section Aliasing.

Variable json_dumps : gmap string value -> option string.
Variable path_str : PyPath -> string.
Variable str_upper : string -> string.

Arguments _log : simpl never.
Arguments stream_write : simpl never.
Arguments stream_flush : simpl never.
Arguments print : simpl never.

(** [stop()] while the queue is full: the shutdown record is dropped
    like any other, without a word, and [stop()] goes on to clear
    [running] and to wait in [join] for the records that are queued. *)
Theorem stop_drops_the_shutdown_record_when_full t s :
  running (logger s) = true ->
  Queue.full (log_queue (logger s)) = true ->
  exists s',
    stop_until_join t s = (Returned true, s') /\
    log_queue (logger s') = log_queue (logger s) /\
    running (logger s') = false /\
    lock (logger s') = true /\
    tty_out (proc s') = tty_out (proc s) /\
    tty_err (proc s') = tty_err (proc s).
Proof using Type.
  intros Hrun Hfull.
  destruct (stop_running t s Hrun)
    as (s' & d & Hs & Hr & Hl & _ & _ & _ & _ & _ & _ & _ & Hq).
  rewrite Hfull in Hq.
  exists s'. split; [exact Hs|]. split; [exact Hq|]. split; [exact Hr|].
  split; [exact Hl|].
  revert Hs.
  destruct s as [l p]; destruct l as [? ? cp ? ? r ? ? ? ? ? lh], p.
  cbn in Hrun; subst r.
  unfold stop_until_join, acquire, release, bind, gets, modify, ret,
    utcnow_isoformat, new_dict. cbn.
  lazymatch goal with |- context [_log ?t ?e ?s] =>
    edestruct (_log_running t e s) as
      (s1 & d1 & HE & He & _ & _ & _ & _ & _ & _ & _ & _ & _ & Hout & Herr & _);
      [reflexivity | cbn; apply lookup_insert_eq |] end.
  rewrite HE. cbn in Hout, Herr.
  destruct (evolves_same_bindings _ _ He) as (_ & _ & _ & B4 & B5 & _).
  cbn in B4, B5. cbn. rewrite B4.
  destruct lh as [h|]; cbn; rewrite B5; destruct cp; cbn;
    intros [= <-]; cbn; split; assumption.
Qed.

(** An entry is queued by reference.  A dict handed to [_log] twice is
    queued twice, and the second stamp replaces the first in the one
    object both queue slots refer to: the writer then writes the same
    line twice, with the later timestamp and thread. *)
Theorem dict_logged_twice_is_written_twice_alike t t' entry d i s :
  running (logger s) = true ->
  Queue.queue (log_queue (logger s)) = [] ->
  Queue.maxsize (log_queue (logger s)) <= 0 \/ 2 <= Queue.maxsize (log_queue (logger s)) ->
  threads (proc s) !! i = Some WLoop ->
  heap (proc s) !! entry = Some d ->
  exists s2 d2,
    run json_dumps path_str str_upper [LogEntry t entry; LogEntry t' entry] s = Some s2 /\
    Queue.queue (log_queue (logger s2)) = [entry; entry] /\
    heap (proc s2) !! entry = Some d2 /\
    d2 !! "timestamp" = Some (VStr (clock (proc s) (S (ticks (proc s))) +:+ "Z")) /\
    d2 !! "thread_name" = Some (VStr (name t')) /\
    forall line,
      json_dumps d2 = Some line ->
      exists s3,
        run json_dumps path_str str_upper (writer_round i ++ writer_round i) s2 = Some s3 /\
        file_lines (proc s3) = file_lines (proc s) ++ [line +:+ LF; line +:+ LF].
Proof using Type.
  intros Hrun Hempty Hroom Hw Hd.
  assert (Hfull : Queue.full (log_queue (logger s)) = false).
  { unfold Queue.full. rewrite Hempty. cbn [length].
    destruct (0 <? Queue.maxsize (log_queue (logger s))) eqn:Hb; [|reflexivity].
    apply Z.ltb_lt in Hb. cbn [andb]. apply Z.leb_gt. lia. }
  cbn [run step].
  destruct (_log_running t entry s d Hrun Hd)
    as (s1 & d1 & HE1 & He1 & Hd1 & _ & _ & _ & _ & _ & _ & _ & Htk1 & _ & _ & Hq1).
  rewrite HE1. cbn [snd]. rewrite Hfull, Hempty in Hq1.
  assert (Hrun1 : running (logger s1) = true)
    by (rewrite (evolves_running _ _ He1); exact Hrun).
  assert (Hfull1 : Queue.full (log_queue (logger s1)) = false).
  { rewrite Hq1. unfold Queue.full. cbn [Queue.maxsize Queue.queue app length].
    destruct Hroom as [Hm | Hm].
    - replace (0 <? Queue.maxsize (log_queue (logger s))) with false
        by (symmetry; apply Z.ltb_ge; lia).
      reflexivity.
    - replace (Queue.maxsize (log_queue (logger s)) <=? Z.of_nat 1) with false
        by (symmetry; apply Z.leb_gt; lia).
      apply andb_false_r. }
  destruct (_log_running t' entry s1 d1 Hrun1 Hd1)
    as (s2 & d2 & HE2 & He2 & Hd2 & Hts2 & _ & Hnm2 & _ & _ & _ & _ & _ & _ & _ & Hq2).
  rewrite HE2. cbn [snd]. rewrite Hfull1, Hq1 in Hq2. cbn [Queue.maxsize Queue.queue
    Queue.unfinished_tasks app] in Hq2.
  exists s2, d2. split; [reflexivity|].
  split; [rewrite Hq2; reflexivity|].
  split; [exact Hd2|].
  split.
  { rewrite Hts2. destruct He1 as (_ & Hp1 & _). rewrite Hp1, Htk1. reflexivity. }
  split; [exact Hnm2|].
  intros line Hline.
  pose proof (evolves_trans _ _ _ He1 He2) as He.
  pose proof (evolves_threads _ _ He) as Ht.
  destruct (evolves_same_files _ _ He) as (_ & Hf & _).
  destruct (writer_round_writes_oldest json_dumps path_str str_upper i s2 entry [entry] line
              (S (Queue.unfinished_tasks (log_queue (logger s)))))
    as (s3 & Hr3 & Hw3 & Hq3 & Hu3 & Hf3 & Hh3 & _).
  - rewrite Ht. exact Hw.
  - rewrite Hq2. reflexivity.
  - rewrite Hd2. exact Hline.
  - rewrite Hq2. reflexivity.
  - destruct (writer_round_writes_oldest json_dumps path_str str_upper i s3 entry [] line
                (Queue.unfinished_tasks (log_queue (logger s))))
      as (s4 & Hr4 & _ & _ & _ & Hf4 & _).
    + exact Hw3.
    + exact Hq3.
    + rewrite Hh3, Hd2. exact Hline.
    + exact Hu3.
    + exists s4. split.
      * rewrite (run_app json_dumps path_str str_upper _ _ _ _ Hr3). exact Hr4.
      * rewrite Hf4, Hf3, Hf, <- app_assoc. reflexivity.
Qed.

End Aliasing.

(** The idle logger after the caller has built the dict [{"body": "hi"}];
    and a started logger whose queue of one slot is full. *)
Definition demo_idle_dict : State :=
  snd (new_dict {[ "body" := VStr "hi" ]} demo_idle).

Definition demo_full : State :=
  snd (start raw_path main_thread (fresh_state "app.log" 1 true false true)).

Lemma stop_drops_the_shutdown_record_when_full_witness :
  exists s',
    stop_until_join main_thread demo_full = (Returned true, s') /\
    log_queue (logger s') = log_queue (logger demo_full) /\
    running (logger s') = false /\
    lock (logger s') = true /\
    tty_out (proc s') = tty_out (proc demo_full) /\
    tty_err (proc s') = tty_err (proc demo_full).
Proof.
  apply (stop_drops_the_shutdown_record_when_full main_thread demo_full).
  - vm_compute; reflexivity.
  - vm_compute; reflexivity.
Defined.

Lemma dict_logged_twice_is_written_twice_alike_witness :
  exists s2 d2,
    run body_only raw_path upper
      [LogEntry main_thread (next_id (proc demo_idle));
       LogEntry (mkThread 2 "Worker") (next_id (proc demo_idle))] demo_idle_dict
      = Some s2 /\
    Queue.queue (log_queue (logger s2))
      = [next_id (proc demo_idle); next_id (proc demo_idle)] /\
    heap (proc s2) !! next_id (proc demo_idle) = Some d2 /\
    d2 !! "timestamp"
      = Some (VStr (clock (proc demo_idle_dict) (S (ticks (proc demo_idle_dict))) +:+ "Z")) /\
    d2 !! "thread_name" = Some (VStr (name (mkThread 2 "Worker"))) /\
    forall line,
      body_only d2 = Some line ->
      exists s3,
        run body_only raw_path upper (writer_round 0 ++ writer_round 0) s2 = Some s3 /\
        file_lines (proc s3)
          = file_lines (proc demo_idle_dict) ++ [line +:+ LF; line +:+ LF].
Proof.
  apply (dict_logged_twice_is_written_twice_alike body_only raw_path upper main_thread
           (mkThread 2 "Worker") (next_id (proc demo_idle)) {[ "body" := VStr "hi" ]}
           0 demo_idle_dict).
  - vm_compute; reflexivity.
  - vm_compute; reflexivity.
  - right. vm_compute. discriminate.
  - vm_compute; reflexivity.
  - vm_compute; reflexivity.
Defined.
